(** * Rap-Bots: the text-to-speech selection chain

    A shallow embedding of the TTS provider selection and fallback logic
    of the Rap-Bots server:

    - [GroqTTSService]       the Groq provider client
                             (src/unnamed/part_001, lines 174-391);
    - [UserTTSManager]       the selection engine, the system fallback
                             chain and the provider instance cache
                             (src/unnamed/part_000, lines 1-307);
    - [UserTTSManagerEarly]  the earlier variant of the same class
                             (src/server/services/user-tts-manager.ts).

    Conventions.  A JavaScript string is a [string]; each character stands
    for one UTF-16 code unit below 256, so that [String.length] is the
    [.length] of the source.  A JavaScript number is an IEEE 754 binary64
    value, taken from the standard library's executable specification
    [spec_float]; integral quantities (durations in seconds) are in [Z].
    Asynchronous code is sequential here: every [await] is a plain call. *)

From Stdlib Require Import ZArith Ascii String List Lia Bool.
From Stdlib Require Import SpecFloat.
From stdpp Require Import base option gmap strings list.

Local Open Scope string_scope.

(* ===================================================================== *)
(** * JavaScript values *)
(* ===================================================================== *)

(** ** Numbers: binary64 *)

Module Number.

Definition prec : Z := 53.
Definition emax : Z := 1024.

Abbreviation number := spec_float.

Definition NaN : number := S754_nan.

Definition mul (x y : number) : number := SFmul prec emax x y.

Definition of_pos (n : positive) : number := binary_normalize prec emax (Zpos n) 0 false.

(** The numeric literal written [n/d] in decimal ([0.75] is [lit 75 100]):
    the binary64 value nearest to the rational, ties to even, which is
    what a correctly rounded division of the two exact integers gives. *)
Definition lit (n d : positive) : number := SFdiv prec emax (of_pos n) (of_pos d).

Definition isNaN (x : number) : bool :=
  match x with S754_nan => true | _ => false end.

Definition ltb (x y : number) : bool := SFltb x y.
Definition leb (x y : number) : bool := SFleb x y.

(** [Math.max(a, b)] and [Math.min(a, b)]: NaN when either argument is
    NaN; [+0] is larger than [-0]. *)
Definition Math_max (a b : number) : number :=
  match SFcompare a b with
  | None => NaN
  | Some Lt => b
  | Some Gt => a
  | Some Eq =>
      match a, b with
      | S754_zero sa, S754_zero sb => S754_zero (sa && sb)
      | _, _ => a
      end
  end.

Definition Math_min (a b : number) : number :=
  match SFcompare a b with
  | None => NaN
  | Some Lt => a
  | Some Gt => b
  | Some Eq =>
      match a, b with
      | S754_zero sa, S754_zero sb => S754_zero (sa || sb)
      | _, _ => a
      end
  end.

(** ToBoolean on a number: [0], [-0] and NaN are falsy. *)
Definition truthy (x : number) : bool :=
  match x with
  | S754_zero _ | S754_nan => false
  | _ => true
  end.

End Number.

Abbreviation number := spec_float.

(** ** Values read out of an object literal

    [obj[key]] on an object literal finds the literal's own property, and
    otherwise walks to [Object.prototype]: [obj["constructor"]] is the
    [Object] function, [obj["toString"]] a method, and so on.  Such an
    inherited member is a function or an object: truthy, and NaN as a
    number. *)

Inductive JsValue :=
| JsUndefined
| JsNum (x : number)
| JsStr (s : string)
| JsInherited (name : string).

Definition objectPrototypeNames : list string :=
  [ "constructor"; "__defineGetter__"; "__defineSetter__"; "hasOwnProperty";
    "__lookupGetter__"; "__lookupSetter__"; "isPrototypeOf";
    "propertyIsEnumerable"; "toString"; "valueOf"; "__proto__";
    "toLocaleString" ].

Definition inheritedName (key : string) : bool :=
  bool_decide (key ∈ objectPrototypeNames).

Fixpoint ownProperty (literal : list (string * JsValue)) (key : string) : option JsValue :=
  match literal with
  | [] => None
  | (k, v) :: rest => if String.eqb k key then Some v else ownProperty rest key
  end.

(** [literal[key]] *)
Definition objGet (literal : list (string * JsValue)) (key : string) : JsValue :=
  match ownProperty literal key with
  | Some v => v
  | None => if inheritedName key then JsInherited key else JsUndefined
  end.

(** ToBoolean *)
Definition toBoolean (v : JsValue) : bool :=
  match v with
  | JsUndefined => false
  | JsNum x => Number.truthy x
  | JsStr s => negb (String.eqb s "")
  | JsInherited _ => true
  end.

(** ToNumber, on the values that occur as operands of [*] here. *)
Definition toNumber (v : JsValue) : number :=
  match v with
  | JsNum x => x
  | _ => Number.NaN
  end.

(** [a || b] *)
Definition jsOr (a b : JsValue) : JsValue := if toBoolean a then a else b.

(** ** Optional strings: [string | undefined | null]

    An absent, null or empty string is falsy. *)

Definition truthyStr (o : option string) : bool :=
  match o with
  | Some s => negb (String.eqb s "")
  | None => false
  end.

(** [a || b] on optional strings *)
Definition orStr (a b : option string) : option string :=
  if truthyStr a then a else b.

(** ** String operations of the source *)

Definition codeOf (c : ascii) : nat := nat_of_ascii c.

(** [\s] of a regular expression and the characters [trim()] removes:
    TAB, LF, VT, FF, CR, SPACE and NBSP (the others lie above 255). *)
Definition isWhiteSpace (c : ascii) : bool :=
  let n := codeOf c in
  (Nat.eqb n 9 || Nat.eqb n 10 || Nat.eqb n 11 || Nat.eqb n 12
   || Nat.eqb n 13 || Nat.eqb n 32 || Nat.eqb n 160)%bool.

(** The characters [.] does not match: LF and CR. *)
Definition isLineTerminator (c : ascii) : bool :=
  let n := codeOf c in (Nat.eqb n 10 || Nat.eqb n 13)%bool.

(** [s.replace(/c/g, by)] for a single literal character [c]. *)
Fixpoint replaceChar (c : ascii) (by_ : string) (s : string) : string :=
  match s with
  | EmptyString => EmptyString
  | String x rest =>
      if Ascii.eqb x c then by_ ++ replaceChar c by_ rest
      else String x (replaceChar c by_ rest)
  end.

(** [s.replace(/\o.*?\c/g, '')] for an opening character [o] and a
    closing character [c]: scanning left to right, a match starts at an
    [o] and ends at the first [c] after it, provided no line terminator
    comes in between.  [pending] holds the text read since a candidate
    [o]; it is dropped when the [c] arrives and written out when a line
    terminator or the end of the string arrives first (no later start
    inside it can match either, since it would have to cross the same
    line terminator). *)
Fixpoint removeDelimitedFrom (o c : ascii) (pending : option string) (s : string) : string :=
  match s with
  | EmptyString => match pending with Some p => p | None => EmptyString end
  | String x rest =>
      match pending with
      | None =>
          if Ascii.eqb x o then removeDelimitedFrom o c (Some (String x EmptyString)) rest
          else String x (removeDelimitedFrom o c None rest)
      | Some p =>
          if Ascii.eqb x c then removeDelimitedFrom o c None rest
          else if isLineTerminator x then (p ++ String x EmptyString) ++ removeDelimitedFrom o c None rest
          else removeDelimitedFrom o c (Some (p ++ String x EmptyString)) rest
      end
  end.

Definition removeDelimited (o c : ascii) (s : string) : string :=
  removeDelimitedFrom o c None s.

(** [s.replace(/\s+/g, ' ')]; [inRun] tells that the previous character
    was white space, already replaced. *)
Fixpoint collapseWhiteSpaceFrom (inRun : bool) (s : string) : string :=
  match s with
  | EmptyString => EmptyString
  | String x rest =>
      if isWhiteSpace x then
        if inRun then collapseWhiteSpaceFrom true rest
        else String " " (collapseWhiteSpaceFrom true rest)
      else String x (collapseWhiteSpaceFrom false rest)
  end.

Definition collapseWhiteSpace (s : string) : string := collapseWhiteSpaceFrom false s.

Fixpoint trimStart (s : string) : string :=
  match s with
  | String x rest => if isWhiteSpace x then trimStart rest else s
  | EmptyString => EmptyString
  end.

Fixpoint trimEnd (s : string) : string :=
  match s with
  | EmptyString => EmptyString
  | String x rest =>
      match trimEnd rest with
      | EmptyString => if isWhiteSpace x then EmptyString else String x EmptyString
      | rest' => String x rest'
      end
  end.

(** [s.trim()] *)
Definition trim (s : string) : string := trimEnd (trimStart s).

(** [Math.floor(s.length / 15)] *)
Definition estimateDuration (s : string) : Z := Z.of_nat (String.length s) / 15.

(* ===================================================================== *)
(** * Data model *)
(* ===================================================================== *)

(** [{ audioUrl: string; duration: number }] *)
Record GenerationResult := { audioUrl : string; duration : Z }.

(** [new Error(message)] *)
Record JsError := { message : string }.

(** What a call comes to: a value, or a thrown error (a rejected promise). *)
Inductive Completion (A : Type) :=
| Normal (a : A)
| Abrupt (e : JsError).
Arguments Normal {A} a.
Arguments Abrupt {A} e.

Inductive Vendor := OpenAI | Groq | ElevenLabs | MyShell | Bark | Typecast.

(** Modelled from the spec: the user record of the storage collaborator
    (its schema is not under src/), as far as the manager reads it: the
    preferred service and one API key per vendor, each possibly absent. *)
Record User := {
  preferredTtsService : option string;
  openaiApiKey : option string;
  groqApiKey : option string;
  elevenlabsApiKey : option string;
  myshellApiKey : option string
}.

(** [TTSGenerationOptions] *)
Record TTSGenerationOptions := {
  characterId : string;
  characterName : option string;
  gender : option string;
  voiceStyle : option string;
  speedMultiplier : option number
}.

(** The third argument of a client's [generateTTS]:
    [{ voiceStyle, characterName, gender, speedMultiplier }]. *)
Record SynthesisOptions := {
  optVoiceStyle : option string;
  optCharacterName : option string;
  optGender : option string;
  optSpeedMultiplier : option number
}.

(** [{}] *)
Definition noOptions : SynthesisOptions :=
  {| optVoiceStyle := None; optCharacterName := None; optGender := None;
     optSpeedMultiplier := None |}.

(** A provider client object.  [instRef] is its identity: two instances
    are the same object exactly when their [instRef] agree. *)
Record Instance := {
  instRef : nat;
  instVendor : Vendor;
  instApiKey : string;
  instVoiceCloning : bool
}.

(** The request handed to [groq.audio.speech.create]. *)
Record GroqRequest := {
  model : string;
  voice : JsValue;
  input : string;
  response_format : string;
  speed : option number
}.

(** Calls that left the process, in the order they were made, each with
    what came back. *)
Inductive Event :=
| Synthesis (v : Vendor) (inst : option Instance) (text character : string)
            (opts : SynthesisOptions) (outcome : Completion GenerationResult)
| ConnectionTest (v : Vendor) (inst : Instance) (outcome : Completion bool).

(** Console output of the manager, one constructor per kind of line.
    The console lines of the Groq client itself are left out. *)
Inductive Phase := Override | Preferred | System.

Inductive Diagnostic :=
| LogGenerating (userId character : string)
| LogPrefers (userId preferredService : string)
| LogUsing (p : Phase) (v : Vendor) (usersKey : bool)
| LogNoKey (p : Phase) (v : Vendor)
| LogFailed (p : Phase) (v : Vendor) (msg : string)
| LogFallingBack
| LogSystemStart
| LogSilentMode
| LogAllFailed (userId : string) (e : JsError)
| LogKeyTestFailed (service : string) (e : JsError)
| LogCleared.

(** Modelled from the spec: what lies outside the process.  The storage
    collaborator ([getUser(userId) -> User | absent]), the process-wide
    configuration and the OpenAI, ElevenLabs, MyShell, Bark and Typecast
    clients are not under src/; a client call either throws or returns a
    result.  The replies are indexed by the number of outside calls made
    before, so that the same request may be answered differently the
    second time. *)
Record World := {
  getUser : string -> option User;
  env : gmap string string;
  synthesize : nat -> Vendor -> option Instance -> string -> string ->
               SynthesisOptions -> Completion GenerationResult;
  testConnectionReply : nat -> Vendor -> Instance -> Completion bool;
  (** [groq.audio.speech.create], reading the response and writing the
      file: the base64 text of the audio buffer, or an error *)
  groqSpeechCreate : nat -> Instance -> GroqRequest -> Completion string;
  (** [Math.random()], as the index it selects *)
  randomDraw : nat -> nat
}.

(** The part of the process state that every component shares. *)
Record Runtime := {
  nextRef : nat;
  trace : list Event;
  console : list Diagnostic
}.

(* ===================================================================== *)
(** * Effects: state and exceptions *)
(* ===================================================================== *)

(** A computation over the fields [C] of a manager object and the shared
    runtime; state changes made before a throw stay. *)
Definition M (C A : Type) : Type := C * Runtime -> Completion A * (C * Runtime).

Section Effects.
Context {C : Type}.

Definition ret {A} (a : A) : M C A := fun s => (Normal a, s).

Definition bind {A B} (m : M C A) (k : A -> M C B) : M C B :=
  fun s =>
    match m s with
    | (Normal a, s') => k a s'
    | (Abrupt e, s') => (Abrupt e, s')
    end.

(** [throw e] *)
Definition throw {A} (e : JsError) : M C A := fun s => (Abrupt e, s).

(** [try { m } catch (error) { h error }] *)
Definition tryCatch {A} (m : M C A) (h : JsError -> M C A) : M C A :=
  fun s =>
    match m s with
    | (Normal a, s') => (Normal a, s')
    | (Abrupt e, s') => h e s'
    end.

Definition getFields : M C C := fun s => (Normal (fst s), s).

Definition putFields (c : C) : M C unit := fun s => (Normal tt, (c, snd s)).

Definition getRuntime : M C Runtime := fun s => (Normal (snd s), s).

(** [console.log] / [console.error] *)
Definition logD (d : Diagnostic) : M C unit :=
  fun s =>
    let rt := snd s in
    (Normal tt,
     (fst s, {| nextRef := nextRef rt; trace := trace rt;
                console := console rt ++ [d] |})).

Definition record (ev : Event) : M C unit :=
  fun s =>
    let rt := snd s in
    (Normal tt,
     (fst s, {| nextRef := nextRef rt; trace := trace rt ++ [ev];
                console := console rt |})).

(** [new Service(...)]: a fresh object *)
Definition newInstance (v : Vendor) (apiKey : string) (voiceCloning : bool) : M C Instance :=
  fun s =>
    let rt := snd s in
    (Normal {| instRef := nextRef rt; instVendor := v; instApiKey := apiKey;
               instVoiceCloning := voiceCloning |},
     (fst s, {| nextRef := S (nextRef rt); trace := trace rt;
                console := console rt |})).

(** Turning the completion of a call back into control flow. *)
Definition complete {A} (o : Completion A) : M C A :=
  match o with
  | Normal a => ret a
  | Abrupt e => throw e
  end.

(** A block of a function body that may [return]: [Some r] when it
    returned [r], [None] when control falls out of its end. *)
Definition orElse {A} (b1 b2 : M C (option A)) : M C (option A) :=
  bind b1 (fun r => match r with Some v => ret (Some v) | None => b2 end).

Definition orFinally {A} (b : M C (option A)) (k : M C A) : M C A :=
  bind b (fun r => match r with Some v => ret v | None => k end).

End Effects.

#[global] Instance M_ret {C} : MRet (M C) := fun A a => ret a.
#[global] Instance M_bind {C} : MBind (M C) := fun A B k m => bind m k.

Declare Scope js_scope.
Delimit Scope js_scope with js.
Infix "<|>" := orElse (at level 50, left associativity) : js_scope.
Infix "<||>" := orFinally (at level 65, right associativity) : js_scope.
Local Open Scope js_scope.

(** The falsy strings count as absent. *)
Definition truthyKey (o : option string) : option string :=
  match o with
  | Some s => if String.eqb s "" then None else Some s
  | None => None
  end.

(* ===================================================================== *)
(** * The Groq provider client (class [GroqTTSService]) *)
(* ===================================================================== *)

Module GroqTTSService.

Definition maleVoices : list string :=
  [ "Fritz-PlayAI"; "Thunder-PlayAI"; "Basil-PlayAI"; "Cillian-PlayAI";
    "Calum-PlayAI" ].

Definition femaleVoices : list string :=
  [ "Celeste-PlayAI"; "Cheyenne-PlayAI"; "Gail-PlayAI"; "Indigo-PlayAI";
    "Deedee-PlayAI" ].

Definition voiceMap : list (string * JsValue) :=
  [ ("razor", JsStr "Cheyenne-PlayAI");
    ("venom", JsStr "Thunder-PlayAI");
    ("silk", JsStr "Basil-PlayAI");
    ("cypher", JsStr "Fritz-PlayAI") ].

(** [getVoiceForCharacter(characterId, gender = 'male')]; [draw] is the
    value of [Math.random()] as an index. *)
Definition getVoiceForCharacter (draw : nat) (characterId : string)
    (gender : option string) : JsValue :=
  if toBoolean (objGet voiceMap characterId) then objGet voiceMap characterId
  else
    let voices :=
      if bool_decide (gender = Some "female") then femaleVoices else maleVoices in
    JsStr (nth (draw mod length voices) voices "").

Definition applyRobotVoiceEffects (text characterId : string) : string :=
  if String.eqb characterId "cypher" then
    let robotText := text in
    let robotText := replaceChar "." ". [pause]" robotText in
    let robotText := replaceChar "!" ". [emphasis]" robotText in
    let robotText := replaceChar "?" ". [query]" robotText in
    let robotText := "[processing] " ++ robotText ++ " [systems_online]" in
    robotText
  else text.

(** The text sent for synthesis ([cleanText] in [generateTTS]). *)
Definition cleanText (text characterId : string) : string :=
  let processedText := applyRobotVoiceEffects text characterId in
  if String.eqb characterId "cypher" then
    trim (collapseWhiteSpace (removeDelimited "*" "*" processedText))
  else
    trim (collapseWhiteSpace
            (removeDelimited "*" "*" (removeDelimited "[" "]" processedText))).

Definition characterSpeeds : list (string * JsValue) :=
  [ ("cypher", JsNum (Number.lit 75 100));
    ("venom", JsNum (Number.lit 9 10));
    ("razor", JsNum (Number.lit 11 10));
    ("silk", JsNum (Number.lit 1 1)) ].

Definition styleModifiers : list (string * JsValue) :=
  [ ("aggressive", JsNum (Number.lit 12 10));
    ("confident", JsNum (Number.lit 1 1));
    ("smooth", JsNum (Number.lit 95 100));
    ("intense", JsNum (Number.lit 115 100));
    ("playful", JsNum (Number.lit 11 10)) ].

(** [calculateDynamicSpeed(characterId, voiceStyle?, speedMultiplier = 1.0)] *)
Definition calculateDynamicSpeed (characterId : string) (voiceStyle : option string)
    (speedMultiplier : option number) : number :=
  let speedMultiplier := default (Number.lit 1 1) speedMultiplier in
  let baseSpeed := jsOr (objGet characterSpeeds characterId) (JsNum (Number.lit 1 1)) in
  let styleModifier :=
    jsOr (objGet styleModifiers (default "confident" (truthyKey voiceStyle)))
         (JsNum (Number.lit 1 1)) in
  let finalSpeed :=
    Number.mul (Number.mul (toNumber baseSpeed) (toNumber styleModifier))
               speedMultiplier in
  Number.Math_max (Number.lit 5 10) (Number.Math_min (Number.lit 2 1) finalSpeed).

Section Client.
Context {C : Type} (w : World).

(** [generateTTS(text, characterId, options = {})] *)
Definition generateTTS (this : Instance) (text characterId : string)
    (options : SynthesisOptions) : M C GenerationResult :=
  tryCatch
    (rt ← getRuntime;
     let voice :=
       getVoiceForCharacter (randomDraw w (length (trace rt))) characterId
                            (optGender options) in
     let cleanText := cleanText text characterId in
     let ttsOptions :=
       {| model := "playai-tts";
          voice := voice;
          input := cleanText;
          response_format := "wav";
          speed := Some (calculateDynamicSpeed characterId (optVoiceStyle options)
                                               (optSpeedMultiplier options)) |} in
     base64Audio ← complete (groqSpeechCreate w (length (trace rt)) this ttsOptions);
     let audioUrl := "data:audio/wav;base64," ++ base64Audio in
     let duration := estimateDuration cleanText in
     ret {| audioUrl := audioUrl; duration := duration |})
    (fun error =>
       throw {| message := "Groq TTS generation failed: " ++ message error |}).

(** [testConnection()]; the buffer is empty exactly when its base64
    text is. *)
Definition testConnection (this : Instance) : M C bool :=
  tryCatch
    (rt ← getRuntime;
     base64Audio ← complete
       (groqSpeechCreate w (length (trace rt)) this
          {| model := "playai-tts"; voice := JsStr "Fritz-PlayAI";
             input := "Test connection"; response_format := "wav";
             speed := None |});
     ret (negb (String.eqb base64Audio "")))
    (fun error => ret false).

End Client.

End GroqTTSService.

(** The factory functions of the client modules: each call builds a new
    client object ([createGroqTTS] is [new GroqTTSService({ apiKey })]; the
    other three modules are not under src/). *)
Definition createOpenAITTS {C} (apiKey : string) : M C Instance :=
  newInstance OpenAI apiKey false.
Definition createGroqTTS {C} (apiKey : string) : M C Instance :=
  newInstance Groq apiKey false.
Definition createElevenLabsTTS {C} (apiKey : string) : M C Instance :=
  newInstance ElevenLabs apiKey false.
Definition createMyShellTTS {C} (apiKey : string) (voiceCloning : bool) : M C Instance :=
  newInstance MyShell apiKey voiceCloning.

Section Clients.
Context {C : Type} (w : World).

(** [instance.generateTTS(text, characterId, options)] on a client of
    vendor [v] ([inst] is absent for the module-level Bark and Typecast
    services); the call and its outcome go on the trace. *)
Definition clientGenerateTTS (v : Vendor) (inst : option Instance)
    (text characterId : string) (options : SynthesisOptions) : M C GenerationResult :=
  fun s =>
    let '(out, s') :=
      match v, inst with
      | Groq, Some this => GroqTTSService.generateTTS w this text characterId options s
      | _, _ => (synthesize w (length (trace (snd s))) v inst text characterId options, s)
      end in
    (record (Synthesis v inst text characterId options out) ;; complete out) s'.

(** [instance.testConnection()] *)
Definition clientTestConnection (v : Vendor) (inst : Instance) : M C bool :=
  fun s =>
    let '(out, s') :=
      match v with
      | Groq => GroqTTSService.testConnection w inst s
      | _ => (testConnectionReply w (length (trace (snd s))) v inst, s)
      end in
    (record (ConnectionTest v inst out) ;; complete out) s'.

(** [map.get(key)!] *)
Definition nonNull {A} (o : option A) : M C A :=
  match o with
  | Some a => ret a
  | None => throw {| message := "Cannot read properties of undefined" |}
  end.

End Clients.

Definition synthesisOptions (options : TTSGenerationOptions) : SynthesisOptions :=
  {| optVoiceStyle := voiceStyle options;
     optCharacterName := characterName options;
     optGender := gender options;
     optSpeedMultiplier := speedMultiplier options |}.

(** [{ audioUrl: "", duration: Math.floor(text.length / 15) }] *)
Definition emptyAudio (text : string) : GenerationResult :=
  {| audioUrl := ""; duration := estimateDuration text |}.

(* ===================================================================== *)
(** * The selection engine (class [UserTTSManager], src/unnamed/part_000) *)
(* ===================================================================== *)

Module UserTTSManager.

(** The four instance caches, [Map<string, Service>] each. *)
Record Fields := {
  openaiInstances : gmap string Instance;
  groqInstances : gmap string Instance;
  elevenlabsInstances : gmap string Instance;
  myshellInstances : gmap string Instance
}.

Definition setOpenai (m : gmap string Instance) (c : Fields) : Fields :=
  {| openaiInstances := m; groqInstances := groqInstances c;
     elevenlabsInstances := elevenlabsInstances c;
     myshellInstances := myshellInstances c |}.
Definition setGroq (m : gmap string Instance) (c : Fields) : Fields :=
  {| openaiInstances := openaiInstances c; groqInstances := m;
     elevenlabsInstances := elevenlabsInstances c;
     myshellInstances := myshellInstances c |}.
Definition setElevenlabs (m : gmap string Instance) (c : Fields) : Fields :=
  {| openaiInstances := openaiInstances c; groqInstances := groqInstances c;
     elevenlabsInstances := m;
     myshellInstances := myshellInstances c |}.
Definition setMyshell (m : gmap string Instance) (c : Fields) : Fields :=
  {| openaiInstances := openaiInstances c; groqInstances := groqInstances c;
     elevenlabsInstances := elevenlabsInstances c;
     myshellInstances := m |}.

(** [new UserTTSManager()] *)
Definition newManager : Fields :=
  {| openaiInstances := ∅; groqInstances := ∅; elevenlabsInstances := ∅;
     myshellInstances := ∅ |}.

(** [map.has(key)] *)
Definition has (m : gmap string Instance) (key : string) : bool :=
  bool_decide (is_Some (m !! key)).

(** The template string [`${apiKey}_${voiceCloning}`]. *)
Definition myshellKey (apiKey : string) (voiceCloning : bool) : string :=
  apiKey ++ "_" ++ (if voiceCloning then "true" else "false").

Section Manager.
Context (w : World).

Definition getOpenAIInstance (apiKey : string) : M Fields Instance :=
  this ← getFields;
  (if negb (has (openaiInstances this) apiKey) then
     inst ← createOpenAITTS apiKey;
     this ← getFields;
     putFields (setOpenai (<[apiKey := inst]> (openaiInstances this)) this)
   else ret tt);;
  this ← getFields;
  nonNull (openaiInstances this !! apiKey).

Definition getGroqInstance (apiKey : string) : M Fields Instance :=
  this ← getFields;
  (if negb (has (groqInstances this) apiKey) then
     inst ← createGroqTTS apiKey;
     this ← getFields;
     putFields (setGroq (<[apiKey := inst]> (groqInstances this)) this)
   else ret tt);;
  this ← getFields;
  nonNull (groqInstances this !! apiKey).

Definition getElevenLabsInstance (apiKey : string) : M Fields Instance :=
  this ← getFields;
  (if negb (has (elevenlabsInstances this) apiKey) then
     inst ← createElevenLabsTTS apiKey;
     this ← getFields;
     putFields (setElevenlabs (<[apiKey := inst]> (elevenlabsInstances this)) this)
   else ret tt);;
  this ← getFields;
  nonNull (elevenlabsInstances this !! apiKey).

Definition getMyShellInstance (apiKey : string) (voiceCloning : bool) : M Fields Instance :=
  let key := myshellKey apiKey voiceCloning in
  this ← getFields;
  (if negb (has (myshellInstances this) key) then
     inst ← createMyShellTTS apiKey voiceCloning;
     this ← getFields;
     putFields (setMyshell (<[key := inst]> (myshellInstances this)) this)
   else ret tt);;
  this ← getFields;
  nonNull (myshellInstances this !! key).

(** The blocks of [generateTTS], in source order.  Each is a
    [try]/[catch] around one vendor attempt; it yields [Some r] when
    the function returns [r] from inside it and [None] when control
    leaves it by its end. *)

(** Lines 67-86: "FORCE CYPHER-9000 to use Groq for robotic voice". *)
Definition forceCypherGroq (user : User) (text : string)
    (options : TTSGenerationOptions) : M Fields (option GenerationResult) :=
  if String.eqb (characterId options) "cypher" then
    tryCatch
      (match truthyKey (orStr (groqApiKey user) (env w !! "GROQ_API_KEY")) with
       | Some apiKey =>
           logD (LogUsing Override Groq (truthyStr (groqApiKey user)));;
           groqInstance ← getGroqInstance apiKey;
           r ← clientGenerateTTS w Groq (Some groqInstance) text (characterId options)
                                 (synthesisOptions options);
           ret (Some r)
       | None => logD (LogNoKey Override Groq);; ret None
       end)
      (fun error => logD (LogFailed Override Groq (message error));; ret None)
  else ret None.

(** Lines 89-108: [preferredService === 'myshell']. *)
Definition preferredMyShell (user : User) (preferredService text : string)
    (options : TTSGenerationOptions) : M Fields (option GenerationResult) :=
  if String.eqb preferredService "myshell" then
    tryCatch
      (match truthyKey (orStr (myshellApiKey user) (env w !! "MYSHELL_API_KEY")) with
       | Some apiKey =>
           logD (LogUsing Preferred MyShell (truthyStr (myshellApiKey user)));;
           myshellInstance ← getMyShellInstance apiKey true;
           r ← clientGenerateTTS w MyShell (Some myshellInstance) text
                                 (characterId options) (synthesisOptions options);
           ret (Some r)
       | None => logD (LogNoKey Preferred MyShell);; ret None
       end)
      (fun error => logD (LogFailed Preferred MyShell (message error));; ret None)
  else ret None.

(** Lines 110-123: [preferredService === 'openai' && user.openaiApiKey]. *)
Definition preferredOpenAI (user : User) (preferredService text : string)
    (options : TTSGenerationOptions) : M Fields (option GenerationResult) :=
  match String.eqb preferredService "openai", truthyKey (openaiApiKey user) with
  | true, Some userKey =>
      tryCatch
        (logD (LogUsing Preferred OpenAI true);;
         openaiInstance ← getOpenAIInstance userKey;
         r ← clientGenerateTTS w OpenAI (Some openaiInstance) text
                               (characterId options) (synthesisOptions options);
         ret (Some r))
        (fun error => logD (LogFailed Preferred OpenAI (message error));; ret None)
  | _, _ => ret None
  end.

(** Lines 125-144: [preferredService === 'groq']. *)
Definition preferredGroq (user : User) (preferredService text : string)
    (options : TTSGenerationOptions) : M Fields (option GenerationResult) :=
  if String.eqb preferredService "groq" then
    tryCatch
      (match truthyKey (orStr (groqApiKey user) (env w !! "GROQ_API_KEY")) with
       | Some apiKey =>
           logD (LogUsing Preferred Groq (truthyStr (groqApiKey user)));;
           groqInstance ← getGroqInstance apiKey;
           r ← clientGenerateTTS w Groq (Some groqInstance) text (characterId options)
                                 (synthesisOptions options);
           ret (Some r)
       | None => logD (LogNoKey Preferred Groq);; ret None
       end)
      (fun error => logD (LogFailed Preferred Groq (message error));; ret None)
  else ret None.

(** Lines 146-166: [preferredService === 'elevenlabs']. *)
Definition preferredElevenLabs (user : User) (preferredService text : string)
    (options : TTSGenerationOptions) : M Fields (option GenerationResult) :=
  if String.eqb preferredService "elevenlabs" then
    tryCatch
      (match truthyKey (orStr (elevenlabsApiKey user) (env w !! "ELEVENLABS_API_KEY")) with
       | Some apiKey =>
           logD (LogUsing Preferred ElevenLabs (truthyStr (elevenlabsApiKey user)));;
           elevenlabsInstance ← getElevenLabsInstance apiKey;
           r ← clientGenerateTTS w ElevenLabs (Some elevenlabsInstance) text
                                 (characterId options) (synthesisOptions options);
           ret (Some r)
       | None => logD (LogNoKey Preferred ElevenLabs);; ret None
       end)
      (fun error => logD (LogFailed Preferred ElevenLabs (message error));; ret None)
  else ret None.

(** The four preference branches, lines 88-166. *)
Definition preferencePhase (user : User) (preferredService text : string)
    (options : TTSGenerationOptions) : M Fields (option GenerationResult) :=
  preferredMyShell user preferredService text options
  <|> preferredOpenAI user preferredService text options
  <|> preferredGroq user preferredService text options
  <|> preferredElevenLabs user preferredService text options.

(** The blocks of [useSystemTTS]. *)
Definition systemMyShell (text : string) (options : TTSGenerationOptions)
    : M Fields (option GenerationResult) :=
  match truthyKey (env w !! "MYSHELL_API_KEY") with
  | Some systemKey =>
      tryCatch
        (logD (LogUsing System MyShell false);;
         myshellInstance ← getMyShellInstance systemKey true;
         r ← clientGenerateTTS w MyShell (Some myshellInstance) text
                               (characterId options) (synthesisOptions options);
         ret (Some r))
        (fun error => logD (LogFailed System MyShell (message error));; ret None)
  | None => ret None
  end.

Definition systemElevenLabs (text : string) (options : TTSGenerationOptions)
    : M Fields (option GenerationResult) :=
  match truthyKey (env w !! "ELEVENLABS_API_KEY") with
  | Some systemKey =>
      tryCatch
        (logD (LogUsing System ElevenLabs false);;
         elevenlabsInstance ← getElevenLabsInstance systemKey;
         r ← clientGenerateTTS w ElevenLabs (Some elevenlabsInstance) text
                               (characterId options) (synthesisOptions options);
         ret (Some r))
        (fun error => logD (LogFailed System ElevenLabs (message error));; ret None)
  | None => ret None
  end.

Definition systemGroq (text : string) (options : TTSGenerationOptions)
    : M Fields (option GenerationResult) :=
  match truthyKey (env w !! "GROQ_API_KEY") with
  | Some systemKey =>
      tryCatch
        (logD (LogUsing System Groq false);;
         groqInstance ← getGroqInstance systemKey;
         r ← clientGenerateTTS w Groq (Some groqInstance) text (characterId options)
                               (synthesisOptions options);
         ret (Some r))
        (fun error => logD (LogFailed System Groq (message error));; ret None)
  | None => ret None
  end.

Definition systemOpenAI (text : string) (options : TTSGenerationOptions)
    : M Fields (option GenerationResult) :=
  match truthyKey (env w !! "OPENAI_API_KEY") with
  | Some systemKey =>
      tryCatch
        (logD (LogUsing System OpenAI false);;
         openaiInstance ← getOpenAIInstance systemKey;
         r ← clientGenerateTTS w OpenAI (Some openaiInstance) text
                               (characterId options) (synthesisOptions options);
         ret (Some r))
        (fun error => logD (LogFailed System OpenAI (message error));; ret None)
  | None => ret None
  end.

(** [useSystemTTS(text, options)], lines 183-259. *)
Definition useSystemTTS (text : string) (options : TTSGenerationOptions)
    : M Fields GenerationResult :=
  logD LogSystemStart;;
  (systemMyShell text options
   <|> systemElevenLabs text options
   <|> systemGroq text options
   <|> systemOpenAI text options)
  <||> (logD LogSilentMode;; ret (emptyAudio text)).

(** [generateTTS(text, userId, options)], lines 50-181. *)
Definition generateTTS (text userId : string) (options : TTSGenerationOptions)
    : M Fields GenerationResult :=
  logD (LogGenerating userId (characterId options));;
  tryCatch
    (match getUser w userId with
     | None => throw {| message := "User not found" |}
     | Some user =>
         let preferredService :=
           default "myshell" (truthyKey (preferredTtsService user)) in
         logD (LogPrefers userId preferredService);;
         (forceCypherGroq user text options
          <|> preferencePhase user preferredService text options)
         <||> (logD LogFallingBack;; useSystemTTS text options)
     end)
    (fun error =>
       logD (LogAllFailed userId error);;
       ret (emptyAudio text)).

(** [testUserAPIKey(userId, service)], lines 262-293. *)
Definition testUserAPIKey (userId service : string) : M Fields bool :=
  match getUser w userId with
  | None => ret false
  | Some user =>
      tryCatch
        (match String.eqb service "openai", truthyKey (openaiApiKey user) with
         | true, Some userKey =>
             instance ← getOpenAIInstance userKey;
             result ← clientGenerateTTS w OpenAI (Some instance) "Test" "test" noOptions;
             ret (0 <? String.length (audioUrl result))%nat
         | _, _ =>
         match String.eqb service "groq", truthyKey (groqApiKey user) with
         | true, Some userKey =>
             instance ← getGroqInstance userKey;
             clientTestConnection w Groq instance
         | _, _ =>
         match String.eqb service "elevenlabs", truthyKey (elevenlabsApiKey user) with
         | true, Some userKey =>
             instance ← getElevenLabsInstance userKey;
             clientTestConnection w ElevenLabs instance
         | _, _ =>
         match String.eqb service "myshell", truthyKey (myshellApiKey user) with
         | true, Some userKey =>
             instance ← getMyShellInstance userKey true;
             clientTestConnection w MyShell instance
         | _, _ => ret false
         end end end end)
        (fun error => logD (LogKeyTestFailed service error);; ret false)
  end.

(** [clearUserInstances(userId)], lines 296-304. *)
Definition clearUserInstances (userId : string) : M Fields unit :=
  this ← getFields; putFields (setOpenai ∅ this);;
  this ← getFields; putFields (setGroq ∅ this);;
  this ← getFields; putFields (setElevenlabs ∅ this);;
  this ← getFields; putFields (setMyshell ∅ this);;
  logD LogCleared.

End Manager.

End UserTTSManager.

(* ===================================================================== *)
(** * The earlier variant (src/server/services/user-tts-manager.ts) *)
(* ===================================================================== *)

Module UserTTSManagerEarly.

Record Fields := {
  openaiInstances : gmap string Instance;
  groqInstances : gmap string Instance
}.

Definition newManager : Fields :=
  {| openaiInstances := ∅; groqInstances := ∅ |}.

Definition has (m : gmap string Instance) (key : string) : bool :=
  bool_decide (is_Some (m !! key)).

Section Manager.
Context (w : World).

Definition getOpenAIInstance (apiKey : string) : M Fields Instance :=
  this ← getFields;
  (if negb (has (openaiInstances this) apiKey) then
     inst ← createOpenAITTS apiKey;
     this ← getFields;
     putFields {| openaiInstances := <[apiKey := inst]> (openaiInstances this);
                  groqInstances := groqInstances this |}
   else ret tt);;
  this ← getFields;
  nonNull (openaiInstances this !! apiKey).

Definition getGroqInstance (apiKey : string) : M Fields Instance :=
  this ← getFields;
  (if negb (has (groqInstances this) apiKey) then
     inst ← createGroqTTS apiKey;
     this ← getFields;
     putFields {| openaiInstances := openaiInstances this;
                  groqInstances := <[apiKey := inst]> (groqInstances this) |}
   else ret tt);;
  this ← getFields;
  nonNull (groqInstances this !! apiKey).

(** The options object of this variant has no [speedMultiplier]. *)
Definition synthesisOptionsEarly (options : TTSGenerationOptions) : SynthesisOptions :=
  {| optVoiceStyle := voiceStyle options;
     optCharacterName := characterName options;
     optGender := gender options;
     optSpeedMultiplier := None |}.

(** Lines 50-62. *)
Definition preferredOpenAI (user : User) (preferredService text : string)
    (options : TTSGenerationOptions) : M Fields (option GenerationResult) :=
  match String.eqb preferredService "openai", truthyKey (openaiApiKey user) with
  | true, Some userKey =>
      tryCatch
        (logD (LogUsing Preferred OpenAI true);;
         openaiInstance ← getOpenAIInstance userKey;
         r ← clientGenerateTTS w OpenAI (Some openaiInstance) text
                               (characterId options) (synthesisOptionsEarly options);
         ret (Some r))
        (fun error => logD (LogFailed Preferred OpenAI (message error));; ret None)
  | _, _ => ret None
  end.

(** Lines 64-76. *)
Definition preferredGroq (user : User) (preferredService text : string)
    (options : TTSGenerationOptions) : M Fields (option GenerationResult) :=
  match String.eqb preferredService "groq", truthyKey (groqApiKey user) with
  | true, Some userKey =>
      tryCatch
        (logD (LogUsing Preferred Groq true);;
         groqInstance ← getGroqInstance userKey;
         r ← clientGenerateTTS w Groq (Some groqInstance) text
                               (characterId options) (synthesisOptionsEarly options);
         ret (Some r))
        (fun error => logD (LogFailed Preferred Groq (message error));; ret None)
  | _, _ => ret None
  end.

(** [useSystemTTS(text, options)], lines 93-119: Bark, then Typecast. *)
Definition useSystemTTS (text : string) (options : TTSGenerationOptions)
    : M Fields GenerationResult :=
  logD LogSystemStart;;
  tryCatch
    (logD (LogUsing System Bark false);;
     clientGenerateTTS w Bark None text (characterId options) noOptions)
    (fun barkError =>
       logD (LogFailed System Bark (message barkError));;
       tryCatch
         (clientGenerateTTS w Typecast None text (characterId options) noOptions)
         (fun typecastError =>
            logD (LogFailed System Typecast (message typecastError));;
            ret (emptyAudio text))).

(** [generateTTS(text, userId, options)], lines 32-91. *)
Definition generateTTS (text userId : string) (options : TTSGenerationOptions)
    : M Fields GenerationResult :=
  logD (LogGenerating userId (characterId options));;
  tryCatch
    (match getUser w userId with
     | None => throw {| message := "User not found" |}
     | Some user =>
         let preferredService :=
           default "system" (truthyKey (preferredTtsService user)) in
         logD (LogPrefers userId preferredService);;
         (preferredOpenAI user preferredService text options
          <|> preferredGroq user preferredService text options)
         <||> (logD LogFallingBack;; useSystemTTS text options)
     end)
    (fun error =>
       logD (LogAllFailed userId error);;
       ret (emptyAudio text)).

(** [testUserAPIKey(userId, service)], lines 122-143. *)
Definition testUserAPIKey (userId service : string) : M Fields bool :=
  match getUser w userId with
  | None => ret false
  | Some user =>
      tryCatch
        (match String.eqb service "openai", truthyKey (openaiApiKey user) with
         | true, Some userKey =>
             instance ← getOpenAIInstance userKey;
             result ← clientGenerateTTS w OpenAI (Some instance) "Test" "test" noOptions;
             ret (0 <? String.length (audioUrl result))%nat
         | _, _ =>
         match String.eqb service "groq", truthyKey (groqApiKey user) with
         | true, Some userKey =>
             instance ← getGroqInstance userKey;
             clientTestConnection w Groq instance
         | _, _ => ret false
         end end)
        (fun error => logD (LogKeyTestFailed service error);; ret false)
  end.

(** [clearUserInstances(userId)], lines 146-152. *)
Definition clearUserInstances (userId : string) : M Fields unit :=
  this ← getFields;
  putFields {| openaiInstances := ∅; groqInstances := groqInstances this |};;
  this ← getFields;
  putFields {| openaiInstances := openaiInstances this; groqInstances := ∅ |};;
  logD LogCleared.

End Manager.

End UserTTSManagerEarly.

(* ===================================================================== *)
(** * Vocabulary of the statements *)
(* ===================================================================== *)

(** ** Runtimes and traces *)


Definition initialRuntime : Runtime :=
  {| nextRef := 0; trace := []; console := [] |}.

(** The runtime after one more console line. *)
Definition logged (rt : Runtime) (ds : list Diagnostic) : Runtime :=
  {| nextRef := nextRef rt; trace := trace rt; console := console rt ++ ds |}.

(** The runtime after one more allocation. *)
Definition allocated (rt : Runtime) : Runtime :=
  {| nextRef := S (nextRef rt); trace := trace rt; console := console rt |}.

(** The runtime after one more call. *)
Definition called (rt : Runtime) (ev : Event) : Runtime :=
  {| nextRef := nextRef rt; trace := (trace rt ++ [ev])%list; console := console rt |}.

(** An event whose call threw. *)
Definition failedEvent (ev : Event) : Prop :=
  match ev with
  | Synthesis _ _ _ _ _ (Abrupt _) => True
  | ConnectionTest _ _ (Abrupt _) => True
  | _ => False
  end.

(** Between [rt] and [rt'] only calls that threw were made. *)
Definition onlyFailures (rt rt' : Runtime) : Prop :=
  ∃ evs : list Event, trace rt' = (trace rt ++ evs)%list ∧ Forall failedEvent evs.

(** Between [rt] and [rt'] the last call made was a synthesis that
    returned [r] (and every call before it threw). *)
Definition deliveredBy (rt rt' : Runtime) (r : GenerationResult) : Prop :=
  ∃ (evs : list Event) v inst text character opts,
    trace rt' = (trace rt ++ evs ++ [Synthesis v inst text character opts (Normal r)])%list
    ∧ Forall failedEvent evs.

(** Every request that leaves the process as the [n]-th outside call
    throws. *)
Definition outsideThrows (w : World) (n : nat) : Prop :=
  (∀ v inst text character opts, ∃ e, synthesize w n v inst text character opts = Abrupt e)
  ∧ (∀ v inst, ∃ e, testConnectionReply w n v inst = Abrupt e)
  ∧ (∀ inst request, ∃ e, groqSpeechCreate w n inst request = Abrupt e).

(** ** Blocks of a function body *)

Section Blocks.
Context {C : Type}.

(** A computation that returns normally and makes no outside call. *)
Definition quiet {A} (m : M C A) : Prop :=
  ∀ c rt, ∃ a c' rt', m (c, rt) = (Normal a, (c', rt')) ∧ trace rt' = trace rt.

(** A block that never throws: it returns what a vendor delivered, or
    falls through after nothing but failed calls. *)
Definition safeBlock (b : M C (option GenerationResult)) : Prop :=
  ∀ c rt, ∃ o c' rt',
    b (c, rt) = (Normal o, (c', rt'))
    ∧ match o with
      | Some r => deliveredBy rt rt' r
      | None => onlyFailures rt rt'
      end.

(** A function body that never throws: it returns what a vendor
    delivered, or the empty audio for [text] after nothing but failed
    calls. *)
Definition alwaysResolves (text : string) (m : M C GenerationResult) : Prop :=
  ∀ c rt, ∃ r c' rt',
    m (c, rt) = (Normal r, (c', rt'))
    ∧ (deliveredBy rt rt' r ∨ (r = emptyAudio text ∧ onlyFailures rt rt')).

(** One vendor attempt inside its own [try]/[catch], the shape every
    block of the two managers has once its key is known. *)
Definition attempt (w : World) (p : Phase) (v : Vendor) (usersKey : bool)
    (getter : M C Instance) (text character : string) (opts : SynthesisOptions)
    : M C (option GenerationResult) :=
  tryCatch
    (logD (LogUsing p v usersKey);;
     inst ← getter;
     r ← clientGenerateTTS w v (Some inst) text character opts;
     ret (Some r))
    (fun error => logD (LogFailed p v (message error));; ret None).

End Blocks.




(** ** The caches of the later manager *)

(** The caches of the later manager, by vendor. *)
Inductive Cache := OpenAICache | GroqCache | ElevenLabsCache | MyShellCache.

#[global] Instance Cache_eq_dec : EqDecision Cache.
Proof. solve_decision. Defined.

Definition cacheVendor (v : Cache) : Vendor :=
  match v with
  | OpenAICache => OpenAI
  | GroqCache => Groq
  | ElevenLabsCache => ElevenLabs
  | MyShellCache => MyShell
  end.

Definition cacheOf (v : Cache) (c : UserTTSManager.Fields) : gmap string Instance :=
  match v with
  | OpenAICache => UserTTSManager.openaiInstances c
  | GroqCache => UserTTSManager.groqInstances c
  | ElevenLabsCache => UserTTSManager.elevenlabsInstances c
  | MyShellCache => UserTTSManager.myshellInstances c
  end.

Definition setCache (v : Cache) (m : gmap string Instance) (c : UserTTSManager.Fields)
    : UserTTSManager.Fields :=
  match v with
  | OpenAICache => UserTTSManager.setOpenai m c
  | GroqCache => UserTTSManager.setGroq m c
  | ElevenLabsCache => UserTTSManager.setElevenlabs m c
  | MyShellCache => UserTTSManager.setMyshell m c
  end.

(** The composite key under which an instance is cached. *)
Definition cacheKey (v : Cache) (apiKey : string) (voiceCloning : bool) : string :=
  match v with
  | MyShellCache => UserTTSManager.myshellKey apiKey voiceCloning
  | _ => apiKey
  end.

(** The instance getter of the spec, over the four getters of the class;
    only the MyShell getter takes the mode flag. *)
Definition getInstance (v : Cache) (apiKey : string) (voiceCloning : bool)
    : M UserTTSManager.Fields Instance :=
  match v with
  | OpenAICache => UserTTSManager.getOpenAIInstance apiKey
  | GroqCache => UserTTSManager.getGroqInstance apiKey
  | ElevenLabsCache => UserTTSManager.getElevenLabsInstance apiKey
  | MyShellCache => UserTTSManager.getMyShellInstance apiKey voiceCloning
  end.

(** What the factory of cache [v] builds at reference [ref]. *)
Definition built (v : Cache) (ref : nat) (apiKey : string) (voiceCloning : bool) : Instance :=
  {| instRef := ref; instVendor := cacheVendor v; instApiKey := apiKey;
     instVoiceCloning := match v with MyShellCache => voiceCloning | _ => false end |}.

(** The cached instance for a key, or the one built for it now. *)
Definition ensured (v : Cache) (apiKey : string) (voiceCloning : bool)
    (c : UserTTSManager.Fields) (rt : Runtime)
    : Instance * (UserTTSManager.Fields * Runtime) :=
  match cacheOf v c !! cacheKey v apiKey voiceCloning with
  | Some i => (i, (c, rt))
  | None =>
      let i := built v (nextRef rt) apiKey voiceCloning in
      (i, (setCache v (<[cacheKey v apiKey voiceCloning := i]> (cacheOf v c)) c,
           allocated rt))
  end.

(** Every cached object was allocated before, and no object sits under
    two keys.  It holds of a new manager, and the getters, through which
    alone the caches are filled, keep it. *)
Definition cachesOK (c : UserTTSManager.Fields) (rt : Runtime) : Prop :=
  (∀ v k i, cacheOf v c !! k = Some i → instRef i < nextRef rt)
  ∧ (∀ v k i v' k' i',
        cacheOf v c !! k = Some i → cacheOf v' c !! k' = Some i' →
        instRef i = instRef i' → v = v' ∧ k = k').

(** What the cache holds is keyed as the getters key it; again true of a
    new manager and kept by the getters. *)
Definition wellKeyed (c : UserTTSManager.Fields) : Prop :=
  ∀ v key i, cacheOf v c !! key = Some i →
    instVendor i = cacheVendor v
    ∧ key = cacheKey v (instApiKey i) (instVoiceCloning i).

(** The invariant of the caches, and what it is for a computation to
    keep it. *)
Definition cacheInvariant (c : UserTTSManager.Fields) (rt : Runtime) : Prop :=
  cachesOK c rt ∧ wellKeyed c.

Definition keeps {A} (m : M UserTTSManager.Fields A) : Prop :=
  ∀ c rt, cacheInvariant c rt →
    cacheInvariant (fst (snd (m (c, rt)))) (snd (snd (m (c, rt)))).

(** ** Credentials *)

(** The user's own key for a vendor named as in [preferredTtsService]. *)
Definition storedKey (user : User) (service : string) : option string :=
  if String.eqb service "openai" then truthyKey (openaiApiKey user)
  else if String.eqb service "groq" then truthyKey (groqApiKey user)
  else if String.eqb service "elevenlabs" then truthyKey (elevenlabsApiKey user)
  else if String.eqb service "myshell" then truthyKey (myshellApiKey user)
  else None.

(** The environment variable holding the process-wide key of a vendor. *)
Definition systemKey (w : World) (service : string) : option string :=
  if String.eqb service "openai" then truthyKey (env w !! "OPENAI_API_KEY")
  else if String.eqb service "groq" then truthyKey (env w !! "GROQ_API_KEY")
  else if String.eqb service "elevenlabs" then truthyKey (env w !! "ELEVENLABS_API_KEY")
  else if String.eqb service "myshell" then truthyKey (env w !! "MYSHELL_API_KEY")
  else None.




(** The user stores no key of any vendor. *)
Definition noStoredKeys (user : User) : Prop :=
  truthyKey (myshellApiKey user) = None
  ∧ truthyKey (elevenlabsApiKey user) = None
  ∧ truthyKey (groqApiKey user) = None
  ∧ truthyKey (openaiApiKey user) = None.

(** None of the four process-wide keys is set. *)
Definition noSystemKeys (w : World) : Prop :=
  env w !! "MYSHELL_API_KEY" = None
  ∧ env w !! "ELEVENLABS_API_KEY" = None
  ∧ env w !! "GROQ_API_KEY" = None
  ∧ env w !! "OPENAI_API_KEY" = None.

(** ** Summaries of the client calls, proved equal to the code below *)

(** The request [generateTTS] of the Groq client sends as its [n]-th
    outside call. *)
Definition groqRequest (w : World) (n : nat) (text character : string)
    (opts : SynthesisOptions) : GroqRequest :=
  {| model := "playai-tts";
     voice := GroqTTSService.getVoiceForCharacter (randomDraw w n) character (optGender opts);
     input := GroqTTSService.cleanText text character;
     response_format := "wav";
     speed := Some (GroqTTSService.calculateDynamicSpeed character (optVoiceStyle opts)
                      (optSpeedMultiplier opts)) |}.

(** What [generateTTS] of the Groq client comes to. *)
Definition groqOutcome (w : World) (n : nat) (this : Instance) (text character : string)
    (opts : SynthesisOptions) : Completion GenerationResult :=
  match groqSpeechCreate w n this (groqRequest w n text character opts) with
  | Normal base64Audio =>
      Normal {| audioUrl := "data:audio/wav;base64," ++ base64Audio;
                duration := estimateDuration (GroqTTSService.cleanText text character) |}
  | Abrupt e => Abrupt {| message := "Groq TTS generation failed: " ++ message e |}
  end.

(** What a client's [generateTTS] comes to as the [n]-th outside call. *)
Definition clientOutcome (w : World) (n : nat) (v : Vendor) (inst : option Instance)
    (text character : string) (opts : SynthesisOptions) : Completion GenerationResult :=
  match v, inst with
  | Groq, Some this => groqOutcome w n this text character opts
  | _, _ => synthesize w n v inst text character opts
  end.

(** What [testConnection] of a client comes to as the [n]-th outside
    call; the Groq client catches its own errors. *)
Definition testOutcome (w : World) (n : nat) (v : Vendor) (inst : Instance) : Completion bool :=
  match v with
  | Groq =>
      match groqSpeechCreate w n inst
              {| model := "playai-tts"; voice := JsStr "Fritz-PlayAI";
                 input := "Test connection"; response_format := "wav"; speed := None |} with
      | Normal base64Audio => Normal (negb (String.eqb base64Audio ""))
      | Abrupt _ => Normal false
      end
  | _ => testConnectionReply w n v inst
  end.

(** What [testUserAPIKey] promises about its answer [b], from the state
    [(c, rt)] to the state [(c', rt')]. *)
Definition keyTestPost {C} (w : World) (userId service : string)
    (c : C) (rt : Runtime) (b : bool) (c' : C) (rt' : Runtime) : Prop :=
  (getUser w userId = None → b = false ∧ c' = c ∧ rt' = rt)
  ∧ (∀ user, getUser w userId = Some user → storedKey user service = None →
       b = false ∧ c' = c ∧ rt' = rt)
  ∧ (∀ ev, trace rt' = (trace rt ++ [ev])%list → failedEvent ev → b = false)
  ∧ (outsideThrows w (length (trace rt)) → b = false).


(** ** The speed formula of the specification *)

(** The speed formula in the words of the specification: own entries of
    the two tables, [1.0] for everything else, and a clamp. *)
Module SpeedSpec.

Definition numberEntry (table : list (string * JsValue)) (key : string) : option number :=
    match ownProperty table key with
    | Some (JsNum x) => Some x
    | _ => None
    end.

Definition baseSpeedForCharacter (characterId : string) : number :=
    default (Number.lit 1 1) (numberEntry GroqTTSService.characterSpeeds characterId).

Definition styleModifier (voiceStyle : option string) : number :=
    match truthyKey voiceStyle with
    | Some style => default (Number.lit 1 1) (numberEntry GroqTTSService.styleModifiers style)
    | None => Number.lit 1 1
    end.

Definition clamp (x lo hi : number) : number :=
    Number.Math_max lo (Number.Math_min hi x).

Definition finalSpeed (characterId : string) (voiceStyle : option string)
      (speedMultiplier : option number) : number :=
    clamp (Number.mul (Number.mul (baseSpeedForCharacter characterId)
                                  (styleModifier voiceStyle))
                      (default (Number.lit 1 1) speedMultiplier))
          (Number.lit 5 10) (Number.lit 2 1).

  (** [lo <= x <= hi] *)
Definition within (x lo hi : number) : Prop :=
    Number.leb lo x = true ∧ Number.leb x hi = true.

End SpeedSpec.

(** ** Sample users, worlds and states *)

Definition sampleAudio : GenerationResult :=
  {| audioUrl := "data:audio/mpeg;base64,SUQz"; duration := 1 |}.

Definition plainUser : User :=
  {| preferredTtsService := None; openaiApiKey := None; groqApiKey := None;
     elevenlabsApiKey := None; myshellApiKey := None |}.


Definition plainOptions (character : string) : TTSGenerationOptions :=
  {| characterId := character; characterName := None; gender := None;
     voiceStyle := None; speedMultiplier := None |}.

(** No user at all, every process-wide key set, every vendor healthy. *)
Definition worldWithoutUsers : World :=
  {| getUser := fun _ => None;
     env := {[ "MYSHELL_API_KEY" := "ms-system"; "ELEVENLABS_API_KEY" := "el-system";
               "GROQ_API_KEY" := "gsk-system"; "OPENAI_API_KEY" := "sk-system" ]};
     synthesize := fun _ _ _ _ _ _ => Normal sampleAudio;
     testConnectionReply := fun _ _ _ => Normal true;
     groqSpeechCreate := fun _ _ _ => Normal "UklGRg==";
     randomDraw := fun _ => 0 |}.

(** User [u1] stores nothing and no process-wide key is set. *)
Definition worldWithoutKeys : World :=
  {| getUser := fun userId => if String.eqb userId "u1" then Some plainUser else None;
     env := ∅;
     synthesize := fun _ _ _ _ _ _ => Normal sampleAudio;
     testConnectionReply := fun _ _ _ => Normal true;
     groqSpeechCreate := fun _ _ _ => Normal "UklGRg==";
     randomDraw := fun _ => 0 |}.

(** User [u1] stores nothing; only GROQ_API_KEY is set; Groq answers. *)
Definition worldWithSystemGroq : World :=
  {| getUser := fun userId => if String.eqb userId "u1" then Some plainUser else None;
     env := {[ "GROQ_API_KEY" := "gsk-system" ]};
     synthesize := fun _ _ _ _ _ _ => Abrupt {| message := "unavailable" |};
     testConnectionReply := fun _ _ _ => Abrupt {| message := "unavailable" |};
     groqSpeechCreate := fun _ _ _ => Normal "UklGRg==";
     randomDraw := fun _ => 0 |}.



(* ===================================================================== *)
(** * Further vocabulary: what a run leaves behind *)
(* ===================================================================== *)

Section Respect.
Context {C : Type}.

(** A computation whose end state is related to its start state by [R],
    however it completes. *)
Definition respects (R : C * Runtime → C * Runtime → Prop) {A} (m : M C A) : Prop :=
  ∀ s, R s (snd (m s)).

(** From [s] to [s'] the trace grew by calls that all satisfy [P]. *)
Definition callsOnly (P : Event → Prop) (s s' : C * Runtime) : Prop :=
  ∃ evs : list Event, trace (snd s') = (trace (snd s) ++ evs)%list ∧ Forall P evs.

(** From [s] to [s'] the trace grew by at most [n] calls. *)
Definition callsAtMost (n : nat) (s s' : C * Runtime) : Prop :=
  ∃ evs : list Event, trace (snd s') = (trace (snd s) ++ evs)%list ∧ (List.length evs <= n)%nat.

(** A computation that makes at most [n] outside calls. *)
Definition budget (n : nat) {A} (m : M C A) : Prop :=
  ∀ s, callsAtMost n s (snd (m s)).


End Respect.

(** A synthesis request for exactly this text, character and options. *)
Definition sameRequest (text character : string) (opts : SynthesisOptions) (ev : Event) : Prop :=
  ∃ v inst out, ev = Synthesis v inst text character opts out.

(** A synthesis request for this text and character. *)
Definition sameText (text character : string) (ev : Event) : Prop :=
  ∃ v inst opts out, ev = Synthesis v inst text character opts out.

(** Everything cached in [s] is still cached in [s'], under the same key
    and as the same object. *)
Definition cachesGrow (s s' : UserTTSManager.Fields * Runtime) : Prop :=
  ∀ v key i, cacheOf v (fst s) !! key = Some i → cacheOf v (fst s') !! key = Some i.




(** One block of [useSystemTTS], by cache and environment variable. *)
Definition systemBlock (w : World) (text : string) (options : TTSGenerationOptions)
    (vn : Cache * string) : M UserTTSManager.Fields (option GenerationResult) :=
  match truthyKey (env w !! snd vn) with
  | Some systemKey =>
      attempt w System (cacheVendor (fst vn)) false (getInstance (fst vn) systemKey true)
        text (characterId options) (synthesisOptions options)
  | None => ret None
  end.



(** The public methods of the later manager, as calls a client of the
    class can make, and the state a sequence of them leaves. *)
Inductive Call :=
| CallGenerateTTS (text userId : string) (options : TTSGenerationOptions)
| CallTestUserAPIKey (userId service : string)
| CallClearUserInstances (userId : string).

Definition runCall (w : World) (call : Call) (s : UserTTSManager.Fields * Runtime)
    : UserTTSManager.Fields * Runtime :=
  match call with
  | CallGenerateTTS text userId options =>
      snd (UserTTSManager.generateTTS w text userId options s)
  | CallTestUserAPIKey userId service => snd (UserTTSManager.testUserAPIKey w userId service s)
  | CallClearUserInstances userId => snd (UserTTSManager.clearUserInstances userId s)
  end.

Definition runCalls (w : World) (calls : list Call) (s : UserTTSManager.Fields * Runtime)
    : UserTTSManager.Fields * Runtime :=
  fold_left (fun s call => runCall w call s) calls s.

(** User [u1] prefers MyShell and stores a Groq key; every process-wide
    key is set and every vendor is down. *)
Definition groqOwner : User :=
  {| preferredTtsService := Some "myshell"; openaiApiKey := None;
     groqApiKey := Some "gsk-user"; elevenlabsApiKey := None; myshellApiKey := None |}.

Definition worldAllDown : World :=
  {| getUser := fun userId => if String.eqb userId "u1" then Some groqOwner else None;
     env := {[ "MYSHELL_API_KEY" := "ms-system"; "ELEVENLABS_API_KEY" := "el-system";
               "GROQ_API_KEY" := "gsk-system"; "OPENAI_API_KEY" := "sk-system" ]};
     synthesize := fun _ _ _ _ _ _ => Abrupt {| message := "unavailable" |};
     testConnectionReply := fun _ _ _ => Abrupt {| message := "unavailable" |};
     groqSpeechCreate := fun _ _ _ => Abrupt {| message := "unavailable" |};
     randomDraw := fun _ => 0 |}.

(** User [u1] prefers OpenAI and stores an OpenAI key; every vendor is
    down. *)
Definition openaiOwner : User :=
  {| preferredTtsService := Some "openai"; openaiApiKey := Some "sk-user";
     groqApiKey := None; elevenlabsApiKey := None; myshellApiKey := None |}.

Definition worldOwnerDown : World :=
  {| getUser := fun userId => if String.eqb userId "u1" then Some openaiOwner else None;
     env := ∅;
     synthesize := fun _ _ _ _ _ _ => Abrupt {| message := "unavailable" |};
     testConnectionReply := fun _ _ _ => Abrupt {| message := "unavailable" |};
     groqSpeechCreate := fun _ _ _ => Abrupt {| message := "unavailable" |};
     randomDraw := fun _ => 0 |}.

(** What the system chain of the earlier manager can leave on the trace
    for a request, with the result [r] it then returns: Bark answered;
    Bark threw and Typecast answered; both threw. *)
Definition barkThenTypecast (text character : string) (r : GenerationResult)
    (evs : list Event) : Prop :=
  evs = [Synthesis Bark None text character noOptions (Normal r)]
  ∨ (∃ e, evs = [Synthesis Bark None text character noOptions (Abrupt e);
                 Synthesis Typecast None text character noOptions (Normal r)])
  ∨ (∃ e e', evs = [Synthesis Bark None text character noOptions (Abrupt e);
                    Synthesis Typecast None text character noOptions (Abrupt e')]
             ∧ r = emptyAudio text).

(* ===================================================================== *)
(** * Further vocabulary: cleaned text *)
(* ===================================================================== *)

(** A word: a non-empty string without white space. *)
Definition isWord (s : string) : Prop :=
  s ≠ "" ∧ Forall (fun c => isWhiteSpace c = false) (list_ascii_of_string s).

(** All white space in [s] is single ASCII spaces; [prev] tells that the
    character before [s] was white space. *)
Fixpoint spacedFrom (prev : bool) (s : string) : bool :=
  match s with
  | EmptyString => true
  | String x rest =>
      if isWhiteSpace x then Ascii.eqb x " " && negb prev && spacedFrom true rest
      else spacedFrom false rest
  end.

(** The last character of [s], if any, is not white space. *)
Fixpoint endsWell (s : string) : bool :=
  match s with
  | EmptyString => true
  | String x EmptyString => negb (isWhiteSpace x)
  | String x rest => endsWell rest
  end.

(** [c] occurs in [s]. *)
Definition occursIn (c : ascii) (s : string) : Prop := In c (list_ascii_of_string s).

(** A Groq client, for the examples. *)
Definition sampleGroqClient : Instance :=
  {| instRef := 0; instVendor := Groq; instApiKey := "gsk-system";
     instVoiceCloning := false |}.

(** None of the characters of [s] satisfies [bad]. *)
Definition freeOf (bad : ascii → bool) (s : string) : Prop :=
  Forall (fun c => bad c = false) (list_ascii_of_string s).

(* ===================================================================== *)
(** * The moderation client (class [ContentModerationService],
      src/unnamed/part_001 lines 1-174) *)
(* ===================================================================== *)

(** ** More string operations of the source *)

(** [String.prototype.toLowerCase] on the characters below 256: the
    letters A-Z and the accented capitals of Latin-1. *)
Definition toLowerChar (c : ascii) : ascii :=
  let n := codeOf c in
  if ((65 <=? n) && (n <=? 90) || (192 <=? n) && (n <=? 222) && negb (n =? 215))%nat
  then ascii_of_nat (n + 32) else c.

Fixpoint toLowerCase (s : string) : string :=
  match s with
  | EmptyString => EmptyString
  | String x rest => String (toLowerChar x) (toLowerCase rest)
  end.

(** [s.startsWith(p)] *)
Fixpoint startsWith (s p : string) : bool :=
  match p with
  | EmptyString => true
  | String b p' =>
      match s with
      | EmptyString => false
      | String a s' => Ascii.eqb a b && startsWith s' p'
      end
  end.

(** [s.split(sep)] for a single character [sep]; the result is never
    empty. *)
Fixpoint split (sep : ascii) (s : string) : list string :=
  match s with
  | EmptyString => [EmptyString]
  | String x rest =>
      if Ascii.eqb x sep then EmptyString :: split sep rest
      else match split sep rest with
           | piece :: pieces => String x piece :: pieces
           | [] => [String x EmptyString]
           end
  end.

(** The line feed, ['\n']. *)
Definition LF : ascii := ascii_of_nat 10.

(** ** Parsed JSON and the reads the source makes on it *)

#[local] Set Warnings "-register-all".

Inductive Json :=
| JNull
| JBool (b : bool)
| JNumber (x : number)
| JString (s : string)
| JArray (items : list Json)
| JObject (members : list (string * Json)).

(** A JavaScript value read out of parsed JSON: [undefined] or a JSON
    value. *)
Inductive JsRead := Undefined | Value (j : Json).

(** An own member of an object; of two members with one name
    [JSON.parse] keeps the later. *)
Fixpoint ownMember (members : list (string * Json)) (name : string) : JsRead :=
  match members with
  | [] => Undefined
  | (k, v) :: rest =>
      match ownMember rest name with
      | Value later => Value later
      | Undefined => if String.eqb k name then Value v else Undefined
      end
  end.

(** [x.name] for a name that no built-in prototype defines ([choices],
    [message] and [content] are the names read here): a [TypeError] on
    [null] and [undefined], the own member of an object, and [undefined]
    on everything else. *)
Definition getProp (x : JsRead) (name : string) : Completion JsRead :=
  match x with
  | Undefined | Value JNull =>
      Abrupt {| message := "Cannot read properties of undefined" |}
  | Value (JObject members) => Normal (ownMember members name)
  | Value _ => Normal Undefined
  end.

(** [x[0]] *)
Definition getFirst (x : JsRead) : Completion JsRead :=
  match x with
  | Undefined | Value JNull =>
      Abrupt {| message := "Cannot read properties of undefined" |}
  | Value (JArray items) =>
      Normal (match items with j :: _ => Value j | [] => Undefined end)
  | Value (JString s) =>
      Normal (match s with String c _ => Value (JString (String c "")) | "" => Undefined end)
  | Value (JObject members) => Normal (ownMember members "0")
  | Value _ => Normal Undefined
  end.

Definition nullish (x : JsRead) : bool :=
  match x with
  | Undefined | Value JNull => true
  | Value _ => false
  end.

(** [result.choices[0]?.message?.content?.trim() || ''] *)
Definition moderationOutputOf (result : Json) : Completion string :=
  match getProp (Value result) "choices" with
  | Abrupt e => Abrupt e
  | Normal choices =>
  match getFirst choices with
  | Abrupt e => Abrupt e
  | Normal first =>
      if nullish first then Normal ""
      else
  match getProp first "message" with
  | Abrupt e => Abrupt e
  | Normal msg =>
      if nullish msg then Normal ""
      else
  match getProp msg "content" with
  | Abrupt e => Abrupt e
  | Normal content =>
      match content with
      | Undefined | Value JNull => Normal ""
      | Value (JString s) => Normal (trim s)
      | Value _ => Abrupt {| message := "content.trim is not a function" |}
      end
  end end end end.

(** ** Data *)

Record ModerationResult := {
  isSafe : bool;
  categories : option (list string);
  confidence : option number
}.

Record FilterResult := {
  content : string;
  wasFlagged : bool;
  reason : option string
}.

(** The request [fetch] is given: the bearer token of the
    [Authorization] header and the members of the JSON body. *)
Record ModerationRequest := {
  bearer : string;
  requestModel : string;
  messageRole : string;
  messageContent : string
}.

(** What [fetch] comes to: a rejection, or a response with its [ok]
    flag, its status text and what [response.json()] comes to. *)
Inductive FetchOutcome :=
| FetchRejects (e : JsError)
| FetchResolves (ok : bool) (statusText : string) (json : Completion Json).

(** What lies outside the process for this service: the process-wide
    configuration ([process.env]) and the chat completion endpoint that
    [fetch] reaches; neither is code of the repository.  The replies are
    indexed by the number of requests sent before. *)
Record ModerationWorld := {
  processEnv : gmap string string;
  fetch : nat → ModerationRequest → FetchOutcome
}.

Module ContentModerationService.

(** The state of a run: the requests sent so far. *)
Definition Log := list ModerationRequest.

Definition safe : ModerationResult :=
  {| isSafe := true; categories := None; confidence := None |}.

Definition categoryMap : list (string * JsValue) :=
  [ ("S1", JsStr "Violent Crimes");
    ("S2", JsStr "Non-Violent Crimes");
    ("S3", JsStr "Sex-Related Crimes");
    ("S4", JsStr "Child Sexual Exploitation");
    ("S5", JsStr "Defamation");
    ("S6", JsStr "Specialized Advice");
    ("S7", JsStr "Privacy");
    ("S8", JsStr "Intellectual Property");
    ("S9", JsStr "Indiscriminate Weapons");
    ("S10", JsStr "Hate");
    ("S11", JsStr "Suicide & Self-Harm");
    ("S12", JsStr "Sexual Content");
    ("S13", JsStr "Elections");
    ("S14", JsStr "Code Interpreter Abuse") ].

Definition seriousCategories : list string := [ "S1"; "S3"; "S4"; "S10"; "S11" ].

(** [generateFamilyFriendlyAlternative(originalContent)] *)
Definition generateFamilyFriendlyAlternative (originalContent : string) : string :=
  "Your rhymes are weak, I'm bringing the heat,
Step to my level, accept your defeat,
My flow's so clean, my bars are supreme,
I'm the champion of this lyrical scene.".

(** [generateModerateAlternative(originalContent)] *)
Definition generateModerateAlternative (originalContent : string) : string :=
  "Your bars are trash, my flow's on fire,
I'm spitting flames while you just tire,
Step to the mic, I'll shut you down,
Best battle rapper in this whole town.".

Section Service.
Context (w : ModerationWorld).

(** The text the runtime prints for a member inherited from
    [Object.prototype], by its name. *)
Context (inheritedText : string → string).

(** [get apiKey()] *)
Definition apiKey : M Log string :=
  let key :=
    orStr (orStr (processEnv w !! "GROQ_API_KEY") (processEnv w !! "GROQ_API_KEY_ENV_VAR"))
          (Some "") in
  match truthyKey key with
  | None => throw {| message := "GROQ_API_KEY environment variable is required" |}
  | Some key => ret key
  end.

(** [await fetch(url, { ... })]: the request goes on the log. *)
Definition sendRequest (request : ModerationRequest) : M Log (bool * string * Completion Json) :=
  log ← getFields;
  putFields (log ++ [request])%list;;
  match fetch w (length log) request with
  | FetchRejects e => throw e
  | FetchResolves ok statusText json => ret (ok, statusText, json)
  end.

(** [moderateContent(content, type = 'response')] *)
Definition moderateContent (content : string) (type : option string)
    : M Log ModerationResult :=
  let type := default "response" type in
  tryCatch
    (key ← apiKey;
     response ← sendRequest
       {| bearer := key;
          requestModel := "meta-llama/Llama-Guard-4-12B";
          messageRole := if String.eqb type "prompt" then "user" else "assistant";
          messageContent := content |};
     let '(ok, statusText, json) := response in
     if negb ok then ret safe
     else
       result ← complete json;
       moderationOutput ← complete (moderationOutputOf result);
       if startsWith (toLowerCase moderationOutput) "safe" then ret safe
       else if startsWith (toLowerCase moderationOutput) "unsafe" then
         let lines := split LF moderationOutput in
         let categories :=
           List.filter (fun line => startsWith (trim line) "S") (tail lines) in
         ret {| isSafe := false; categories := Some categories;
                confidence := Some (Number.lit 9 10) |}
       else ret safe)
    (fun error => ret safe).

(** What [Array.prototype.join] prints for a value of the category map. *)
Definition printed (v : JsValue) : string :=
  match v with
  | JsStr s => s
  | JsInherited name => inheritedText name
  | _ => ""
  end.

(** [getCategoryExplanation(categories)] *)
Definition getCategoryExplanation (categories : list string) : string :=
  String.concat ", "
    (map (fun cat => printed (jsOr (objGet categoryMap cat) (JsStr cat))) categories).

(** [filterContent(content, safetyLevel = 'moderate', type = 'response')] *)
Definition filterContent (content : string) (safetyLevel type : option string)
    : M Log FilterResult :=
  let safetyLevel := default "moderate" safetyLevel in
  let type := default "response" type in
  (if String.eqb safetyLevel "strict" then
     moderation ← moderateContent content (Some type);
     if negb (isSafe moderation) then
       let reason :=
         match categories moderation with
         | Some cats => getCategoryExplanation cats
         | None => "Content policy violation"
         end in
       ret (Some {| content := generateFamilyFriendlyAlternative content;
                    wasFlagged := true; reason := Some reason |})
     else ret None
   else
     moderation ← moderateContent content (Some type);
     match negb (isSafe moderation), categories moderation with
     | true, Some cats =>
         let seriousViolations :=
           List.filter (fun cat => bool_decide (cat ∈ seriousCategories)) cats in
         if (0 <? length seriousViolations)%nat then
           ret (Some {| content := generateModerateAlternative content;
                        wasFlagged := true;
                        reason := Some (getCategoryExplanation seriousViolations) |})
         else ret None
     | _, _ => ret None
     end)
  <||> ret {| content := content; wasFlagged := false; reason := None |}.

End Service.

End ContentModerationService.

(** ** Summaries of the moderation client, proved equal to the code below *)

(** The key the service authenticates with, if any. *)
Definition configuredKey (w : ModerationWorld) : option string :=
  truthyKey (orStr (orStr (processEnv w !! "GROQ_API_KEY")
                          (processEnv w !! "GROQ_API_KEY_ENV_VAR")) (Some "")).

(** The request sent for a content. *)
Definition requestFor (key content type : string) : ModerationRequest :=
  {| bearer := key;
     requestModel := "meta-llama/Llama-Guard-4-12B";
     messageRole := if String.eqb type "prompt" then "user" else "assistant";
     messageContent := content |}.

(** The category lines of an output of the model. *)
Definition categoryLines (moderationOutput : string) : list string :=
  List.filter (fun line => startsWith (trim line) "S") (tail (split LF moderationOutput)).

(** The verdict read off an output of the model. *)
Definition verdictOf (moderationOutput : string) : ModerationResult :=
  if startsWith (toLowerCase moderationOutput) "safe" then ContentModerationService.safe
  else if startsWith (toLowerCase moderationOutput) "unsafe" then
    {| isSafe := false; categories := Some (categoryLines moderationOutput);
       confidence := Some (Number.lit 9 10) |}
  else ContentModerationService.safe.

(** The output of the model for a content sent as the [n]-th request,
    when a key is set, the endpoint answers with an [ok] response and
    the output can be read out of its JSON. *)
Definition outputFor (w : ModerationWorld) (n : nat) (content type : string) : option string :=
  match configuredKey w with
  | None => None
  | Some key =>
      match fetch w n (requestFor key content type) with
      | FetchResolves true _ (Normal result) =>
          match moderationOutputOf result with
          | Normal moderationOutput => Some moderationOutput
          | Abrupt _ => None
          end
      | _ => None
      end
  end.

(** What [moderateContent] comes to as the [n]-th request. *)
Definition moderationFor (w : ModerationWorld) (n : nat) (content type : string)
    : ModerationResult :=
  match outputFor w n content type with
  | Some moderationOutput => verdictOf moderationOutput
  | None => ContentModerationService.safe
  end.

(** The log after [moderateContent]. *)
Definition logAfter (w : ModerationWorld) (log : ContentModerationService.Log)
    (content type : string) : ContentModerationService.Log :=
  match configuredKey w with
  | Some key => (log ++ [requestFor key content type])%list
  | None => log
  end.

(** The content handed back when nothing is flagged. *)
Definition unflagged (content : string) : FilterResult :=
  {| content := content; wasFlagged := false; reason := None |}.

(** A moderation world without configuration, and one whose endpoint
    reports two categories for everything. *)
Definition moderationOff : ModerationWorld :=
  {| processEnv := ∅;
     fetch := fun _ _ => FetchResolves true "OK"
                (Normal (JObject [("choices",
                   JArray [JObject [("message",
                     JObject [("content", JString "unsafe
S1
S12")])]])])) |}.

Definition moderationStrictWorld : ModerationWorld :=
  {| processEnv := {[ "GROQ_API_KEY" := "gsk-system" ]};
     fetch := fun _ _ => FetchResolves true "OK"
                (Normal (JObject [("choices",
                   JArray [JObject [("message",
                     JObject [("content", JString "unsafe
S1
S12")])]])])) |}.

(** The runtime's text for an inherited member, as V8 prints it. *)
Definition v8Text (name : string) : string :=
  if String.eqb name "__proto__" then "[object Object]"
  else if String.eqb name "constructor" then "function Object() { [native code] }"
  else "function " ++ name ++ "() { [native code] }".

(** What [filterContent] makes of a verdict. *)
Definition filterOutcome (inheritedText : string → string) (content safetyLevel : string)
    (moderation : ModerationResult) : FilterResult :=
  if String.eqb safetyLevel "strict" then
    if isSafe moderation then unflagged content
    else
      {| content := ContentModerationService.generateFamilyFriendlyAlternative content;
         wasFlagged := true;
         reason := Some match categories moderation with
                        | Some cats =>
                            ContentModerationService.getCategoryExplanation inheritedText cats
                        | None => "Content policy violation"
                        end |}
  else
    match isSafe moderation, categories moderation with
    | false, Some cats =>
        let serious :=
          List.filter (fun cat => bool_decide (cat ∈ ContentModerationService.seriousCategories))
                      cats in
        match serious with
        | [] => unflagged content
        | _ => {| content := ContentModerationService.generateModerateAlternative content;
                  wasFlagged := true;
                  reason := Some (ContentModerationService.getCategoryExplanation
                                    inheritedText serious) |}
        end
    | _, _ => unflagged content
    end.

(** The names of the five categories that moderate filtering acts on. *)
Definition seriousNames : list string :=
  [ "Violent Crimes"; "Sex-Related Crimes"; "Child Sexual Exploitation"; "Hate";
    "Suicide & Self-Harm" ].

(** The filter flags the content at this safety level, sent as the
    [n]-th request. *)
Definition flags (w : ModerationWorld) (inheritedText : string → string) (n : nat)
    (content safetyLevel type : string) : Prop :=
  wasFlagged (filterOutcome inheritedText content safetyLevel
                (moderationFor w n content type)) = true.

(* ===================================================================== *)
(** * The rhyme architect (class [RhymeArchitectService],
      src/unnamed/part_000 lines 308-874) *)
(* ===================================================================== *)

(** ** More numbers and strings of the source *)

Module Number64.

Definition zero : number := S754_zero false.

(** A count as a number. *)
Definition of_nat (n : nat) : number :=
  match n with
  | O => zero
  | S _ => Number.of_pos (Pos.of_nat n)
  end.

Definition add (x y : number) : number := SFadd Number.prec Number.emax x y.
Definition div (x y : number) : number := SFdiv Number.prec Number.emax x y.

(** [x >= y] *)
Definition geb (x y : number) : bool := Number.leb y x.

End Number64.

(** [c] is one of the characters of [set]. *)
Fixpoint inString (c : ascii) (set : string) : bool :=
  match set with
  | EmptyString => false
  | String x rest => Ascii.eqb c x || inString c rest
  end.

(** [/[aeiouyAEIOUY]/.test(char)] *)
Definition isVowel (c : ascii) : bool := inString c "aeiouyAEIOUY".

(** The class [[bcdfghjklmnpqrstvwxz]] under the flag [i]. *)
Definition isClusterConsonant (c : ascii) : bool :=
  inString c "bcdfghjklmnpqrstvwxzBCDFGHJKLMNPQRSTVWXZ".

(** The class [[kgtpbdx]] under the flag [i]. *)
Definition isHardConsonant (c : ascii) : bool := inString c "kgtpbdxKGTPBDX".

(** [(s.match(/[class]/g) || []).length] for a class of single
    characters. *)
Fixpoint countMatches (class : ascii → bool) (s : string) : nat :=
  match s with
  | EmptyString => 0
  | String x rest => (if class x then 1 else 0) + countMatches class rest
  end.

(** [(s.match(/[class]{2,}/g) || []).length]: the maximal runs of two
    or more characters of the class; [run] is the length of the run that
    ends before [s]. *)
Fixpoint countRunsFrom (class : ascii → bool) (run : nat) (s : string) : nat :=
  match s with
  | EmptyString => if (2 <=? run)%nat then 1 else 0
  | String x rest =>
      if class x then countRunsFrom class (S run) rest
      else (if (2 <=? run)%nat then 1 else 0) + countRunsFrom class 0 rest
  end.

Definition countRuns (class : ascii → bool) (s : string) : nat := countRunsFrom class 0 s.

(** [s.slice(0, -1)] *)
Fixpoint sliceInit (s : string) : string :=
  match s with
  | EmptyString => EmptyString
  | String x EmptyString => EmptyString
  | String x rest => String x (sliceInit rest)
  end.

(** [line.trim()] as a condition: the trimmed line is not empty. *)
Definition nonBlank (line : string) : bool := negb (String.eqb (trim line) "").

(** [s] with every [c] deleted. *)
Definition deleteChar (c : ascii) (s : string) : string := replaceChar c "" s.

Module RhymePlacement.

Inductive Impact := knockout | devastating | powerful | moderate.
Inductive Timing := beat_perfect | off_beat_emphasis | syncopated.
Inductive AudienceReaction := crowd_roar | stunned_silence | head_nod | rewind_worthy.

Record t := {
  position : Z;
  syllable : string;
  impact : Impact;
  timing : Timing;
  audienceReaction : AudienceReaction
}.

End RhymePlacement.

Module ImpactMoment.

Inductive ImpactType :=
  punchline | multisyllable_bomb | internal_explosion | cross_line_devastation.

Record t := {
  line : nat;
  position : Z;
  syllables : list string;
  impactType : ImpactType;
  (** a string by its type; see [generateAudienceEffect] *)
  audienceEffect : JsValue
}.

End ImpactMoment.

Module RhymeArchitectService.

Import RhymePlacement.

Definition impactSyllableLibrary_knockout : list string :=
  [ "devastation"; "annihilation"; "obliteration"; "domination";
    "assassination"; "evisceration"; "desecration"; "termination" ].

Definition impactSyllableLibrary_devastating : list string :=
  [ "execution"; "precision"; "collision"; "explosion";
    "destruction"; "eruption"; "corruption"; "disruption" ].

(** The loop of [getSyllables]: the syllables pushed so far, the current
    syllable and the vowels counted in it.  [i < word.length - 1] holds
    exactly while characters remain after the current one. *)
Fixpoint syllableLoop (rest : string) (syllables : list string)
    (currentSyllable : string) (vowelCount : nat) : list string * string :=
  match rest with
  | EmptyString => (syllables, currentSyllable)
  | String char rest' =>
      let currentSyllable := (currentSyllable ++ String char "")%string in
      if isVowel char then
        let vowelCount := S vowelCount in
        if (1 <? vowelCount)%nat && negb (String.eqb rest' "") then
          syllableLoop rest' (syllables ++ [sliceInit currentSyllable])%list
                       (String char "") 1
        else syllableLoop rest' syllables currentSyllable vowelCount
      else syllableLoop rest' syllables currentSyllable vowelCount
  end.

(** [getSyllables(word)] *)
Definition getSyllables (word : string) : list string :=
  let vowelGroups := countMatches isVowel word in
  if (vowelGroups =? 0)%nat then [word]
  else if (vowelGroups =? 1)%nat then [word]
  else
    let '(syllables, currentSyllable) := syllableLoop word [] "" 0 in
    let syllables :=
      if negb (String.eqb currentSyllable "") then (syllables ++ [currentSyllable])%list
      else syllables in
    if (0 <? length syllables)%nat then syllables else [word].

(** [analyzeSyllableStructure(words)] *)
Definition analyzeSyllableStructure (words : list string) : nat * list (list string) :=
  fold_left
    (fun '(totalSyllables, syllableStructure) word =>
       let syllables := getSyllables word in
       ((totalSyllables + length syllables)%nat, (syllableStructure ++ [syllables])%list))
    words (0%nat, []).

(** [calculateImpactPositions(syllableAnalysis, targetImpact)].  The
    factors 0.25, 0.5 and 0.75 are dyadic, so the products with a count
    are exact in binary64 and their floors are the integer quotients. *)
Definition calculateImpactPositions (totalSyllables : nat) (targetImpact : string) : list Z :=
  let total := Z.of_nat totalSyllables in
  let positions :=
    if String.eqb targetImpact "maximum" then
      [ (total / 4)%Z; (3 * total / 4)%Z; (total - 1)%Z ]
    else if String.eqb targetImpact "devastating" then
      [ (total / 2)%Z; (total - 1)%Z ]
    else [ (total - 1)%Z ] in
  List.filter (fun pos => (0 <=? pos)%Z && (pos <? total)%Z) positions.

(** [assessWordImpact(word)] *)
Definition assessWordImpact (word : string) : number :=
  let consonantClusters := countRuns isClusterConsonant word in
  let hardConsonants := countMatches isHardConsonant word in
  let length := String.length word in
  Number64.add
    (Number64.add (Number.mul (Number64.of_nat consonantClusters) (Number.lit 4 10))
                  (Number.mul (Number64.of_nat hardConsonants) (Number.lit 4 10)))
    (Number.Math_min (Number64.div (Number64.of_nat length) (Number.lit 10 1))
                     (Number.lit 2 10)).

(** [getTargetImpactScore(targetImpact)] *)
Definition getTargetImpactScore (targetImpact : string) : number :=
  if String.eqb targetImpact "maximum" then Number.lit 8 10
  else if String.eqb targetImpact "devastating" then Number.lit 6 10
  else if String.eqb targetImpact "controlled" then Number.lit 4 10
  else Number.lit 5 10.

(** [getLastSyllable(word)] *)
Definition getLastSyllable (word : string) : string :=
  let syllables := getSyllables word in
  List.last syllables "".

Definition findRhymeFamily (syllable : string) : list string := [].

Definition rhymesWith (word1 syllable : string) : bool := false.

(** [selectOptimalRhyme(options, targetImpact, audienceType)] *)
Definition selectOptimalRhyme (options : list string) (targetImpact audienceType : string)
    : string :=
  match options with
  | first :: _ => if negb (String.eqb first "") then first else ""
  | [] => ""
  end.

(** [selectDevastatingEndRhyme(originalWord, targetImpact, audienceType)] *)
Definition selectDevastatingEndRhyme (originalWord targetImpact audienceType : string)
    : string :=
  let lastSyllable := getLastSyllable originalWord in
  let rhymeFamily := findRhymeFamily lastSyllable in
  let devastatingOptions :=
    List.filter (fun word => rhymesWith word lastSyllable)
      (impactSyllableLibrary_knockout ++ impactSyllableLibrary_devastating)%list in
  if (0 <? length devastatingOptions)%nat then
    selectOptimalRhyme devastatingOptions targetImpact audienceType
  else originalWord.

(** [optimizeEndRhyme(words, targetImpact, audienceType)]: the words,
    [isDevastating] and [impactSyllables]. *)
Definition optimizeEndRhyme (words : list string) (targetImpact audienceType : string)
    : list string * bool * list string :=
  if (length words =? 0)%nat then (words, false, [])
  else
    let lastWord := List.last words "" in
    let syllables := getSyllables lastWord in
    let currentImpact := assessWordImpact lastWord in
    let replaced :=
      if Number.ltb currentImpact (getTargetImpactScore targetImpact) then
        let optimizedEndWord :=
          selectDevastatingEndRhyme lastWord targetImpact audienceType in
        if negb (String.eqb optimizedEndWord lastWord) then
          Some ((removelast words ++ [optimizedEndWord])%list, true,
                getSyllables optimizedEndWord)
        else None
      else None in
    match replaced with
    | Some result => result
    | None =>
        (words, Number64.geb currentImpact (getTargetImpactScore "devastating"), syllables)
    end.

(** [enhanceForInternalImpact(word, position, impactPositions)] *)
Definition enhanceForInternalImpact (word : string) (position : Z) (impactPositions : list Z)
    : string := word.

(** The loop of [optimizeInternalRhymes]: the words already passed, the
    words to come, [syllablePos] and [hasExplosion]. *)
Fixpoint internalLoop (done rest : list string) (impactPositions : list Z)
    (syllablePos : Z) (hasExplosion : bool) : list string * bool :=
  match rest with
  | [] => (done, hasExplosion)
  | word :: rest' =>
      let syllables := getSyllables word in
      let wordEnd := (syllablePos + Z.of_nat (length syllables) - 1)%Z in
      let hasImpactPosition :=
        existsb (fun pos => (syllablePos <=? pos)%Z && (pos <=? wordEnd)%Z) impactPositions in
      let '(word', hasExplosion') :=
        if hasImpactPosition && negb (length rest' =? 0)%nat then
          let enhancedWord := enhanceForInternalImpact word syllablePos impactPositions in
          if negb (String.eqb enhancedWord word) then (enhancedWord, true)
          else (word, hasExplosion)
        else (word, hasExplosion) in
      internalLoop (done ++ [word'])%list rest' impactPositions
                   (syllablePos + Z.of_nat (length syllables))%Z hasExplosion'
  end.

(** [optimizeInternalRhymes(words, impactPositions, lineNumber)] *)
Definition optimizeInternalRhymes (words : list string) (impactPositions : list Z)
    (lineNumber : nat) : list string * bool :=
  internalLoop [] words impactPositions 0 false.

(** [assessConsonantStrength(syllable)] *)
Definition assessConsonantStrength (syllable : string) : number :=
  let consonantClusters := countRuns isClusterConsonant syllable in
  let strength :=
    fold_left
      (fun strength char =>
         if inString char "kgtpbdx" then Number64.add strength (Number.lit 2 10)
         else strength)
      (list_ascii_of_string (toLowerCase syllable)) Number64.zero in
  let strength :=
    Number64.add strength
      (Number.mul (Number64.of_nat consonantClusters) (Number.lit 3 10)) in
  Number.Math_min strength (Number.lit 1 1).

(** [calculateSyllableImpact(syllable, position, impactPositions)] *)
Definition calculateSyllableImpact (syllable : string) (position : Z)
    (impactPositions : list Z) : Impact :=
  if existsb (Z.eqb position) impactPositions then
    let consonantStrength := assessConsonantStrength syllable in
    if Number64.geb consonantStrength (Number.lit 8 10) then knockout
    else if Number64.geb consonantStrength (Number.lit 6 10) then devastating
    else powerful
  else moderate.

(** [calculateOptimalTiming(position, totalSyllables)]; the position is
    never negative. *)
Definition calculateOptimalTiming (position : Z) (totalSyllables : nat) : Timing :=
  let ratio := Number64.div (Number64.of_nat (Z.to_nat position))
                            (Number64.of_nat totalSyllables) in
  if Number.leb ratio (Number.lit 25 100) || Number64.geb ratio (Number.lit 75 100)
  then beat_perfect
  else if Number64.geb ratio (Number.lit 4 10) && Number.leb ratio (Number.lit 6 10)
  then syncopated
  else off_beat_emphasis.

(** [predictAudienceReaction(impact, timing, audienceType)] *)
Definition predictAudienceReaction (impact : Impact) (timing : Timing)
    (audienceType : string) : AudienceReaction :=
  match impact, timing with
  | knockout, beat_perfect =>
      if String.eqb audienceType "battle-crowd" then crowd_roar else rewind_worthy
  | devastating, _ => stunned_silence
  | _, _ => head_nod
  end.

Definition effects : list (string * list (string * JsValue)) :=
  [ ("battle-crowd",
     [ ("maximum",
        JsStr "Crowd erupts, people jumping out their seats, instant replay demanded");
       ("devastating",
        JsStr "Stunned silence followed by explosive reaction, heads shaking in disbelief");
       ("controlled",
        JsStr "Collective head nod, murmurs of approval, respect earned") ]);
    ("freestyle-cipher",
     [ ("maximum",
        JsStr "Circle breaks formation, everyone loses their minds, legendary moment");
       ("devastating",
        JsStr "Faces twisted in shock, instant classic verse, everyone rewinding");
       ("controlled",
        JsStr "Smooth appreciation, knowing nods, skillful recognition") ]);
    ("competition",
     [ ("maximum",
        JsStr "Judges lean forward, perfect scores incoming, competition over");
       ("devastating",
        JsStr "Technical mastery displayed, opponents rethinking strategy");
       ("controlled",
        JsStr "Professional execution, points definitely scored") ]) ].

Fixpoint ownTable (tables : list (string * list (string * JsValue))) (key : string)
    : option (list (string * JsValue)) :=
  match tables with
  | [] => None
  | (k, table) :: rest => if String.eqb k key then Some table else ownTable rest key
  end.

Section Service.

(** The member [name] of the member [inherited] of [Object.prototype]:
    built into the runtime, not code of the repository. *)
Context (builtinMember : string → string → JsValue).

(** [generateAudienceEffect(targetImpact, audienceType)] *)
Definition generateAudienceEffect (targetImpact audienceType : string) : JsValue :=
  let found :=
    match ownTable effects audienceType with
    | Some table => objGet table targetImpact
    | None =>
        if inheritedName audienceType then builtinMember audienceType targetImpact
        else JsUndefined
    end in
  jsOr found (JsStr "Strong audience response achieved").

(** The inner loop of [optimizeLineForImpact], over the syllables of one
    word. *)
Definition placementsOfWord (impactPositions : list Z) (audienceType : string)
    (syllablePosition : Z) (word : string) : list RhymePlacement.t * Z :=
  let syllables := getSyllables word in
  fold_left
    (fun '(placements, syllablePosition) syllable =>
       let impact := calculateSyllableImpact syllable syllablePosition impactPositions in
       let timing := calculateOptimalTiming syllablePosition (length syllables) in
       ((placements ++
         [ {| position := syllablePosition; syllable := syllable; impact := impact;
              timing := timing;
              audienceReaction := predictAudienceReaction impact timing audienceType |} ])%list,
        (syllablePosition + 1)%Z))
    syllables ([], syllablePosition).

(** [optimizeLineForImpact(line, lineNumber, targetImpact, audienceType,
    allLines)]: the optimized line, the placements and the impact
    moment, if any. *)
Definition optimizeLineForImpact (line : string) (lineNumber : nat)
    (targetImpact audienceType : string) (allLines : list string)
    : string * list RhymePlacement.t * option ImpactMoment.t :=
  let words := split " " (trim line) in
  let syllableAnalysis := analyzeSyllableStructure words in
  let impactPositions := calculateImpactPositions (fst syllableAnalysis) targetImpact in
  let '(endWords, isDevastating, impactSyllables) :=
    optimizeEndRhyme words targetImpact audienceType in
  let '(internalWords, hasExplosion) :=
    optimizeInternalRhymes endWords impactPositions lineNumber in
  let '(placements, syllablePosition) :=
    fold_left
      (fun '(placements, syllablePosition) word =>
         let '(more, syllablePosition') :=
           placementsOfWord impactPositions audienceType syllablePosition word in
         ((placements ++ more)%list, syllablePosition'))
      internalWords ([], 0%Z) in
  let impactMoment :=
    if isDevastating || hasExplosion then
      Some {| ImpactMoment.line := lineNumber;
              ImpactMoment.position := (syllablePosition - 1)%Z;
              ImpactMoment.syllables := impactSyllables;
              ImpactMoment.impactType :=
                if isDevastating then ImpactMoment.punchline
                else ImpactMoment.internal_explosion;
              ImpactMoment.audienceEffect :=
                generateAudienceEffect targetImpact audienceType |}
    else None in
  (String.concat " " internalWords, placements, impactMoment).

(** [identifyCrossLineOpportunity(line1, line2)]: [hasPotential]. *)
Definition identifyCrossLineOpportunity (line1 line2 : string) : bool := false.

(** [createCrossLineDevastation(line1, line2, opportunity)] *)
Definition createCrossLineDevastation (line1 line2 : string) (opportunity : bool)
    : string * string * option ImpactMoment.t :=
  (line1, line2, None).

(** [optimizeCrossLineImpact(lines, impactMoments)] *)
Definition optimizeCrossLineImpact (lines : list string) (impactMoments : list ImpactMoment.t)
    : list string * list ImpactMoment.t :=
  fold_left
    (fun '(optimizedLines, enhancedImpactMoments) i =>
       let currentLine := nth i lines "" in
       let nextLine := nth (i + 1) lines "" in
       let crossLineOpportunity := identifyCrossLineOpportunity currentLine nextLine in
       if crossLineOpportunity then
         let '(line1, line2, impactMoment) :=
           createCrossLineDevastation currentLine nextLine crossLineOpportunity in
         (<[(i + 1)%nat := line2]> (<[i := line1]> optimizedLines),
          match impactMoment with
          | Some moment => (enhancedImpactMoments ++ [moment])%list
          | None => enhancedImpactMoments
          end)
       else (optimizedLines, enhancedImpactMoments))
    (seq 0 (length lines - 1)) (lines, impactMoments).

(** [optimizeRhymePlacement(lyrics, targetImpact = 'maximum',
    audienceType = 'battle-crowd')]: [optimizedLyrics], [placementMap]
    and [impactMoments].  The fourth member of the result,
    [timingInstructions], is a text that [generateTimingInstructions]
    renders from the impact moments; it is not part of this model. *)
Definition optimizeRhymePlacement (lyrics : string) (targetImpact audienceType : option string)
    : string * list RhymePlacement.t * list ImpactMoment.t :=
  let targetImpact := default "maximum" targetImpact in
  let audienceType := default "battle-crowd" audienceType in
  let lines := List.filter nonBlank (split LF lyrics) in
  let '(optimizedLines, placementMap, impactMoments, _) :=
    fold_left
      (fun '(optimizedLines, placementMap, impactMoments, i) line =>
         let '(optimizedLine, placements, impactMoment) :=
           optimizeLineForImpact line i targetImpact audienceType lines in
         ((optimizedLines ++ [optimizedLine])%list,
          (placementMap ++ placements)%list,
          match impactMoment with
          | Some moment => (impactMoments ++ [moment])%list
          | None => impactMoments
          end,
          S i))
      lines ([], [], [], 0%nat) in
  let '(crossLyrics, crossMoments) := optimizeCrossLineImpact optimizedLines impactMoments in
  (String.concat (String LF "") crossLyrics, placementMap, crossMoments).

End Service.

End RhymeArchitectService.

(** The line ends in a word whose impact reaches the score of
    ['devastating'], 0.6. *)
Definition devastatingFinish (line : string) : bool :=
  Number64.geb
    (RhymeArchitectService.assessWordImpact (List.last (split " " (trim line)) ""))
    (RhymeArchitectService.getTargetImpactScore "devastating").

(** The indices, counted from [i], of the lines with a devastating
    finish. *)
Fixpoint devastatingLines (i : nat) (lines : list string) : list nat :=
  match lines with
  | [] => []
  | line :: rest =>
      if devastatingFinish line then i :: devastatingLines (S i) rest
      else devastatingLines (S i) rest
  end.

(** The positions [p], [p + 1], ... of [n] syllables. *)
Definition positionsFrom (p : Z) (n : nat) : list Z :=
  map (fun k => (p + Z.of_nat k)%Z) (seq 0 n).

(* ===================================================================== *)
(** * Further vocabulary: the two managers side by side *)
(* ===================================================================== *)

(** ** A storage lookup that may reject

    [getUser] of a [World] is what [storage.getUser(userId)] resolves
    to.  The promise may also reject.  [lookup] is how it settles:
    [Normal tt] when it resolves (to [getUser w userId]) and [Abrupt e]
    when it rejects with [e]. *)

(** [testUserAPIKey(userId, service)] of the later manager from its first
    line on: [const user = await storage.getUser(userId)] stands before
    the [try] (line 263). *)
Definition testUserAPIKeyFrom (w : World) (lookup : Completion unit)
    (userId service : string) : M UserTTSManager.Fields bool :=
  complete lookup;; UserTTSManager.testUserAPIKey w userId service.

(** The same for the earlier manager (line 123). *)
Definition earlyTestUserAPIKeyFrom (w : World) (lookup : Completion unit)
    (userId service : string) : M UserTTSManagerEarly.Fields bool :=
  complete lookup;; UserTTSManagerEarly.testUserAPIKey w userId service.

(** ** The preference branches of the earlier manager *)

(** The two preference branches of the earlier [generateTTS], lines
    49-76, as they follow each other. *)
Definition earlyPreferencePhase (w : World) (user : User) (preferredService text : string)
    (options : TTSGenerationOptions)
    : M UserTTSManagerEarly.Fields (option GenerationResult) :=
  UserTTSManagerEarly.preferredOpenAI w user preferredService text options
  <|> UserTTSManagerEarly.preferredGroq w user preferredService text options.


(** What the caches of the earlier manager hold is keyed as its getters
    key it; true of a new manager and kept by its methods. *)
Definition earlyWellKeyed (c : UserTTSManagerEarly.Fields) : Prop :=
  (∀ k i, UserTTSManagerEarly.openaiInstances c !! k = Some i →
     instVendor i = OpenAI ∧ instApiKey i = k)
  ∧ (∀ k i, UserTTSManagerEarly.groqInstances c !! k = Some i →
       instVendor i = Groq ∧ instApiKey i = k).

(** From [s] to [s'] the caches of the earlier manager stay well keyed. *)
Definition staysWellKeyed (s s' : UserTTSManagerEarly.Fields * Runtime) : Prop :=
  earlyWellKeyed (fst s) → earlyWellKeyed (fst s').

(** ** More sample users and worlds *)





(** The storage error of the examples. *)
Definition storageDown : JsError := {| message := "storage unavailable" |}.
(* ===================================================================== *)
(** * The pure functions on small inputs *)
(* ===================================================================== *)

Example removeDelimited_emphasis : removeDelimited "*" "*" "a*b*c*d" = "ac*d".
Proof. reflexivity. Qed.

Example removeDelimited_tags : removeDelimited "[" "]" "]x[a[b]c" = "]xc".
Proof. reflexivity. Qed.

Example cleanText_plain :
  GroqTTSService.cleanText "[hype] Yo *loud*  man " "silk" = "Yo man".
Proof. reflexivity. Qed.

Example cleanText_robot :
  GroqTTSService.cleanText "Bow down! Why? *beep* Done." "cypher"
  = "[processing] Bow down. [emphasis] Why. [query] Done. [pause] [systems_online]".
Proof. reflexivity. Qed.

Example voice_mapped :
  GroqTTSService.getVoiceForCharacter 3 "razor" None = JsStr "Cheyenne-PlayAI".
Proof. reflexivity. Qed.

Example voice_drawn :
  GroqTTSService.getVoiceForCharacter 7 "nobody" (Some "female") = JsStr "Gail-PlayAI".
Proof. reflexivity. Qed.

(** The literals of the source, as binary64 values; each lies within
    half a unit in the last place of the decimal it is written as. *)
Example literals_are_nearest :
  Number.lit 75 100 = S754_finite false 6755399441055744 (-53)
  ∧ Number.lit 9 10 = S754_finite false 8106479329266893 (-53)
  ∧ Number.lit 11 10 = S754_finite false 4953959590107546 (-52)
  ∧ Number.lit 1 1 = S754_finite false 4503599627370496 (-52)
  ∧ Number.lit 12 10 = S754_finite false 5404319552844595 (-52)
  ∧ Number.lit 95 100 = S754_finite false 8556839292003942 (-53)
  ∧ Number.lit 115 100 = S754_finite false 5179139571476070 (-52)
  ∧ Number.lit 5 10 = S754_finite false 4503599627370496 (-53)
  ∧ Number.lit 2 1 = S754_finite false 4503599627370496 (-51)
  ∧ (2 * Z.abs (100 * 6755399441055744 - 75 * 2 ^ 53) ≤ 100)%Z
  ∧ (2 * Z.abs (10 * 8106479329266893 - 9 * 2 ^ 53) ≤ 10)%Z
  ∧ (2 * Z.abs (10 * 4953959590107546 - 11 * 2 ^ 52) ≤ 10)%Z
  ∧ (2 * Z.abs (10 * 5404319552844595 - 12 * 2 ^ 52) ≤ 10)%Z
  ∧ (2 * Z.abs (100 * 8556839292003942 - 95 * 2 ^ 53) ≤ 100)%Z
  ∧ (2 * Z.abs (100 * 5179139571476070 - 115 * 2 ^ 52) ≤ 100)%Z.
Proof. vm_compute. repeat split; intros H; discriminate H. Qed.

Example speed_venom_aggressive :
  GroqTTSService.calculateDynamicSpeed "venom" (Some "aggressive") None
  = Number.lit 108 100.
Proof. vm_compute. reflexivity. Qed.

Example speed_clamped_above :
  GroqTTSService.calculateDynamicSpeed "razor" (Some "playful") (Some (Number.lit 2 1))
  = Number.lit 2 1.
Proof. vm_compute. reflexivity. Qed.

Example speed_clamped_below :
  GroqTTSService.calculateDynamicSpeed "cypher" None (Some (Number.lit 1 10))
  = Number.lit 5 10.
Proof. vm_compute. reflexivity. Qed.

Example myshellKey_cloning : UserTTSManager.myshellKey "abc" true = "abc_true".
Proof. reflexivity. Qed.

(* ===================================================================== *)
(** * Running the effects *)
(* ===================================================================== *)

Ltac unfold_effects :=
  unfold mbind, mret, M_bind, M_ret, bind, ret, throw, tryCatch, getFields,
    putFields, getRuntime, logD, record, newInstance, complete, orElse,
    orFinally, nonNull in *.

Ltac run_effects :=
  cbv beta iota zeta delta
    [mbind mret M_bind M_ret bind ret throw tryCatch getFields putFields
     getRuntime logD record newInstance complete orElse orFinally nonNull
     fst snd truthyKey].

Lemma getInstance_run (v : Cache) (k : string) (flag : bool)
    (c : UserTTSManager.Fields) (rt : Runtime) :
  getInstance v k flag (c, rt) =
    match cacheOf v c !! cacheKey v k flag with
    | Some i => (Normal i, (c, rt))
    | None =>
        let i := built v (nextRef rt) k flag in
        (Normal i, (setCache v (<[cacheKey v k flag := i]> (cacheOf v c)) c, allocated rt))
    end.
Proof.
  destruct v; simpl;
    unfold UserTTSManager.getOpenAIInstance, UserTTSManager.getGroqInstance,
      UserTTSManager.getElevenLabsInstance, UserTTSManager.getMyShellInstance,
      createOpenAITTS, createGroqTTS, createElevenLabsTTS, createMyShellTTS,
      UserTTSManager.has;
    unfold_effects; simpl;
    match goal with |- context [bool_decide (is_Some ?o)] => destruct o as [i|] eqn:E end;
    simpl; rewrite ?E; try reflexivity;
    rewrite lookup_insert_eq; reflexivity.
Qed.

Section Running.
Context {C : Type} (w : World).

Lemma groq_generateTTS_run (this : Instance) (text cid : string)
    (opts : SynthesisOptions) (s : C * Runtime) :
  GroqTTSService.generateTTS w this text cid opts s
  = (groqOutcome w (length (trace (snd s))) this text cid opts, s).
Proof.
  unfold GroqTTSService.generateTTS, groqOutcome, groqRequest. unfold_effects. simpl.
  destruct (groqSpeechCreate w _ this _); reflexivity.
Qed.

Lemma clientGenerateTTS_eq (v : Vendor) (inst : option Instance)
    (text cid : string) (opts : SynthesisOptions) (c : C) (rt : Runtime) :
  clientGenerateTTS w v inst text cid opts (c, rt)
  = (clientOutcome w (length (trace rt)) v inst text cid opts,
     (c, called rt (Synthesis v inst text cid opts
                      (clientOutcome w (length (trace rt)) v inst text cid opts)))).
Proof.
  unfold clientGenerateTTS, clientOutcome.
  destruct v, inst; rewrite ?groq_generateTTS_run; unfold_effects; simpl;
    match goal with |- context [match ?o with Normal _ => _ | Abrupt _ => _ end] =>
      destruct o end; reflexivity.
Qed.

Lemma clientGenerateTTS_run (v : Vendor) (inst : option Instance)
    (text cid : string) (opts : SynthesisOptions) (c : C) (rt : Runtime) :
  ∃ out,
    clientGenerateTTS w v inst text cid opts (c, rt)
    = (out, (c, called rt (Synthesis v inst text cid opts out))).
Proof. eexists. apply clientGenerateTTS_eq. Qed.

(** ** Traces *)

Lemma onlyFailures_refl (rt rt' : Runtime) : trace rt' = trace rt → onlyFailures rt rt'.
Proof. intros H. exists []. rewrite H, app_nil_r. split; [reflexivity | constructor]. Qed.

Lemma onlyFailures_trans (rt1 rt2 rt3 : Runtime) :
  onlyFailures rt1 rt2 → onlyFailures rt2 rt3 → onlyFailures rt1 rt3.
Proof.
  intros (e1 & H1 & F1) (e2 & H2 & F2). exists (e1 ++ e2)%list.
  rewrite H2, H1, <- app_assoc. split; [reflexivity | by apply Forall_app].
Qed.

Lemma deliveredBy_after (rt1 rt2 rt3 : Runtime) (r : GenerationResult) :
  onlyFailures rt1 rt2 → deliveredBy rt2 rt3 r → deliveredBy rt1 rt3 r.
Proof.
  intros (e1 & H1 & F1) (e2 & v & i & t & ch & o & H2 & F2).
  exists (e1 ++ e2)%list, v, i, t, ch, o.
  rewrite H2, H1, <- !app_assoc. split; [reflexivity | by apply Forall_app].
Qed.

(** ** Blocks *)

Lemma quiet_logD (d : Diagnostic) : quiet (C := C) (logD d).
Proof. intros c rt. eexists _, _, _. split; reflexivity. Qed.

Lemma safeBlock_none : safeBlock (C := C) (ret None).
Proof.
  intros c rt. exists None, c, rt. split; [reflexivity|].
  by apply onlyFailures_refl.
Qed.

Lemma safeBlock_orElse (b1 b2 : M C (option GenerationResult)) :
  safeBlock b1 → safeBlock b2 → safeBlock (b1 <|> b2).
Proof.
  intros H1 H2 c rt. destruct (H1 c rt) as (o & c1 & rt1 & E1 & P1).
  unfold orElse, bind. rewrite E1. destruct o as [r|].
  - exists (Some r), c1, rt1. split; [reflexivity | exact P1].
  - destruct (H2 c1 rt1) as (o2 & c2 & rt2 & E2 & P2).
    exists o2, c2, rt2. split; [exact E2|]. destruct o2.
    + eapply deliveredBy_after; eauto.
    + eapply onlyFailures_trans; eauto.
Qed.

Lemma alwaysResolves_orFinally (text : string)
    (b : M C (option GenerationResult)) (k : M C GenerationResult) :
  safeBlock b → alwaysResolves text k → alwaysResolves text (b <||> k).
Proof.
  intros H1 H2 c rt. destruct (H1 c rt) as (o & c1 & rt1 & E1 & P1).
  unfold orFinally, bind. rewrite E1. destruct o as [r|].
  - exists r, c1, rt1. split; [reflexivity | by left].
  - destruct (H2 c1 rt1) as (r & c2 & rt2 & E2 & P2).
    exists r, c2, rt2. split; [exact E2|]. destruct P2 as [D | [-> F]].
    + left. eapply deliveredBy_after; eauto.
    + right. split; [reflexivity|]. eapply onlyFailures_trans; eauto.
Qed.

Lemma alwaysResolves_after_quiet (text : string) (m : M C unit)
    (k : M C GenerationResult) :
  quiet m → alwaysResolves text k → alwaysResolves text (m ;; k).
Proof.
  intros Hq Hk c rt. destruct (Hq c rt) as (a & c1 & rt1 & E & T).
  destruct (Hk c1 rt1) as (r & c2 & rt2 & E2 & P2).
  exists r, c2, rt2. unfold_effects. rewrite E. split; [exact E2|].
  destruct P2 as [D | [-> F]].
  - left. eapply deliveredBy_after; [by apply onlyFailures_refl | exact D].
  - right. split; [reflexivity|].
    eapply onlyFailures_trans; [by apply onlyFailures_refl | exact F].
Qed.

Lemma safeBlock_attempt (p : Phase) (v : Vendor) (uk : bool) (getter : M C Instance)
    (text cid : string) (opts : SynthesisOptions) :
  quiet getter → safeBlock (attempt w p v uk getter text cid opts).
Proof.
  intros Hq c rt. unfold attempt. unfold_effects. simpl.
  destruct (Hq c (logged rt [LogUsing p v uk])) as (inst & c1 & rt1 & E & T).
  unfold logged in E. rewrite E.
  destruct (clientGenerateTTS_run v (Some inst) text cid opts c1 rt1) as [out ->].
  destruct out as [r|e]; simpl.
  - eexists (Some r), _, _. split; [reflexivity|].
    exists [], v, (Some inst), text, cid, opts. simpl. rewrite T. simpl.
    split; [reflexivity | constructor].
  - eexists None, _, _. split; [reflexivity|].
    eexists [_]. simpl. rewrite T. simpl. split; [reflexivity|].
    repeat constructor.
Qed.

End Running.

(* ===================================================================== *)
(** * The later manager never throws *)
(* ===================================================================== *)

Section LaterManager.
Context (w : World).

Import UserTTSManager.

Lemma quiet_getInstance (v : Cache) (k : string) (flag : bool) :
  quiet (getInstance v k flag).
Proof.
  intros c rt. rewrite getInstance_run.
  destruct (cacheOf v c !! cacheKey v k flag); eexists _, _, _; split; reflexivity.
Qed.

Lemma safeBlock_nokey (p : Phase) (v : Vendor) (h : JsError → M Fields (option GenerationResult)) :
  safeBlock (tryCatch (logD (LogNoKey p v);; ret None) h).
Proof.
  intros c rt. eexists None, _, _. split; [reflexivity|].
  by apply onlyFailures_refl.
Qed.

Lemma safeBlock_forceCypherGroq user text options :
  safeBlock (forceCypherGroq w user text options).
Proof.
  unfold forceCypherGroq. destruct (String.eqb _ _); [|apply safeBlock_none].
  destruct (truthyKey _) as [k|]; [|apply safeBlock_nokey].
  apply (safeBlock_attempt w Override Groq _ (getInstance GroqCache k false)).
  apply quiet_getInstance.
Qed.

Lemma safeBlock_preferredMyShell user pref text options :
  safeBlock (preferredMyShell w user pref text options).
Proof.
  unfold preferredMyShell. destruct (String.eqb _ _); [|apply safeBlock_none].
  destruct (truthyKey _) as [k|]; [|apply safeBlock_nokey].
  apply (safeBlock_attempt w Preferred MyShell _ (getInstance MyShellCache k true)).
  apply quiet_getInstance.
Qed.

Lemma safeBlock_preferredOpenAI user pref text options :
  safeBlock (preferredOpenAI w user pref text options).
Proof.
  unfold preferredOpenAI. destruct (String.eqb _ _); [|apply safeBlock_none].
  destruct (truthyKey _) as [k|]; [|apply safeBlock_none].
  apply (safeBlock_attempt w Preferred OpenAI _ (getInstance OpenAICache k false)).
  apply quiet_getInstance.
Qed.

Lemma safeBlock_preferredGroq user pref text options :
  safeBlock (preferredGroq w user pref text options).
Proof.
  unfold preferredGroq. destruct (String.eqb _ _); [|apply safeBlock_none].
  destruct (truthyKey _) as [k|]; [|apply safeBlock_nokey].
  apply (safeBlock_attempt w Preferred Groq _ (getInstance GroqCache k false)).
  apply quiet_getInstance.
Qed.

Lemma safeBlock_preferredElevenLabs user pref text options :
  safeBlock (preferredElevenLabs w user pref text options).
Proof.
  unfold preferredElevenLabs. destruct (String.eqb _ _); [|apply safeBlock_none].
  destruct (truthyKey _) as [k|]; [|apply safeBlock_nokey].
  apply (safeBlock_attempt w Preferred ElevenLabs _ (getInstance ElevenLabsCache k false)).
  apply quiet_getInstance.
Qed.

Lemma safeBlock_preferencePhase user pref text options :
  safeBlock (preferencePhase w user pref text options).
Proof.
  unfold preferencePhase.
  repeat apply safeBlock_orElse;
    auto using safeBlock_preferredMyShell, safeBlock_preferredOpenAI,
      safeBlock_preferredGroq, safeBlock_preferredElevenLabs.
Qed.

Lemma safeBlock_systemMyShell text options : safeBlock (systemMyShell w text options).
Proof.
  unfold systemMyShell. destruct (truthyKey _) as [k|]; [|apply safeBlock_none].
  apply (safeBlock_attempt w System MyShell _ (getInstance MyShellCache k true)).
  apply quiet_getInstance.
Qed.

Lemma safeBlock_systemElevenLabs text options : safeBlock (systemElevenLabs w text options).
Proof.
  unfold systemElevenLabs. destruct (truthyKey _) as [k|]; [|apply safeBlock_none].
  apply (safeBlock_attempt w System ElevenLabs _ (getInstance ElevenLabsCache k false)).
  apply quiet_getInstance.
Qed.

Lemma safeBlock_systemGroq text options : safeBlock (systemGroq w text options).
Proof.
  unfold systemGroq. destruct (truthyKey _) as [k|]; [|apply safeBlock_none].
  apply (safeBlock_attempt w System Groq _ (getInstance GroqCache k false)).
  apply quiet_getInstance.
Qed.

Lemma safeBlock_systemOpenAI text options : safeBlock (systemOpenAI w text options).
Proof.
  unfold systemOpenAI. destruct (truthyKey _) as [k|]; [|apply safeBlock_none].
  apply (safeBlock_attempt w System OpenAI _ (getInstance OpenAICache k false)).
  apply quiet_getInstance.
Qed.

Lemma alwaysResolves_silent (text : string) :
  alwaysResolves (C := Fields) text (logD LogSilentMode;; ret (emptyAudio text)).
Proof.
  intros c rt. eexists _, _, _. split; [reflexivity|]. right.
  split; [reflexivity | by apply onlyFailures_refl].
Qed.

Lemma alwaysResolves_useSystemTTS text options :
  alwaysResolves text (useSystemTTS w text options).
Proof.
  unfold useSystemTTS. apply alwaysResolves_after_quiet; [apply quiet_logD|].
  apply alwaysResolves_orFinally; [|apply alwaysResolves_silent].
  repeat apply safeBlock_orElse;
    auto using safeBlock_systemMyShell, safeBlock_systemElevenLabs,
      safeBlock_systemGroq, safeBlock_systemOpenAI.
Qed.

Lemma alwaysResolves_generateTTS text userId options :
  alwaysResolves text (generateTTS w text userId options).
Proof.
  unfold generateTTS. apply alwaysResolves_after_quiet; [apply quiet_logD|].
  destruct (getUser w userId) as [user|].
  - assert (alwaysResolves text
      (logD (LogPrefers userId (default "myshell" (truthyKey (preferredTtsService user))));;
       (forceCypherGroq w user text options
        <|> preferencePhase w user
              (default "myshell" (truthyKey (preferredTtsService user))) text options)
       <||> (logD LogFallingBack;; useSystemTTS w text options))) as H.
    { apply alwaysResolves_after_quiet; [apply quiet_logD|].
      apply alwaysResolves_orFinally.
      - apply safeBlock_orElse;
          auto using safeBlock_forceCypherGroq, safeBlock_preferencePhase.
      - apply alwaysResolves_after_quiet; [apply quiet_logD|].
        apply alwaysResolves_useSystemTTS. }
    intros c rt. destruct (H c rt) as (r & c' & rt' & E & P).
    exists r, c', rt'. unfold tryCatch. simpl in E |- *. rewrite E. auto.
  - intros c rt. eexists _, _, _. split; [reflexivity|]. right.
    split; [reflexivity | by apply onlyFailures_refl].
Qed.

End LaterManager.

(* ===================================================================== *)
(** * The earlier manager never throws *)
(* ===================================================================== *)

Section EarlyManager.
Context (w : World).

Import UserTTSManagerEarly.

Lemma early_getOpenAIInstance_run (k : string) (c : Fields) (rt : Runtime) :
  getOpenAIInstance k (c, rt) =
    match openaiInstances c !! k with
    | Some i => (Normal i, (c, rt))
    | None =>
        let i := built OpenAICache (nextRef rt) k false in
        (Normal i, ({| openaiInstances := <[k := i]> (openaiInstances c);
                       groqInstances := groqInstances c |}, allocated rt))
    end.
Proof.
  unfold getOpenAIInstance, createOpenAITTS, has. unfold_effects. simpl.
  destruct (openaiInstances c !! k) as [i|] eqn:E; simpl; rewrite ?E; [reflexivity|].
  rewrite lookup_insert_eq. reflexivity.
Qed.

Lemma early_getGroqInstance_run (k : string) (c : Fields) (rt : Runtime) :
  getGroqInstance k (c, rt) =
    match groqInstances c !! k with
    | Some i => (Normal i, (c, rt))
    | None =>
        let i := built GroqCache (nextRef rt) k false in
        (Normal i, ({| openaiInstances := openaiInstances c;
                       groqInstances := <[k := i]> (groqInstances c) |}, allocated rt))
    end.
Proof.
  unfold getGroqInstance, createGroqTTS, has. unfold_effects. simpl.
  destruct (groqInstances c !! k) as [i|] eqn:E; simpl; rewrite ?E; [reflexivity|].
  rewrite lookup_insert_eq. reflexivity.
Qed.

Lemma early_quiet_getOpenAIInstance (k : string) : quiet (getOpenAIInstance k).
Proof.
  intros c rt. rewrite early_getOpenAIInstance_run.
  destruct (openaiInstances c !! k); eexists _, _, _; split; reflexivity.
Qed.

Lemma early_quiet_getGroqInstance (k : string) : quiet (getGroqInstance k).
Proof.
  intros c rt. rewrite early_getGroqInstance_run.
  destruct (groqInstances c !! k); eexists _, _, _; split; reflexivity.
Qed.

Lemma early_safeBlock_preferredOpenAI user pref text options :
  safeBlock (preferredOpenAI w user pref text options).
Proof.
  unfold preferredOpenAI. destruct (String.eqb _ _); [|apply safeBlock_none].
  destruct (truthyKey _) as [k|]; [|apply safeBlock_none].
  apply (safeBlock_attempt w Preferred OpenAI _ (getOpenAIInstance k)).
  apply early_quiet_getOpenAIInstance.
Qed.

Lemma early_safeBlock_preferredGroq user pref text options :
  safeBlock (preferredGroq w user pref text options).
Proof.
  unfold preferredGroq. destruct (String.eqb _ _); [|apply safeBlock_none].
  destruct (truthyKey _) as [k|]; [|apply safeBlock_none].
  apply (safeBlock_attempt w Preferred Groq _ (getGroqInstance k)).
  apply early_quiet_getGroqInstance.
Qed.

Lemma early_alwaysResolves_useSystemTTS text options :
  alwaysResolves text (useSystemTTS w text options).
Proof.
  intros c rt. unfold useSystemTTS. unfold_effects. simpl.
  destruct (clientGenerateTTS_run (C := Fields) w Bark None text
              (characterId options) noOptions c
              (logged (logged rt [LogSystemStart]) [LogUsing System Bark false]))
    as [out1 E1].
  unfold logged in E1. simpl in E1. rewrite E1. destruct out1 as [r|e1].
  - eexists _, _, _. split; [reflexivity|]. left.
    exists [], Bark, None, text, (characterId options), noOptions.
    split; [reflexivity | constructor].
  - simpl.
    match goal with
    | |- context [clientGenerateTTS w Typecast None text ?ch ?o (?cc, ?rr)] =>
        destruct (clientGenerateTTS_run (C := Fields) w Typecast None text ch o cc rr)
          as [out2 E2]
    end.
    rewrite E2. destruct out2 as [r|e2].
    + eexists _, _, _. split; [reflexivity|]. left.
      eexists [_], Typecast, None, text, (characterId options), noOptions.
      simpl. rewrite <- app_assoc. split; [reflexivity|]. repeat constructor.
    + eexists _, _, _. split; [reflexivity|]. right. split; [reflexivity|].
      eexists [_; _]. simpl. rewrite <- app_assoc. split; [reflexivity|].
      repeat constructor.
Qed.

Lemma early_alwaysResolves_generateTTS text userId options :
  alwaysResolves text (generateTTS w text userId options).
Proof.
  unfold generateTTS. apply alwaysResolves_after_quiet; [apply quiet_logD|].
  destruct (getUser w userId) as [user|].
  - assert (alwaysResolves text
      (logD (LogPrefers userId (default "system" (truthyKey (preferredTtsService user))));;
       (preferredOpenAI w user
          (default "system" (truthyKey (preferredTtsService user))) text options
        <|> preferredGroq w user
              (default "system" (truthyKey (preferredTtsService user))) text options)
       <||> (logD LogFallingBack;; useSystemTTS w text options))) as H.
    { apply alwaysResolves_after_quiet; [apply quiet_logD|].
      apply alwaysResolves_orFinally.
      - apply safeBlock_orElse;
          auto using early_safeBlock_preferredOpenAI, early_safeBlock_preferredGroq.
      - apply alwaysResolves_after_quiet; [apply quiet_logD|].
        apply early_alwaysResolves_useSystemTTS. }
    intros c rt. destruct (H c rt) as (r & c' & rt' & E & P).
    exists r, c', rt'. unfold tryCatch. simpl in E |- *. rewrite E. auto.
  - intros c rt. eexists _, _, _. split; [reflexivity|]. right.
    split; [reflexivity | by apply onlyFailures_refl].
Qed.

End EarlyManager.

(** C1.  [generateTTS] never throws or rejects, whatever the text, the
    user id, the options, the stored user (or none), the credentials and
    the replies of the vendors: in both variants of the manager it
    resolves to a record [{audioUrl; duration}], which is either what the
    last vendor call delivered or, when every call made has thrown (or
    none was made), the terminal [{audioUrl: ""; duration:
    floor(text.length / 15)}]. *)
Theorem generateTTS_never_throws (w : World) (text userId : string)
    (options : TTSGenerationOptions) :
  (∀ c rt, ∃ r c' rt',
      UserTTSManager.generateTTS w text userId options (c, rt) = (Normal r, (c', rt'))
      ∧ (deliveredBy rt rt' r
         ∨ (r = {| audioUrl := ""; duration := Z.of_nat (String.length text) / 15 |}
            ∧ onlyFailures rt rt')))
  ∧ (∀ c rt, ∃ r c' rt',
      UserTTSManagerEarly.generateTTS w text userId options (c, rt) = (Normal r, (c', rt'))
      ∧ (deliveredBy rt rt' r
         ∨ (r = {| audioUrl := ""; duration := Z.of_nat (String.length text) / 15 |}
            ∧ onlyFailures rt rt'))).
Proof.
  split; intros c rt.
  - apply (alwaysResolves_generateTTS w text userId options c rt).
  - apply (early_alwaysResolves_generateTTS w text userId options c rt).
Qed.

Lemma truthyKey_orStr_none (a b : option string) :
  truthyKey a = None → truthyKey b = None → truthyKey (orStr a b) = None.
Proof.
  unfold orStr, truthyStr, truthyKey. destruct a as [s|]; [|auto].
  destruct (String.eqb s ""); simpl; [auto | discriminate].
Qed.



(** C5, as the code has it.  When [storage.getUser(userId)] finds no
    record, [generateTTS] throws "User not found" inside its outer [try];
    the outer [catch] logs it and returns the empty audio at once.  No
    vendor is attempted, neither a user-specific one nor one of the
    system fallback chain, whatever process-wide keys exist; nothing is
    cached.  Both variants of the manager do so. *)
Theorem generateTTS_absent_user (w : World) (text userId : string)
    (options : TTSGenerationOptions)
    (Habsent : getUser w userId = None) :
  (∀ c rt,
      UserTTSManager.generateTTS w text userId options (c, rt)
      = (Normal (emptyAudio text),
         (c, logged rt [LogGenerating userId (characterId options);
                        LogAllFailed userId {| message := "User not found" |}])))
  ∧ (∀ c rt,
      UserTTSManagerEarly.generateTTS w text userId options (c, rt)
      = (Normal (emptyAudio text),
         (c, logged rt [LogGenerating userId (characterId options);
                        LogAllFailed userId {| message := "User not found" |}]))).
Proof.
  split; intros c rt.
  - unfold UserTTSManager.generateTTS. rewrite Habsent. unfold_effects. simpl.
    unfold logged. simpl. rewrite <- app_assoc. reflexivity.
  - unfold UserTTSManagerEarly.generateTTS. rewrite Habsent. unfold_effects. simpl.
    unfold logged. simpl. rewrite <- app_assoc. reflexivity.
Qed.

Lemma generateTTS_absent_user_witness :
  getUser worldWithoutUsers "missing-user" = None
  ∧ UserTTSManager.generateTTS worldWithoutUsers "test text" "missing-user"
      (plainOptions "silk") (UserTTSManager.newManager, initialRuntime)
    = (Normal (emptyAudio "test text"),
       (UserTTSManager.newManager,
        logged initialRuntime
          [LogGenerating "missing-user" "silk";
           LogAllFailed "missing-user" {| message := "User not found" |}])).
Proof.
  split; [reflexivity|].
  apply (generateTTS_absent_user worldWithoutUsers "test text" "missing-user"
           (plainOptions "silk")).
  reflexivity.
Defined.

(** C5, as claimed, fails.  With no user record, every process-wide key
    set and every vendor healthy, the system fallback chain would deliver
    audio from MyShell; [generateTTS] instead returns the empty audio
    without a single vendor call. *)
Lemma generateTTS_absent_user_skips_system_chain :
  let start := (UserTTSManager.newManager, initialRuntime) in
  let direct :=
    UserTTSManager.useSystemTTS worldWithoutUsers "test text" (plainOptions "silk") start in
  let actual :=
    UserTTSManager.generateTTS worldWithoutUsers "test text" "missing-user"
      (plainOptions "silk") start in
  getUser worldWithoutUsers "missing-user" = None
  ∧ fst direct = Normal sampleAudio
  ∧ length (trace (snd (snd direct))) = 1
  ∧ fst actual = Normal {| audioUrl := ""; duration := 0 |}
  ∧ trace (snd (snd actual)) = []
  ∧ fst actual ≠ fst direct.
Proof.
  vm_compute. repeat split; try reflexivity. discriminate.
Qed.

(* ===================================================================== *)
(** * The blocks of the later manager, equationally *)
(* ===================================================================== *)

Section LaterBlocks.
Context (w : World).

Import UserTTSManager.

Lemma getInstance_ensured (v : Cache) (k : string) (flag : bool) (c : Fields) (rt : Runtime) :
  getInstance v k flag (c, rt)
  = (Normal (fst (ensured v k flag c rt)), snd (ensured v k flag c rt)).
Proof.
  rewrite getInstance_run. unfold ensured.
  destruct (cacheOf v c !! cacheKey v k flag); reflexivity.
Qed.

Lemma ensured_trace (v : Cache) (k : string) (flag : bool) (c : Fields) (rt : Runtime) :
  trace (snd (snd (ensured v k flag c rt))) = trace rt
  ∧ console (snd (snd (ensured v k flag c rt))) = console rt.
Proof. unfold ensured. destruct (cacheOf v c !! _); split; reflexivity. Qed.


Lemma forceCypherGroq_run user text options c rt :
  forceCypherGroq w user text options (c, rt) =
    if String.eqb (characterId options) "cypher" then
      match truthyKey (orStr (groqApiKey user) (env w !! "GROQ_API_KEY")) with
      | Some k =>
          attempt w Override Groq (truthyStr (groqApiKey user))
            (getInstance GroqCache k false) text (characterId options)
            (synthesisOptions options) (c, rt)
      | None => (Normal None, (c, logged rt [LogNoKey Override Groq]))
      end
    else (Normal None, (c, rt)).
Proof.
  unfold forceCypherGroq. destruct (String.eqb _ _); [|reflexivity].
  destruct (truthyKey _); reflexivity.
Qed.

Lemma preferredMyShell_run user pref text options c rt :
  preferredMyShell w user pref text options (c, rt) =
    if String.eqb pref "myshell" then
      match truthyKey (orStr (myshellApiKey user) (env w !! "MYSHELL_API_KEY")) with
      | Some k =>
          attempt w Preferred MyShell (truthyStr (myshellApiKey user))
            (getInstance MyShellCache k true) text (characterId options)
            (synthesisOptions options) (c, rt)
      | None => (Normal None, (c, logged rt [LogNoKey Preferred MyShell]))
      end
    else (Normal None, (c, rt)).
Proof.
  unfold preferredMyShell. destruct (String.eqb _ _); [|reflexivity].
  destruct (truthyKey _); reflexivity.
Qed.

Lemma preferredOpenAI_run user pref text options c rt :
  preferredOpenAI w user pref text options (c, rt) =
    if String.eqb pref "openai" then
      match truthyKey (openaiApiKey user) with
      | Some k =>
          attempt w Preferred OpenAI true
            (getInstance OpenAICache k false) text (characterId options)
            (synthesisOptions options) (c, rt)
      | None => (Normal None, (c, rt))
      end
    else (Normal None, (c, rt)).
Proof.
  unfold preferredOpenAI. destruct (String.eqb _ _); [|reflexivity].
  destruct (truthyKey _); reflexivity.
Qed.

Lemma preferredGroq_run user pref text options c rt :
  preferredGroq w user pref text options (c, rt) =
    if String.eqb pref "groq" then
      match truthyKey (orStr (groqApiKey user) (env w !! "GROQ_API_KEY")) with
      | Some k =>
          attempt w Preferred Groq (truthyStr (groqApiKey user))
            (getInstance GroqCache k false) text (characterId options)
            (synthesisOptions options) (c, rt)
      | None => (Normal None, (c, logged rt [LogNoKey Preferred Groq]))
      end
    else (Normal None, (c, rt)).
Proof.
  unfold preferredGroq. destruct (String.eqb _ _); [|reflexivity].
  destruct (truthyKey _); reflexivity.
Qed.

Lemma preferredElevenLabs_run user pref text options c rt :
  preferredElevenLabs w user pref text options (c, rt) =
    if String.eqb pref "elevenlabs" then
      match truthyKey (orStr (elevenlabsApiKey user) (env w !! "ELEVENLABS_API_KEY")) with
      | Some k =>
          attempt w Preferred ElevenLabs (truthyStr (elevenlabsApiKey user))
            (getInstance ElevenLabsCache k false) text (characterId options)
            (synthesisOptions options) (c, rt)
      | None => (Normal None, (c, logged rt [LogNoKey Preferred ElevenLabs]))
      end
    else (Normal None, (c, rt)).
Proof.
  unfold preferredElevenLabs. destruct (String.eqb _ _); [|reflexivity].
  destruct (truthyKey _); reflexivity.
Qed.

Lemma orElse_run {A} (b1 b2 : M Fields (option A)) (s : Fields * Runtime) :
  (b1 <|> b2) s =
    match b1 s with
    | (Normal (Some v), s') => (Normal (Some v), s')
    | (Normal None, s') => b2 s'
    | (Abrupt e, s') => (Abrupt e, s')
    end.
Proof. unfold orElse, bind. destruct (b1 s) as [[[v|]|e] s']; reflexivity. Qed.

(** With no key anywhere, nothing is attempted. *)
Lemma useSystemTTS_no_keys text options c rt :
  noSystemKeys w →
  useSystemTTS w text options (c, rt)
  = (Normal (emptyAudio text), (c, logged rt [LogSystemStart; LogSilentMode])).
Proof.
  intros (H1 & H2 & H3 & H4).
  unfold useSystemTTS, systemMyShell, systemElevenLabs, systemGroq, systemOpenAI.
  rewrite H1, H2, H3, H4. run_effects. unfold logged. simpl.
  rewrite <- app_assoc. reflexivity.
Qed.

Lemma logged_logged rt a b : logged (logged rt a) b = logged rt (a ++ b)%list.
Proof. unfold logged. simpl. by rewrite app_assoc. Qed.

(** [generateTTS] for a stored user, cut at the end of its user-specific
    blocks. *)
Lemma generateTTS_run (text userId : string) (options : TTSGenerationOptions)
    (user : User) (c : Fields) (rt : Runtime) :
  getUser w userId = Some user →
  let pref := default "myshell" (truthyKey (preferredTtsService user)) in
  generateTTS w text userId options (c, rt) =
    match (forceCypherGroq w user text options
           <|> preferencePhase w user pref text options)
            (c, logged rt [LogGenerating userId (characterId options);
                           LogPrefers userId pref]) with
    | (Normal (Some r), s') => (Normal r, s')
    | (Normal None, (c', rt')) =>
        tryCatch (useSystemTTS w text options)
          (fun error => logD (LogAllFailed userId error);; ret (emptyAudio text))
          (c', logged rt' [LogFallingBack])
    | (Abrupt e, (c', rt')) =>
        (Normal (emptyAudio text), (c', logged rt' [LogAllFailed userId e]))
    end.
Proof.
  intros Huser pref. unfold generateTTS. rewrite Huser. fold pref.
  cbv beta iota zeta delta [mbind M_bind bind tryCatch orFinally logD ret fst snd logged].
  simpl. rewrite <- app_assoc. simpl.
  destruct ((forceCypherGroq w user text options
             <|> preferencePhase w user pref text options) _)
    as [[[r|]|e] [c' rt']]; reflexivity.
Qed.

Lemma forceCypherGroq_no_key user text options c rt :
  truthyKey (orStr (groqApiKey user) (env w !! "GROQ_API_KEY")) = None →
  ∃ rt', forceCypherGroq w user text options (c, rt) = (Normal None, (c, rt'))
         ∧ trace rt' = trace rt ∧ nextRef rt' = nextRef rt.
Proof.
  intros K. rewrite forceCypherGroq_run, K.
  destruct (String.eqb _ _); eexists; split; try reflexivity; split; reflexivity.
Qed.

Lemma preferencePhase_no_key user pref text options c rt :
  noStoredKeys user → noSystemKeys w →
  ∃ rt', preferencePhase w user pref text options (c, rt) = (Normal None, (c, rt'))
         ∧ trace rt' = trace rt ∧ nextRef rt' = nextRef rt.
Proof.
  intros (S1 & S2 & S3 & S4) (E1 & E2 & E3 & E4).
  assert (∀ a name, truthyKey a = None → env w !! name = None →
            truthyKey (orStr a (env w !! name)) = None) as K.
  { intros a name Ha He. apply truthyKey_orStr_none; [exact Ha | by rewrite He]. }
  unfold preferencePhase.
  rewrite !orElse_run, preferredMyShell_run, (K _ _ S1 E1).
  destruct (String.eqb pref "myshell");
    rewrite preferredOpenAI_run, S4;
    (destruct (String.eqb pref "openai"));
    rewrite preferredGroq_run, (K _ _ S3 E3);
    (destruct (String.eqb pref "groq"));
    rewrite preferredElevenLabs_run, (K _ _ S2 E2);
    (destruct (String.eqb pref "elevenlabs"));
    eexists; split; try reflexivity; split; reflexivity.
Qed.

End LaterBlocks.

(** C3.  For a user record that stores no vendor key, and with none of
    MYSHELL_API_KEY, ELEVENLABS_API_KEY, GROQ_API_KEY and OPENAI_API_KEY
    set, [generateTTS] returns exactly [{audioUrl: ""; duration:
    floor(text.length / 15)}] for every text, without invoking any
    provider client: no outside call is made and no client object is
    built or cached. *)
Theorem generateTTS_without_any_key (w : World) (text userId : string)
    (options : TTSGenerationOptions) (user : User)
    (c : UserTTSManager.Fields) (rt : Runtime)
    (Huser : getUser w userId = Some user)
    (Hstored : noStoredKeys user)
    (Hsystem : noSystemKeys w) :
  ∃ rt',
    UserTTSManager.generateTTS w text userId options (c, rt)
    = (Normal {| audioUrl := ""; duration := Z.of_nat (String.length text) / 15 |},
       (c, rt'))
    ∧ trace rt' = trace rt
    ∧ nextRef rt' = nextRef rt.
Proof.
  rewrite (generateTTS_run w text userId options user c rt Huser).
  rewrite orElse_run.
  destruct (forceCypherGroq_no_key w user text options c
              (logged rt [LogGenerating userId (characterId options);
                          LogPrefers userId
                            (default "myshell" (truthyKey (preferredTtsService user)))]))
    as (rt1 & -> & T1 & N1).
  { destruct Hstored as (_ & _ & S3 & _). destruct Hsystem as (_ & _ & E3 & _).
    apply truthyKey_orStr_none; [exact S3 | by rewrite E3]. }
  destruct (preferencePhase_no_key w user
              (default "myshell" (truthyKey (preferredTtsService user)))
              text options c rt1 Hstored Hsystem) as (rt2 & -> & T2 & N2).
  unfold tryCatch. rewrite useSystemTTS_no_keys by exact Hsystem.
  eexists. split; [reflexivity|]. simpl. rewrite T2, T1, N2, N1. split; reflexivity.
Qed.

Lemma generateTTS_without_any_key_witness :
  ∃ rt',
    UserTTSManager.generateTTS worldWithoutKeys "hello there, world" "u1"
      (plainOptions "cypher") (UserTTSManager.newManager, initialRuntime)
    = (Normal {| audioUrl := ""; duration := 1 |}, (UserTTSManager.newManager, rt'))
    ∧ trace rt' = []
    ∧ nextRef rt' = 0.
Proof.
  apply (generateTTS_without_any_key worldWithoutKeys "hello there, world" "u1"
           (plainOptions "cypher") plainUser UserTTSManager.newManager initialRuntime).
  - reflexivity.
  - repeat split.
  - repeat split.
Defined.

(* ===================================================================== *)
(** * Cache keys *)
(* ===================================================================== *)

Lemma list_ascii_of_string_app (a b : string) :
  list_ascii_of_string (a ++ b) = (list_ascii_of_string a ++ list_ascii_of_string b)%list.
Proof. induction a as [|x a IH]; simpl; [reflexivity | by rewrite IH]. Qed.




Lemma wellKeyed_new : wellKeyed UserTTSManager.newManager.
Proof. intros v key i. destruct v; simpl; rewrite lookup_empty; discriminate. Qed.

Lemma cacheOf_setCache (v v' : Cache) (m : gmap string Instance) (c : UserTTSManager.Fields) :
  cacheOf v' (setCache v m c) = if decide (v' = v) then m else cacheOf v' c.
Proof. destruct v, v'; reflexivity. Qed.


Lemma wellKeyed_ensured (v : Cache) (k : string) (flag : bool)
    (c : UserTTSManager.Fields) (rt : Runtime) :
  wellKeyed c → wellKeyed (fst (snd (ensured v k flag c rt))).
Proof.
  intros W. unfold ensured.
  destruct (cacheOf v c !! cacheKey v k flag) as [i|] eqn:E; simpl; [exact W|].
  intros v' key i'. rewrite cacheOf_setCache. destruct (decide (v' = v)) as [->|N].
  - rewrite lookup_insert. destruct (decide (cacheKey v k flag = key)) as [<-|N'].
    + intros [= <-]. simpl. split; [reflexivity|]. by destruct v.
    + apply W.
  - apply W.
Qed.

(* ===================================================================== *)
(** * The character override *)
(* ===================================================================== *)

Section Override.
Context (w : World).

Import UserTTSManager.




End Override.




(* ===================================================================== *)
(** * The preference phase *)
(* ===================================================================== *)

Section Preference.
Context (w : World).

Import UserTTSManager.




End Preference.





(* ===================================================================== *)
(** * The robotic character through the forced vendor *)
(* ===================================================================== *)





(* ===================================================================== *)
(** * The instance cache *)
(* ===================================================================== *)

Lemma cachesOK_new (rt : Runtime) : cachesOK UserTTSManager.newManager rt.
Proof.
  split.
  - intros v k i. destruct v; simpl; rewrite lookup_empty; discriminate.
  - intros v k i v' k' i'. destruct v; simpl; rewrite lookup_empty; discriminate.
Qed.

(** The getters keep the invariant. *)
Lemma cachesOK_ensured (v : Cache) (k : string) (flag : bool)
    (c : UserTTSManager.Fields) (rt : Runtime) :
  cachesOK c rt →
  cachesOK (fst (snd (ensured v k flag c rt))) (snd (snd (ensured v k flag c rt))).
Proof.
  intros [B I]. unfold ensured.
  destruct (cacheOf v c !! cacheKey v k flag) as [i|] eqn:E; simpl; [by split|].
  assert (∀ v1 k1 i1,
            cacheOf v1 (setCache v (<[cacheKey v k flag := built v (nextRef rt) k flag]>
                                      (cacheOf v c)) c) !! k1 = Some i1 →
            (v1 = v ∧ k1 = cacheKey v k flag ∧ instRef i1 = nextRef rt)
            ∨ (cacheOf v1 c !! k1 = Some i1 ∧ instRef i1 < nextRef rt)) as Cases.
  { intros v1 k1 i1. rewrite cacheOf_setCache.
    destruct (decide (v1 = v)) as [->|N]; [|intros H; right; eauto].
    rewrite lookup_insert. destruct (decide (cacheKey v k flag = k1)) as [<-|N'].
    - intros [= <-]. left. auto.
    - intros H. right. eauto. }
  split.
  - intros v1 k1 i1 H. simpl.
    destruct (Cases v1 k1 i1 H) as [(_ & _ & R) | [_ L]]; lia.
  - intros v1 k1 i1 v2 k2 i2 H1 H2 R.
    destruct (Cases v1 k1 i1 H1) as [(-> & -> & R1) | [O1 L1]],
             (Cases v2 k2 i2 H2) as [(-> & -> & R2) | [O2 L2]].
    + auto.
    + lia.
    + lia.
    + eapply I; eauto.
Qed.





Lemma clearUserInstances_run (userId : string)
    (c : UserTTSManager.Fields) (rt : Runtime) :
  UserTTSManager.clearUserInstances userId (c, rt)
  = (Normal tt, (UserTTSManager.newManager, logged rt [LogCleared])).
Proof. reflexivity. Qed.





(* ===================================================================== *)
(** * Testing a stored key *)
(* ===================================================================== *)

Section KeyTest.
Context {C : Type} (w : World).

Lemma clientTestConnection_eq (v : Vendor) (inst : Instance) (c : C) (rt : Runtime) :
  clientTestConnection w v inst (c, rt)
  = (testOutcome w (length (trace rt)) v inst,
     (c, called rt (ConnectionTest v inst (testOutcome w (length (trace rt)) v inst)))).
Proof.
  unfold clientTestConnection, testOutcome, GroqTTSService.testConnection.
  destruct v; run_effects; simpl;
    match goal with |- context [match ?o with Normal _ => _ | Abrupt _ => _ end] =>
      destruct o end; reflexivity.
Qed.

(** A test that never reached a client. *)
Lemma keyTestPost_untouched (userId service : string) (c : C) (rt : Runtime) :
  keyTestPost w userId service c rt false c rt.
Proof.
  repeat split; auto.
Qed.

(** The body of the [openai] test after its getter: one synthesis. *)
Lemma synthesisTest_post (userId service : string) (c c1 : C) (rt rt1 : Runtime)
    (inst : Instance) (user : User) (k : string) :
  getUser w userId = Some user → storedKey user service = Some k →
  trace rt1 = trace rt →
  ∃ b rt',
    tryCatch
      (result ← clientGenerateTTS w OpenAI (Some inst) "Test" "test" noOptions;
       ret (0 <? String.length (audioUrl result))%nat)
      (fun error => logD (LogKeyTestFailed service error);; ret false) (c1, rt1)
    = (Normal b, (c1, rt'))
    ∧ keyTestPost w userId service c rt b c1 rt'.
Proof.
  intros Hu Hk T. unfold tryCatch, mbind, M_bind, bind at 1.
  rewrite clientGenerateTTS_eq, T. unfold clientOutcome.
  destruct (synthesize w (length (trace rt)) OpenAI (Some inst) "Test" "test" noOptions)
    as [r|e] eqn:E.
  - eexists _, _. split; [reflexivity|].
    split; [intros H; congruence|]. split; [intros u H1 H2; congruence|].
    split.
    + simpl. rewrite T. intros ev Hev F. apply app_inv_head in Hev.
      injection Hev as <-. destruct F.
    + intros (S & _ & _). destruct (S OpenAI (Some inst) "Test" "test" noOptions) as [e' E'].
      congruence.
  - eexists _, _. split; [reflexivity|].
    split; [intros H; congruence|]. split; [intros u H1 H2; congruence|]. auto.
Qed.

(** The body of the other tests after their getter: one connection test. *)
Lemma connectionTest_post (userId service : string) (v : Vendor) (c c1 : C)
    (rt rt1 : Runtime) (inst : Instance) (user : User) (k : string) :
  getUser w userId = Some user → storedKey user service = Some k →
  trace rt1 = trace rt →
  ∃ b rt',
    tryCatch (clientTestConnection w v inst)
      (fun error => logD (LogKeyTestFailed service error);; ret false) (c1, rt1)
    = (Normal b, (c1, rt'))
    ∧ keyTestPost w userId service c rt b c1 rt'.
Proof.
  intros Hu Hk T. unfold tryCatch.
  rewrite clientTestConnection_eq, T.
  destruct (testOutcome w (length (trace rt)) v inst) as [b|e] eqn:E.
  - eexists _, _. split; [reflexivity|].
    split; [intros H; congruence|]. split; [intros u H1 H2; congruence|].
    split.
    + simpl. rewrite T. intros ev Hev F. apply app_inv_head in Hev.
      injection Hev as <-. destruct F.
    + intros (_ & S & G). unfold testOutcome in E. destruct v;
        lazymatch type of E with
        | context [groqSpeechCreate w ?n ?i ?r] =>
            destruct (G i r) as [e' E']; rewrite E' in E; congruence
        | testConnectionReply w ?n ?v ?i = _ =>
            destruct (S v i) as [e' E']; congruence
        end.
  - eexists _, _. split; [reflexivity|].
    split; [intros H; congruence|]. split; [intros u H1 H2; congruence|]. auto.
Qed.

End KeyTest.

Section KeyTestLater.
Context (w : World).

Import UserTTSManager.

Lemma testUserAPIKey_post (userId service : string) (c : Fields) (rt : Runtime) :
  ∃ b c' rt',
    testUserAPIKey w userId service (c, rt) = (Normal b, (c', rt'))
    ∧ keyTestPost w userId service c rt b c' rt'.
Proof.
  unfold testUserAPIKey.
  destruct (getUser w userId) as [user|] eqn:Hu;
    [|eexists _, _, _; split; [reflexivity | apply keyTestPost_untouched]].
  assert (∀ v k flag (body : Instance → M Fields bool),
            (∀ inst c1 rt1, trace rt1 = trace rt →
               ∃ b rt', tryCatch (body inst)
                          (fun error => logD (LogKeyTestFailed service error);; ret false)
                          (c1, rt1) = (Normal b, (c1, rt'))
                        ∧ keyTestPost w userId service c rt b c1 rt') →
            ∃ b c' rt',
              tryCatch (instance ← getInstance v k flag; body instance)
                (fun error => logD (LogKeyTestFailed service error);; ret false) (c, rt)
              = (Normal b, (c', rt'))
              ∧ keyTestPost w userId service c rt b c' rt') as Getter.
  { intros v k flag body Hbody.
    pose proof (ensured_trace v k flag c rt) as [T _].
    destruct (Hbody (fst (ensured v k flag c rt)) (fst (snd (ensured v k flag c rt)))
                (snd (snd (ensured v k flag c rt))) T) as (b & rt' & E & P).
    exists b, (fst (snd (ensured v k flag c rt))), rt'. split; [|exact P].
    unfold tryCatch in E |- *. unfold mbind, M_bind, bind at 1.
    rewrite getInstance_ensured.
    destruct (ensured v k flag c rt) as [inst [c1 rt1]]. exact E. }
  unfold storedKey in *.
  destruct (service =? "openai")%string eqn:Eo.
  { destruct (truthyKey (openaiApiKey user)) as [k|] eqn:Ek.
    - apply (Getter OpenAICache k false
               (fun instance =>
                  result ← clientGenerateTTS w OpenAI (Some instance) "Test" "test" noOptions;
                  ret (0 <? String.length (audioUrl result))%nat)).
      intros inst c1 rt1 T.
      apply (synthesisTest_post w userId service c c1 rt rt1 inst user k Hu); [|exact T].
      unfold storedKey. by rewrite Eo.
    - apply String.eqb_eq in Eo as ->. simpl.
      eexists _, _, _; split; [reflexivity | apply keyTestPost_untouched]. }
  destruct (service =? "groq")%string eqn:Eg.
  { destruct (truthyKey (groqApiKey user)) as [k|] eqn:Ek.
    - apply (Getter GroqCache k false (fun instance => clientTestConnection w Groq instance)).
      intros inst c1 rt1 T.
      apply (connectionTest_post w userId service Groq c c1 rt rt1 inst user k Hu);
        [|exact T].
      unfold storedKey. by rewrite Eo, Eg.
    - apply String.eqb_eq in Eg as ->. simpl.
      eexists _, _, _; split; [reflexivity | apply keyTestPost_untouched]. }
  destruct (service =? "elevenlabs")%string eqn:Ee.
  { destruct (truthyKey (elevenlabsApiKey user)) as [k|] eqn:Ek.
    - apply (Getter ElevenLabsCache k false
               (fun instance => clientTestConnection w ElevenLabs instance)).
      intros inst c1 rt1 T.
      apply (connectionTest_post w userId service ElevenLabs c c1 rt rt1 inst user k Hu);
        [|exact T].
      unfold storedKey. by rewrite Eo, Eg, Ee.
    - apply String.eqb_eq in Ee as ->. simpl.
      eexists _, _, _; split; [reflexivity | apply keyTestPost_untouched]. }
  destruct (service =? "myshell")%string eqn:Em.
  { destruct (truthyKey (myshellApiKey user)) as [k|] eqn:Ek.
    - apply (Getter MyShellCache k true
               (fun instance => clientTestConnection w MyShell instance)).
      intros inst c1 rt1 T.
      apply (connectionTest_post w userId service MyShell c c1 rt rt1 inst user k Hu);
        [|exact T].
      unfold storedKey. by rewrite Eo, Eg, Ee, Em.
    - eexists _, _, _; split; [reflexivity | apply keyTestPost_untouched]. }
  eexists _, _, _; split; [reflexivity | apply keyTestPost_untouched].
Qed.

End KeyTestLater.

Section KeyTestEarly.
Context (w : World).

Import UserTTSManagerEarly.

Lemma early_getterTest_post (userId service : string) (c : Fields) (rt : Runtime)
    (getter : M Fields Instance) (body : Instance → M Fields bool) :
  quiet getter →
  (∀ inst c1 rt1, trace rt1 = trace rt →
     ∃ b rt', tryCatch (body inst)
                (fun error => logD (LogKeyTestFailed service error);; ret false)
                (c1, rt1) = (Normal b, (c1, rt'))
              ∧ keyTestPost w userId service c rt b c1 rt') →
  ∃ b c' rt',
    tryCatch (instance ← getter; body instance)
      (fun error => logD (LogKeyTestFailed service error);; ret false) (c, rt)
    = (Normal b, (c', rt'))
    ∧ keyTestPost w userId service c rt b c' rt'.
Proof.
  intros Hq Hbody. destruct (Hq c rt) as (inst & c1 & rt1 & E1 & T).
  destruct (Hbody inst c1 rt1 T) as (b & rt' & E & P).
  exists b, c1, rt'. split; [|exact P].
  unfold tryCatch in E |- *. unfold mbind, M_bind, bind at 1. rewrite E1. exact E.
Qed.

Lemma early_testUserAPIKey_post (userId service : string) (c : Fields) (rt : Runtime) :
  ∃ b c' rt',
    testUserAPIKey w userId service (c, rt) = (Normal b, (c', rt'))
    ∧ keyTestPost w userId service c rt b c' rt'.
Proof.
  unfold testUserAPIKey.
  destruct (getUser w userId) as [user|] eqn:Hu;
    [|eexists _, _, _; split; [reflexivity | apply keyTestPost_untouched]].
  destruct (service =? "openai")%string eqn:Eo.
  { destruct (truthyKey (openaiApiKey user)) as [k|] eqn:Ek.
    - apply (early_getterTest_post userId service c rt (getOpenAIInstance k)
               (fun instance =>
                  result ← clientGenerateTTS w OpenAI (Some instance) "Test" "test" noOptions;
                  ret (0 <? String.length (audioUrl result))%nat));
        [apply early_quiet_getOpenAIInstance|].
      intros inst c1 rt1 T.
      apply (synthesisTest_post w userId service c c1 rt rt1 inst user k Hu); [|exact T].
      unfold storedKey. by rewrite Eo.
    - apply String.eqb_eq in Eo as ->. simpl.
      eexists _, _, _; split; [reflexivity | apply keyTestPost_untouched]. }
  destruct (service =? "groq")%string eqn:Eg.
  { destruct (truthyKey (groqApiKey user)) as [k|] eqn:Ek.
    - apply (early_getterTest_post userId service c rt (getGroqInstance k)
               (fun instance => clientTestConnection w Groq instance));
        [apply early_quiet_getGroqInstance|].
      intros inst c1 rt1 T.
      apply (connectionTest_post w userId service Groq c c1 rt rt1 inst user k Hu);
        [|exact T].
      unfold storedKey. by rewrite Eo, Eg.
    - eexists _, _, _; split; [reflexivity | apply keyTestPost_untouched]. }
  eexists _, _, _; split; [reflexivity | apply keyTestPost_untouched].
Qed.

End KeyTestEarly.

(** C10, as the code has it.  In both variants of the manager the lookup
    [storage.getUser(userId)] is awaited before the [try].  Whenever it
    resolves, [testUserAPIKey] does not throw, for every user id and
    service name: it resolves to a boolean, which is [false], with
    nothing called and nothing changed, when the user record is absent,
    and likewise when the user stores no key for the requested service,
    whatever process-wide keys the environment holds; and which is
    [false] whenever the provider call it makes throws.  When the lookup
    rejects, [testUserAPIKey] rejects with the same error, and nothing is
    called or changed. *)
Theorem testUserAPIKey_throws_only_with_lookup (w : World) (lookup : Completion unit)
    (userId service : string) :
  (∀ c rt,
     match lookup with
     | Normal _ =>
         ∃ b c' rt',
           testUserAPIKeyFrom w lookup userId service (c, rt) = (Normal b, (c', rt'))
           ∧ keyTestPost w userId service c rt b c' rt'
     | Abrupt e => testUserAPIKeyFrom w lookup userId service (c, rt) = (Abrupt e, (c, rt))
     end)
  ∧ (∀ c rt,
       match lookup with
       | Normal _ =>
           ∃ b c' rt',
             earlyTestUserAPIKeyFrom w lookup userId service (c, rt)
             = (Normal b, (c', rt'))
             ∧ keyTestPost w userId service c rt b c' rt'
       | Abrupt e =>
           earlyTestUserAPIKeyFrom w lookup userId service (c, rt) = (Abrupt e, (c, rt))
       end).
Proof.
  split; intros c rt; destruct lookup as [[]|e]; try reflexivity.
  - apply testUserAPIKey_post.
  - apply early_testUserAPIKey_post.
Qed.

(** C10, as claimed, fails when the lookup rejects.  Both variants then
    reject with the error of the storage, although the user exists and
    the service is one the method knows. *)
Lemma testUserAPIKey_rejects_with_lookup :
  getUser worldOwnerDown "u1" = Some openaiOwner
  ∧ testUserAPIKeyFrom worldOwnerDown (Abrupt storageDown) "u1" "openai"
      (UserTTSManager.newManager, initialRuntime)
    = (Abrupt storageDown, (UserTTSManager.newManager, initialRuntime))
  ∧ earlyTestUserAPIKeyFrom worldOwnerDown (Abrupt storageDown) "u1" "openai"
      (UserTTSManagerEarly.newManager, initialRuntime)
    = (Abrupt storageDown, (UserTTSManagerEarly.newManager, initialRuntime)).
Proof. repeat split; reflexivity. Qed.

(* ===================================================================== *)
(** * The speed of the Groq client *)
(* ===================================================================== *)

Section Binary64.

(** ** Rounding never produces NaN *)

Lemma shr_1_nonneg (mrs : shr_record) : (0 ≤ shr_m mrs)%Z → (0 ≤ shr_m (shr_1 mrs))%Z.
Proof.
  destruct mrs as [m r s]. simpl. destruct m as [|p|p]; [simpl; lia | | lia].
  destruct p; simpl; lia.
Qed.

Lemma iter_shr_1_nonneg (p : positive) (mrs : shr_record) :
  (0 ≤ shr_m mrs)%Z → (0 ≤ shr_m (SpecFloat.iter_pos shr_1 p mrs))%Z.
Proof.
  revert mrs. induction p as [p IH|p IH|]; intros mrs H; simpl.
  - apply IH, IH, shr_1_nonneg, H.
  - apply IH, IH, H.
  - apply shr_1_nonneg, H.
Qed.

Lemma shr_fexp_nonneg (m e : Z) (l : location) :
  (0 ≤ m)%Z → (0 ≤ shr_m (fst (shr_fexp Number.prec Number.emax m e l)))%Z.
Proof.
  intros H. unfold shr_fexp, shr.
  assert (0 ≤ shr_m (shr_record_of_loc m l))%Z as H0
    by (destruct l as [|[]]; simpl; exact H).
  destruct (fexp Number.prec Number.emax (Zdigits2 m + e) - e)%Z; simpl; auto.
  by apply iter_shr_1_nonneg.
Qed.

Lemma round_nearest_even_nonneg (m : Z) (l : location) :
  (0 ≤ m)%Z → (0 ≤ round_nearest_even m l)%Z.
Proof.
  intros H. unfold round_nearest_even. destruct l as [|[]]; try lia.
  destruct (Z.even m); lia.
Qed.

Lemma binary_round_aux_not_NaN (s : bool) (m e : Z) (l : location) :
  (0 ≤ m)%Z → Number.isNaN (binary_round_aux Number.prec Number.emax s m e l) = false.
Proof.
  intros H. unfold binary_round_aux.
  pose proof (shr_fexp_nonneg m e l H) as H1.
  destruct (shr_fexp Number.prec Number.emax m e l) as [mrs' e'].
  simpl in H1.
  pose proof (shr_fexp_nonneg
                (round_nearest_even (shr_m mrs') (loc_of_shr_record mrs')) e' loc_Exact
                (round_nearest_even_nonneg _ _ H1)) as H2.
  destruct (shr_fexp Number.prec Number.emax _ e' loc_Exact) as [mrs'' e''].
  simpl in H2. destruct (shr_m mrs'') as [|p|p]; [reflexivity | | lia].
  destruct (e'' <=? Number.emax - Number.prec)%Z; reflexivity.
Qed.

(** A finite factor times anything but NaN is not NaN. *)
Lemma mul_finite_not_NaN (s : bool) (m : positive) (e : Z) (y : number) :
  Number.isNaN y = false → Number.isNaN (Number.mul (S754_finite s m e) y) = false.
Proof.
  intros H. unfold Number.mul, SFmul. destruct y; try reflexivity; [discriminate|].
  apply binary_round_aux_not_NaN. lia.
Qed.

(** ** Comparison *)

Lemma SFcompare_swap (x y : number) :
  SFcompare y x = option_map CompOpp (SFcompare x y).
Proof.
  destruct x as [sx|sx| |sx mx ex], y as [sy|sy| |sy my ey]; simpl;
    try reflexivity;
    try (destruct sx; reflexivity); try (destruct sy; reflexivity);
    try (destruct sx, sy; reflexivity).
  destruct sx, sy; simpl; try reflexivity.
  - rewrite (Z.compare_antisym ex ey). destruct (ex ?= ey)%Z; simpl; try reflexivity.
    rewrite CompOpp_involutive. f_equal.
    exact (Pos.compare_cont_antisym my mx Eq).
  - rewrite (Z.compare_antisym ex ey). destruct (ex ?= ey)%Z; simpl; try reflexivity.
    f_equal. symmetry. exact (Pos.compare_cont_antisym mx my Eq).
Qed.

Lemma SFcompare_defined (x y : number) :
  Number.isNaN x = false → Number.isNaN y = false → ∃ o, SFcompare x y = Some o.
Proof.
  destruct x, y; simpl; try discriminate; eauto.
Qed.

(** ** The clamp *)

Lemma clamp_within (x : number) :
  Number.isNaN x = false →
  SpeedSpec.within (SpeedSpec.clamp x (Number.lit 5 10) (Number.lit 2 1))
    (Number.lit 5 10) (Number.lit 2 1).
Proof.
  intros Hx. unfold SpeedSpec.clamp, SpeedSpec.within, Number.leb, SFleb.
  assert (Number.lit 2 1 = S754_finite false 4503599627370496 (-51)) as E2
    by (vm_compute; reflexivity).
  assert (Number.lit 5 10 = S754_finite false 4503599627370496 (-53)) as E5
    by (vm_compute; reflexivity).
  rewrite E2, E5.
  set (two := S754_finite false 4503599627370496 (-51)).
  set (half := S754_finite false 4503599627370496 (-53)).
  assert (SFcompare half two = Some Lt) as Hht by reflexivity.
  assert (SFcompare two two = Some Eq) as Htt by reflexivity.
  assert (SFcompare half half = Some Eq) as Hhh by reflexivity.
  destruct (SFcompare_defined two x eq_refl Hx) as [o Ho].
  unfold Number.Math_min. rewrite Ho.
  assert (Number.Math_max half two = two) as Mtwo by reflexivity.
  destruct o.
  - change (match two with S754_zero _ => _ | _ => two end) with two.
    rewrite Mtwo, Hht, Htt. auto.
  - rewrite Mtwo, Hht, Htt. auto.
  - destruct (SFcompare_defined half x eq_refl Hx) as [o' Ho'].
    unfold Number.Math_max. rewrite Ho'.
    pose proof (SFcompare_swap two x) as Sw. rewrite Ho in Sw. simpl in Sw.
    destruct o'.
    + change (match half with S754_zero _ => _ | _ => half end) with half.
      rewrite Hhh, Hht. auto.
    + rewrite Ho', Sw. auto.
    + rewrite Hhh, Hht. auto.
Qed.

Lemma clamp_NaN (lo hi : number) : SpeedSpec.clamp Number.NaN lo hi = Number.NaN.
Proof.
  unfold SpeedSpec.clamp, Number.Math_min, Number.Math_max.
  destruct hi; simpl; destruct lo; reflexivity.
Qed.

End Binary64.

Section Speed.

Import GroqTTSService.

Lemma baseSpeed_own (characterId : string) :
  inheritedName characterId = false →
  toNumber (jsOr (objGet characterSpeeds characterId) (JsNum (Number.lit 1 1)))
  = SpeedSpec.baseSpeedForCharacter characterId.
Proof.
  intros H. unfold SpeedSpec.baseSpeedForCharacter, SpeedSpec.numberEntry, objGet,
    characterSpeeds.
  cbn [ownProperty]. rewrite H.
  repeat match goal with |- context [String.eqb ?a characterId] =>
    destruct (String.eqb a characterId) end; reflexivity.
Qed.

Lemma styleModifier_own (voiceStyle : option string) :
  (∀ style, truthyKey voiceStyle = Some style → inheritedName style = false) →
  toNumber (jsOr (objGet styleModifiers (default "confident" (truthyKey voiceStyle)))
                 (JsNum (Number.lit 1 1)))
  = SpeedSpec.styleModifier voiceStyle.
Proof.
  intros H. unfold SpeedSpec.styleModifier.
  destruct (truthyKey voiceStyle) as [style|]; [|reflexivity].
  specialize (H style eq_refl). simpl default.
  unfold SpeedSpec.numberEntry, objGet, styleModifiers.
  cbn [ownProperty]. rewrite H.
  repeat match goal with |- context [String.eqb ?a style] =>
    destruct (String.eqb a style) end; reflexivity.
Qed.

(** The product of the two table factors is a finite number. *)
Lemma factors_finite (characterId : string) (voiceStyle : option string) :
  ∃ s m e,
    Number.mul (SpeedSpec.baseSpeedForCharacter characterId)
               (SpeedSpec.styleModifier voiceStyle)
    = S754_finite s m e.
Proof.
  unfold SpeedSpec.baseSpeedForCharacter, SpeedSpec.styleModifier,
    SpeedSpec.numberEntry, characterSpeeds, styleModifiers.
  cbn [ownProperty].
  destruct (truthyKey voiceStyle) as [style|];
    repeat match goal with |- context [String.eqb ?a ?b] =>
      destruct (String.eqb a b) end;
    eexists _, _, _; vm_compute; reflexivity.
Qed.

End Speed.

(** C9, as the code has it.  For every [characterId] and [voiceStyle]
    that do not name a member inherited from [Object.prototype], and
    every [speedMultiplier], the speed the Groq client computes is
    [clamp(baseSpeedForCharacter * styleModifier * speedMultiplier, 0.5,
    2.0)], where the base speed is 1.0 for a character outside the
    table, the style modifier 1.0 for an absent or unknown style, and
    the multiplier 1.0 when absent.  When the multiplier is a number
    other than NaN the result lies in the closed interval [0.5, 2.0];
    when it is NaN the result is NaN. *)
Theorem calculateDynamicSpeed_clamps (characterId : string) (voiceStyle : option string)
    (speedMultiplier : option number)
    (Hcharacter : inheritedName characterId = false)
    (Hstyle : ∀ style, truthyKey voiceStyle = Some style → inheritedName style = false) :
  let multiplier := default (Number.lit 1 1) speedMultiplier in
  let result := GroqTTSService.calculateDynamicSpeed characterId voiceStyle speedMultiplier in
  result = SpeedSpec.finalSpeed characterId voiceStyle speedMultiplier
  ∧ (Number.isNaN multiplier = false →
     SpeedSpec.within result (Number.lit 5 10) (Number.lit 2 1))
  ∧ (Number.isNaN multiplier = true → result = Number.NaN).
Proof.
  intros multiplier result.
  assert (result = SpeedSpec.finalSpeed characterId voiceStyle speedMultiplier) as E.
  { unfold result, GroqTTSService.calculateDynamicSpeed, SpeedSpec.finalSpeed,
      SpeedSpec.clamp.
    rewrite (baseSpeed_own characterId Hcharacter), (styleModifier_own voiceStyle Hstyle).
    reflexivity. }
  split; [exact E|]. rewrite E. unfold SpeedSpec.finalSpeed. fold multiplier.
  destruct (factors_finite characterId voiceStyle) as (s & m & e & ->).
  split; intros H.
  - apply clamp_within, mul_finite_not_NaN, H.
  - destruct multiplier; try discriminate. apply clamp_NaN.
Qed.

Lemma calculateDynamicSpeed_clamps_witness :
  GroqTTSService.calculateDynamicSpeed "cypher" (Some "aggressive") (Some (Number.lit 3 1))
  = Number.lit 2 1
  ∧ SpeedSpec.within
      (GroqTTSService.calculateDynamicSpeed "cypher" (Some "aggressive")
         (Some (Number.lit 3 1)))
      (Number.lit 5 10) (Number.lit 2 1).
Proof.
  split; [vm_compute; reflexivity|].
  destruct (calculateDynamicSpeed_clamps "cypher" (Some "aggressive")
              (Some (Number.lit 3 1))) as (_ & H & _).
  - reflexivity.
  - intros style [= <-]. reflexivity.
  - apply H. reflexivity.
Defined.

(** C9, as claimed, fails.  A NaN multiplier passes through
    [Math.min] and [Math.max]: the speed is NaN, outside [0.5, 2.0].  And
    the character id ["constructor"] is outside the table, yet its base
    speed is not 1.0: the lookup finds [Object.prototype.constructor], a
    function, and the speed is NaN where the formula gives 1.0. *)
Lemma calculateDynamicSpeed_can_be_NaN :
  GroqTTSService.calculateDynamicSpeed "silk" (Some "confident") (Some Number.NaN)
  = Number.NaN
  ∧ ¬ SpeedSpec.within
        (GroqTTSService.calculateDynamicSpeed "silk" (Some "confident") (Some Number.NaN))
        (Number.lit 5 10) (Number.lit 2 1)
  ∧ ownProperty GroqTTSService.characterSpeeds "constructor" = None
  ∧ GroqTTSService.calculateDynamicSpeed "constructor" None None = Number.NaN
  ∧ SpeedSpec.finalSpeed "constructor" None None = Number.lit 1 1.
Proof.
  split; [vm_compute; reflexivity|].
  split; [intros [H _]; vm_compute in H; discriminate|].
  split; [reflexivity|].
  split; vm_compute; reflexivity.
Qed.

(* ===================================================================== *)
(** * The cache invariant is kept *)
(* ===================================================================== *)

Section Invariant.
Context (w : World).

Import UserTTSManager.

Lemma cacheInvariant_new (rt : Runtime) : cacheInvariant newManager rt.
Proof. split; [apply cachesOK_new | apply wellKeyed_new]. Qed.

Lemma cacheInvariant_nextRef c rt rt' :
  nextRef rt' = nextRef rt → cacheInvariant c rt → cacheInvariant c rt'.
Proof.
  intros N [[B I] W]. split; [split|]; auto.
  intros v k i H. rewrite N. eauto.
Qed.

Lemma keeps_ret {A} (a : A) : keeps (ret a).
Proof. intros c rt H. exact H. Qed.

Lemma keeps_throw {A} (e : JsError) : keeps (throw (A := A) e).
Proof. intros c rt H. exact H. Qed.

Lemma keeps_bind {A B} (m : M Fields A) (k : A → M Fields B) :
  keeps m → (∀ a, keeps (k a)) → keeps (bind m k).
Proof.
  intros Hm Hk c rt H. specialize (Hm c rt H). unfold bind.
  destruct (m (c, rt)) as [[a|e] [c' rt']]; simpl in *; [by apply Hk | exact Hm].
Qed.

Lemma keeps_tryCatch {A} (m : M Fields A) (h : JsError → M Fields A) :
  keeps m → (∀ e, keeps (h e)) → keeps (tryCatch m h).
Proof.
  intros Hm Hh c rt H. specialize (Hm c rt H). unfold tryCatch.
  destruct (m (c, rt)) as [[a|e] [c' rt']]; simpl in *; [exact Hm | by apply Hh].
Qed.

Lemma keeps_logD (d : Diagnostic) : keeps (logD d).
Proof. intros c rt H. by apply (cacheInvariant_nextRef c rt). Qed.

Lemma keeps_getInstance (v : Cache) (k : string) (flag : bool) :
  keeps (getInstance v k flag).
Proof.
  intros c rt [H W]. rewrite getInstance_ensured. simpl.
  split; [by apply cachesOK_ensured | by apply wellKeyed_ensured].
Qed.

Lemma keeps_clientGenerateTTS v inst text cid opts :
  keeps (clientGenerateTTS w v inst text cid opts).
Proof.
  intros c rt H. rewrite clientGenerateTTS_eq. simpl.
  by apply (cacheInvariant_nextRef c rt).
Qed.

Lemma keeps_clientTestConnection v inst : keeps (clientTestConnection w v inst).
Proof.
  intros c rt H. rewrite clientTestConnection_eq. simpl.
  by apply (cacheInvariant_nextRef c rt).
Qed.

Lemma keeps_clearUserInstances (userId : string) : keeps (clearUserInstances userId).
Proof. intros c rt H. rewrite clearUserInstances_run. apply cacheInvariant_new. Qed.

Ltac keeps_step :=
  lazymatch goal with
  | |- keeps (bind _ _) => apply keeps_bind; [|intros ?]
  | |- keeps (tryCatch _ _) => apply keeps_tryCatch; [|intros ?]
  | |- keeps (ret _) => apply keeps_ret
  | |- keeps (throw _) => apply keeps_throw
  | |- keeps (logD _) => apply keeps_logD
  | |- keeps (clientGenerateTTS _ _ _ _ _ _) => apply keeps_clientGenerateTTS
  | |- keeps (clientTestConnection _ _ _) => apply keeps_clientTestConnection
  | |- keeps (getOpenAIInstance ?k) => apply (keeps_getInstance OpenAICache k false)
  | |- keeps (getGroqInstance ?k) => apply (keeps_getInstance GroqCache k false)
  | |- keeps (getElevenLabsInstance ?k) => apply (keeps_getInstance ElevenLabsCache k false)
  | |- keeps (getMyShellInstance ?k ?f) => apply (keeps_getInstance MyShellCache k f)
  | |- keeps (match ?x with _ => _ end) => destruct x
  end.

Ltac keeps_all :=
  unfold mbind, M_bind, orElse, orFinally; repeat keeps_step.

(** Every method of the later manager keeps the invariant of its caches:
    it holds in every state the manager can reach. *)
Lemma keeps_generateTTS text userId options : keeps (generateTTS w text userId options).
Proof.
  unfold generateTTS, useSystemTTS, preferencePhase, forceCypherGroq, preferredMyShell,
    preferredOpenAI, preferredGroq, preferredElevenLabs, systemMyShell, systemElevenLabs,
    systemGroq, systemOpenAI.
  keeps_all.
Qed.

Lemma keeps_testUserAPIKey userId service : keeps (testUserAPIKey w userId service).
Proof. unfold testUserAPIKey. keeps_all. Qed.

End Invariant.

(* ===================================================================== *)
(** * What a run leaves behind *)
(* ===================================================================== *)

Section RespectLaws.
Context {C : Type} (R : C * Runtime → C * Runtime → Prop).
Hypothesis R_refl : ∀ s, R s s.
Hypothesis R_trans : ∀ s1 s2 s3, R s1 s2 → R s2 s3 → R s1 s3.

Lemma respects_ret {A} (a : A) : respects R (ret a).
Proof. intros s. apply R_refl. Qed.

Lemma respects_throw {A} (e : JsError) : respects R (throw (A := A) e).
Proof. intros s. apply R_refl. Qed.

Lemma respects_bind {A B} (m : M C A) (k : A → M C B) :
  respects R m → (∀ a, respects R (k a)) → respects R (bind m k).
Proof.
  intros Hm Hk s. specialize (Hm s). unfold bind.
  destruct (m s) as [[a|e] s']; simpl in *; [|exact Hm].
  eapply R_trans; [exact Hm | apply Hk].
Qed.

Lemma respects_tryCatch {A} (m : M C A) (h : JsError → M C A) :
  respects R m → (∀ e, respects R (h e)) → respects R (tryCatch m h).
Proof.
  intros Hm Hh s. specialize (Hm s). unfold tryCatch.
  destruct (m s) as [[a|e] s']; simpl in *; [exact Hm|].
  eapply R_trans; [exact Hm | apply Hh].
Qed.

End RespectLaws.

Section CallLaws.
Context {C : Type}.

Lemma callsOnly_refl (P : Event → Prop) (s : C * Runtime) : callsOnly P s s.
Proof. exists []. rewrite app_nil_r. split; [reflexivity | constructor]. Qed.

Lemma callsOnly_trans (P : Event → Prop) (s1 s2 s3 : C * Runtime) :
  callsOnly P s1 s2 → callsOnly P s2 s3 → callsOnly P s1 s3.
Proof.
  intros (e1 & H1 & F1) (e2 & H2 & F2). exists (e1 ++ e2)%list.
  rewrite H2, H1, <- app_assoc. split; [reflexivity | by apply Forall_app].
Qed.

Lemma respects_calls_quiet (P : Event → Prop) {A} (m : M C A) :
  quiet m → respects (callsOnly P) m.
Proof.
  intros Q [c rt]. destruct (Q c rt) as (a & c' & rt' & -> & T). simpl.
  exists []. rewrite app_nil_r. split; [exact T | constructor].
Qed.

Lemma respects_calls_synthesis (w : World) (P : Event → Prop) v inst text cid opts :
  (∀ out, P (Synthesis v inst text cid opts out)) →
  respects (callsOnly P) (clientGenerateTTS (C := C) w v inst text cid opts).
Proof.
  intros HP [c rt]. rewrite clientGenerateTTS_eq. simpl.
  eexists [_]. split; [reflexivity|]. constructor; [apply HP | constructor].
Qed.

End CallLaws.

Ltac respects_step refl trans base :=
  lazymatch goal with
  | |- respects _ (bind _ _) => apply (respects_bind _ trans); [|intros ?]
  | |- respects _ (tryCatch _ _) => apply (respects_tryCatch _ trans); [|intros ?]
  | |- respects _ (ret _) => apply (respects_ret _ refl)
  | |- respects _ (throw _) => apply (respects_throw _ refl)
  | |- respects _ (match ?x with _ => _ end) => destruct x
  | |- respects _ (if ?x then _ else _) => destruct x
  | |- _ => base
  end.

Ltac respects_all refl trans base :=
  unfold mbind, M_bind, orElse, orFinally; repeat respects_step refl trans base.

Section Forwarding.
Context (w : World).

Ltac calls_base :=
  idtac;
  lazymatch goal with
  | |- respects _ (logD _) => apply respects_calls_quiet, quiet_logD
  | |- respects _ (UserTTSManager.getOpenAIInstance ?k) =>
      apply respects_calls_quiet, (quiet_getInstance OpenAICache k false)
  | |- respects _ (UserTTSManager.getGroqInstance ?k) =>
      apply respects_calls_quiet, (quiet_getInstance GroqCache k false)
  | |- respects _ (UserTTSManager.getElevenLabsInstance ?k) =>
      apply respects_calls_quiet, (quiet_getInstance ElevenLabsCache k false)
  | |- respects _ (UserTTSManager.getMyShellInstance ?k ?f) =>
      apply respects_calls_quiet, (quiet_getInstance MyShellCache k f)
  | |- respects _ (UserTTSManagerEarly.getOpenAIInstance ?k) =>
      apply respects_calls_quiet, early_quiet_getOpenAIInstance
  | |- respects _ (UserTTSManagerEarly.getGroqInstance ?k) =>
      apply respects_calls_quiet, early_quiet_getGroqInstance
  | |- respects _ (clientGenerateTTS _ _ _ _ _ _) =>
      apply respects_calls_synthesis; intros ?; unfold sameRequest, sameText; eauto 6
  end.

Lemma respects_calls_generateTTS text userId options :
  respects (callsOnly (sameRequest text (characterId options) (synthesisOptions options)))
           (UserTTSManager.generateTTS w text userId options).
Proof.
  unfold UserTTSManager.generateTTS, UserTTSManager.useSystemTTS,
    UserTTSManager.preferencePhase, UserTTSManager.forceCypherGroq,
    UserTTSManager.preferredMyShell, UserTTSManager.preferredOpenAI,
    UserTTSManager.preferredGroq, UserTTSManager.preferredElevenLabs,
    UserTTSManager.systemMyShell, UserTTSManager.systemElevenLabs,
    UserTTSManager.systemGroq, UserTTSManager.systemOpenAI.
  respects_all (callsOnly_refl (C := UserTTSManager.Fields)
                  (sameRequest text (characterId options) (synthesisOptions options)))
               (callsOnly_trans (C := UserTTSManager.Fields)
                  (sameRequest text (characterId options) (synthesisOptions options)))
               calls_base.
Qed.

Lemma early_respects_calls_generateTTS text userId options :
  respects (callsOnly (sameText text (characterId options)))
           (UserTTSManagerEarly.generateTTS w text userId options).
Proof.
  unfold UserTTSManagerEarly.generateTTS, UserTTSManagerEarly.useSystemTTS,
    UserTTSManagerEarly.preferredOpenAI, UserTTSManagerEarly.preferredGroq.
  respects_all (callsOnly_refl (C := UserTTSManagerEarly.Fields)
                  (sameText text (characterId options)))
               (callsOnly_trans (C := UserTTSManagerEarly.Fields)
                  (sameText text (characterId options)))
               calls_base.
Qed.

End Forwarding.

Section Growing.
Context (w : World).

Import UserTTSManager.

Lemma cachesGrow_refl (s : Fields * Runtime) : cachesGrow s s.
Proof. intros v key i H. exact H. Qed.

Lemma cachesGrow_trans (s1 s2 s3 : Fields * Runtime) :
  cachesGrow s1 s2 → cachesGrow s2 s3 → cachesGrow s1 s3.
Proof. intros H1 H2 v key i H. by apply H2, H1. Qed.

Lemma cachesGrow_same (s s' : Fields * Runtime) : fst s' = fst s → cachesGrow s s'.
Proof. intros E v key i H. by rewrite E. Qed.

Lemma respects_grow_logD (d : Diagnostic) : respects cachesGrow (logD (C := Fields) d).
Proof. intros s. by apply cachesGrow_same. Qed.

Lemma respects_grow_synthesis v inst text cid opts :
  respects cachesGrow (clientGenerateTTS (C := Fields) w v inst text cid opts).
Proof. intros [c rt]. rewrite clientGenerateTTS_eq. by apply cachesGrow_same. Qed.

Lemma respects_grow_connection v inst :
  respects cachesGrow (clientTestConnection (C := Fields) w v inst).
Proof. intros [c rt]. rewrite clientTestConnection_eq. by apply cachesGrow_same. Qed.

Lemma respects_grow_getInstance (v : Cache) (k : string) (flag : bool) :
  respects cachesGrow (getInstance v k flag).
Proof.
  intros [c rt]. rewrite getInstance_run.
  destruct (cacheOf v c !! cacheKey v k flag) as [i|] eqn:E; simpl.
  - apply cachesGrow_refl.
  - intros v' key i'. simpl. rewrite cacheOf_setCache.
    destruct (decide (v' = v)) as [->|N]; [|auto].
    intros H. rewrite lookup_insert_ne; [exact H|]. intros <-. congruence.
Qed.

Ltac grow_base :=
  idtac;
  lazymatch goal with
  | |- respects _ (logD _) => apply respects_grow_logD
  | |- respects _ (getOpenAIInstance ?k) =>
      apply (respects_grow_getInstance OpenAICache k false)
  | |- respects _ (getGroqInstance ?k) =>
      apply (respects_grow_getInstance GroqCache k false)
  | |- respects _ (getElevenLabsInstance ?k) =>
      apply (respects_grow_getInstance ElevenLabsCache k false)
  | |- respects _ (getMyShellInstance ?k ?f) =>
      apply (respects_grow_getInstance MyShellCache k f)
  | |- respects _ (clientGenerateTTS _ _ _ _ _ _) => apply respects_grow_synthesis
  | |- respects _ (clientTestConnection _ _ _) => apply respects_grow_connection
  end.

Lemma respects_grow_generateTTS text userId options :
  respects cachesGrow (generateTTS w text userId options).
Proof.
  unfold generateTTS, useSystemTTS, preferencePhase, forceCypherGroq, preferredMyShell,
    preferredOpenAI, preferredGroq, preferredElevenLabs, systemMyShell, systemElevenLabs,
    systemGroq, systemOpenAI.
  respects_all cachesGrow_refl cachesGrow_trans grow_base.
Qed.

Lemma respects_grow_testUserAPIKey userId service :
  respects cachesGrow (testUserAPIKey w userId service).
Proof.
  unfold testUserAPIKey.
  respects_all cachesGrow_refl cachesGrow_trans grow_base.
Qed.

End Growing.

Section BudgetLaws.
Context {C : Type}.

Lemma budget_quiet {A} (m : M C A) : quiet m → budget 0 m.
Proof.
  intros Q [c rt]. destruct (Q c rt) as (a & c' & rt' & -> & T). simpl.
  exists []. rewrite app_nil_r. split; [exact T | reflexivity].
Qed.

Lemma budget_ret {A} (a : A) : budget (C := C) 0 (ret a).
Proof. intros s. exists []. rewrite app_nil_r. split; reflexivity. Qed.

Lemma budget_throw {A} (e : JsError) : budget (C := C) 0 (throw (A := A) e).
Proof. intros s. exists []. rewrite app_nil_r. split; reflexivity. Qed.

Lemma budget_mono (n n' : nat) {A} (m : M C A) :
  (n <= n')%nat → budget n m → budget n' m.
Proof. intros L H s. destruct (H s) as (evs & E & B). exists evs. split; [exact E | lia]. Qed.

Lemma budget_bind (n k : nat) {A B} (m : M C A) (f : A → M C B) :
  budget n m → (∀ a, budget k (f a)) → budget (n + k) (bind m f).
Proof.
  intros Hm Hf s. destruct (Hm s) as (e1 & E1 & B1). unfold bind.
  destruct (m s) as [[a|e] s']; simpl in *.
  - destruct (Hf a s') as (e2 & E2 & B2). exists (e1 ++ e2)%list.
    rewrite E2, E1, <- app_assoc, length_app. split; [reflexivity | lia].
  - exists e1. split; [exact E1 | lia].
Qed.

Lemma budget_tryCatch (n k : nat) {A} (m : M C A) (h : JsError → M C A) :
  budget n m → (∀ e, budget k (h e)) → budget (n + k) (tryCatch m h).
Proof.
  intros Hm Hh s. destruct (Hm s) as (e1 & E1 & B1). unfold tryCatch.
  destruct (m s) as [[a|e] s']; simpl in *.
  - exists e1. split; [exact E1 | lia].
  - destruct (Hh e s') as (e2 & E2 & B2). exists (e1 ++ e2)%list.
    rewrite E2, E1, <- app_assoc, length_app. split; [reflexivity | lia].
Qed.

Lemma budget_orElse (n k : nat) {A} (a b : M C (option A)) :
  budget n a → budget k b → budget (n + k) (a <|> b).
Proof.
  intros Ha Hb. apply budget_bind; [exact Ha|].
  intros [r|]; [|exact Hb]. apply (budget_mono 0); [lia | apply budget_ret].
Qed.

Lemma budget_orFinally (n k : nat) {A} (a : M C (option A)) (b : M C A) :
  budget n a → budget k b → budget (n + k) (a <||> b).
Proof.
  intros Ha Hb. apply budget_bind; [exact Ha|].
  intros [r|]; [|exact Hb]. apply (budget_mono 0); [lia | apply budget_ret].
Qed.

Lemma budget_logD_then (n : nat) {A} (d : Diagnostic) (m : M C A) :
  budget n m → budget n (logD d ;; m).
Proof.
  intros H. apply (budget_bind 0 n); [apply budget_quiet, quiet_logD | intros _; exact H].
Qed.

Lemma budget_synthesis (w : World) v inst text cid opts :
  budget (C := C) 1 (clientGenerateTTS w v inst text cid opts).
Proof.
  intros [c rt]. rewrite clientGenerateTTS_eq. simpl. eexists [_]. split; reflexivity.
Qed.

Lemma budget_attempt (w : World) p v uk (getter : M C Instance) text cid opts :
  quiet getter → budget 1 (attempt w p v uk getter text cid opts).
Proof.
  intros Q. unfold attempt.
  apply (budget_tryCatch 1 0).
  - apply budget_logD_then. apply (budget_bind 0 1); [by apply budget_quiet|].
    intros inst. apply (budget_bind 1 0); [apply budget_synthesis | intros r; apply budget_ret].
  - intros e. apply budget_logD_then, budget_ret.
Qed.

Lemma budget_nokey (p : Phase) (v : Vendor) {A} (h : JsError → M C (option A)) :
  budget 0 (tryCatch (logD (LogNoKey p v);; ret None) h).
Proof.
  intros s. exists []. rewrite app_nil_r. split; reflexivity.
Qed.

End BudgetLaws.

Section BudgetLater.
Context (w : World).

Import UserTTSManager.

Lemma budget_forceCypherGroq user text options :
  budget 1 (forceCypherGroq w user text options).
Proof.
  unfold forceCypherGroq.
  destruct (String.eqb _ _); [|apply (budget_mono 0); [lia | apply budget_ret]].
  destruct (truthyKey _) as [k|]; [|apply (budget_mono 0); [lia | apply budget_nokey]].
  apply (budget_attempt w Override Groq _ (getInstance GroqCache k false)).
  apply quiet_getInstance.
Qed.

Lemma budget_preferredMyShell user pref text options :
  budget (if String.eqb pref "myshell" then 1 else 0)
         (preferredMyShell w user pref text options).
Proof.
  unfold preferredMyShell. destruct (String.eqb _ _); [|apply budget_ret].
  destruct (truthyKey _) as [k|]; [|apply (budget_mono 0); [lia | apply budget_nokey]].
  apply (budget_attempt w Preferred MyShell _ (getInstance MyShellCache k true)).
  apply quiet_getInstance.
Qed.

Lemma budget_preferredOpenAI user pref text options :
  budget (if String.eqb pref "openai" then 1 else 0)
         (preferredOpenAI w user pref text options).
Proof.
  unfold preferredOpenAI. destruct (String.eqb _ _); [|apply budget_ret].
  destruct (truthyKey _) as [k|]; [|apply (budget_mono 0); [lia | apply budget_ret]].
  apply (budget_attempt w Preferred OpenAI _ (getInstance OpenAICache k false)).
  apply quiet_getInstance.
Qed.

Lemma budget_preferredGroq user pref text options :
  budget (if String.eqb pref "groq" then 1 else 0)
         (preferredGroq w user pref text options).
Proof.
  unfold preferredGroq. destruct (String.eqb _ _); [|apply budget_ret].
  destruct (truthyKey _) as [k|]; [|apply (budget_mono 0); [lia | apply budget_nokey]].
  apply (budget_attempt w Preferred Groq _ (getInstance GroqCache k false)).
  apply quiet_getInstance.
Qed.

Lemma budget_preferredElevenLabs user pref text options :
  budget (if String.eqb pref "elevenlabs" then 1 else 0)
         (preferredElevenLabs w user pref text options).
Proof.
  unfold preferredElevenLabs. destruct (String.eqb _ _); [|apply budget_ret].
  destruct (truthyKey _) as [k|]; [|apply (budget_mono 0); [lia | apply budget_nokey]].
  apply (budget_attempt w Preferred ElevenLabs _ (getInstance ElevenLabsCache k false)).
  apply quiet_getInstance.
Qed.

(** The preferred service names one vendor, so at most one branch of the
    preference phase runs. *)
Lemma one_preference (pref : string) :
  ((if String.eqb pref "myshell" then 1 else 0)
   + (if String.eqb pref "openai" then 1 else 0)
   + (if String.eqb pref "groq" then 1 else 0)
   + (if String.eqb pref "elevenlabs" then 1 else 0) <= 1)%nat.
Proof.
  destruct (String.eqb_spec pref "myshell") as [->|]; [simpl; lia|].
  destruct (String.eqb_spec pref "openai") as [->|]; [simpl; lia|].
  destruct (String.eqb_spec pref "groq") as [->|]; [simpl; lia|].
  destruct (String.eqb_spec pref "elevenlabs") as [->|]; simpl; lia.
Qed.

Lemma budget_preferencePhase user pref text options :
  budget 1 (preferencePhase w user pref text options).
Proof.
  unfold preferencePhase. eapply budget_mono; [apply (one_preference pref)|].
  repeat apply budget_orElse.
  - apply budget_preferredMyShell.
  - apply budget_preferredOpenAI.
  - apply budget_preferredGroq.
  - apply budget_preferredElevenLabs.
Qed.

Lemma budget_systemBlock text options vn : budget 1 (systemBlock w text options vn).
Proof.
  unfold systemBlock. destruct (truthyKey _) as [k|].
  - apply budget_attempt, quiet_getInstance.
  - apply (budget_mono 0); [lia | apply budget_ret].
Qed.

Lemma budget_useSystemTTS text options : budget 4 (useSystemTTS w text options).
Proof.
  unfold useSystemTTS. apply budget_logD_then.
  apply (budget_orFinally 4 0); [|apply budget_logD_then, budget_ret].
  apply (budget_orElse 3 1); [apply (budget_orElse 2 1); [apply (budget_orElse 1 1)|]|].
  - apply (budget_systemBlock text options (MyShellCache, "MYSHELL_API_KEY")).
  - apply (budget_systemBlock text options (ElevenLabsCache, "ELEVENLABS_API_KEY")).
  - apply (budget_systemBlock text options (GroqCache, "GROQ_API_KEY")).
  - apply (budget_systemBlock text options (OpenAICache, "OPENAI_API_KEY")).
Qed.

Lemma budget_generateTTS text userId options : budget 6 (generateTTS w text userId options).
Proof.
  unfold generateTTS. apply budget_logD_then.
  apply (budget_tryCatch 6 0); [|intros e; apply budget_logD_then, budget_ret].
  destruct (getUser w userId) as [user|];
    [|apply (budget_mono 0); [lia | apply budget_throw]].
  apply budget_logD_then.
  apply (budget_orFinally 2 4).
  - apply (budget_orElse 1 1); [apply budget_forceCypherGroq | apply budget_preferencePhase].
  - apply budget_logD_then, budget_useSystemTTS.
Qed.

End BudgetLater.

Section BudgetEarly.
Context (w : World).

Import UserTTSManagerEarly.

Lemma early_budget_preferredOpenAI user pref text options :
  budget (if String.eqb pref "openai" then 1 else 0)
         (preferredOpenAI w user pref text options).
Proof.
  unfold preferredOpenAI. destruct (String.eqb _ _); [|apply budget_ret].
  destruct (truthyKey _) as [k|]; [|apply (budget_mono 0); [lia | apply budget_ret]].
  apply (budget_attempt w Preferred OpenAI _ (getOpenAIInstance k)).
  apply early_quiet_getOpenAIInstance.
Qed.

Lemma early_budget_preferredGroq user pref text options :
  budget (if String.eqb pref "groq" then 1 else 0)
         (preferredGroq w user pref text options).
Proof.
  unfold preferredGroq. destruct (String.eqb _ _); [|apply budget_ret].
  destruct (truthyKey _) as [k|]; [|apply (budget_mono 0); [lia | apply budget_ret]].
  apply (budget_attempt w Preferred Groq _ (getGroqInstance k)).
  apply early_quiet_getGroqInstance.
Qed.

Lemma early_budget_useSystemTTS text options : budget 2 (useSystemTTS w text options).
Proof.
  unfold useSystemTTS. apply budget_logD_then.
  apply (budget_tryCatch 1 1); [apply budget_logD_then, budget_synthesis|].
  intros e. apply budget_logD_then.
  apply (budget_tryCatch 1 0); [apply budget_synthesis|].
  intros e'. apply budget_logD_then, budget_ret.
Qed.

Lemma early_budget_generateTTS text userId options :
  budget 3 (generateTTS w text userId options).
Proof.
  unfold generateTTS. apply budget_logD_then.
  apply (budget_tryCatch 3 0); [|intros e; apply budget_logD_then, budget_ret].
  destruct (getUser w userId) as [user|];
    [|apply (budget_mono 0); [lia | apply budget_throw]].
  apply budget_logD_then.
  apply (budget_orFinally 1 2); [|apply budget_logD_then, early_budget_useSystemTTS].
  eapply budget_mono; [|apply budget_orElse;
                         [apply early_budget_preferredOpenAI | apply early_budget_preferredGroq]].
  destruct (String.eqb_spec (default "system" (truthyKey (preferredTtsService user))) "openai")
    as [->|]; [simpl; lia|].
  destruct (String.eqb _ "groq"); simpl; lia.
Qed.

End BudgetEarly.

(* ===================================================================== *)
(** * The system fallback chain *)
(* ===================================================================== *)

Section SystemChain.
Context (w : World).

Import UserTTSManager.










End SystemChain.



(** X2.  Whatever [generateTTS] of the later manager sends to a vendor is a
    synthesis request for the caller's text, character and options,
    unchanged: the manager rewrites none of them, for no vendor and in no
    phase, and it tests no connection. *)
Theorem generateTTS_forwards_request (w : World) (text userId : string)
    (options : TTSGenerationOptions) (c : UserTTSManager.Fields) (rt : Runtime) :
  ∃ evs : list Event,
    trace (snd (snd (UserTTSManager.generateTTS w text userId options (c, rt))))
    = (trace rt ++ evs)%list
    ∧ Forall (sameRequest text (characterId options) (synthesisOptions options)) evs.
Proof. exact (respects_calls_generateTTS w text userId options (c, rt)). Qed.

(** X3.  Whatever [generateTTS] of the earlier manager sends to a vendor is
    a synthesis request for the caller's text and character, unchanged. *)
Theorem early_generateTTS_forwards_text (w : World) (text userId : string)
    (options : TTSGenerationOptions) (c : UserTTSManagerEarly.Fields) (rt : Runtime) :
  ∃ evs : list Event,
    trace (snd (snd (UserTTSManagerEarly.generateTTS w text userId options (c, rt))))
    = (trace rt ++ evs)%list
    ∧ Forall (sameText text (characterId options)) evs.
Proof. exact (early_respects_calls_generateTTS w text userId options (c, rt)). Qed.

(** X4.  One [generateTTS] of the later manager makes at most six vendor
    calls (the override, one preference branch, four system vendors), and
    six are reached: for cypher, a user who prefers MyShell and stores a
    Groq key, every process-wide key set and every vendor down. *)
Theorem generateTTS_call_budget :
  (∀ (w : World) (text userId : string) (options : TTSGenerationOptions)
     (c : UserTTSManager.Fields) (rt : Runtime),
     ∃ evs : list Event,
       trace (snd (snd (UserTTSManager.generateTTS w text userId options (c, rt))))
       = (trace rt ++ evs)%list
       ∧ (List.length evs <= 6)%nat)
  ∧ List.length
      (trace (snd (snd (UserTTSManager.generateTTS worldAllDown "yo" "u1"
                          (plainOptions "cypher")
                          (UserTTSManager.newManager, initialRuntime))))) = 6%nat.
Proof.
  split.
  - intros w text userId options c rt.
    exact (budget_generateTTS w text userId options (c, rt)).
  - vm_compute. reflexivity.
Qed.

(** X6.  [generateTTS] and [testUserAPIKey] of the later manager never
    evict a cached client: what sat in a cache before the call sits
    there after it, under the same key and as the same object. *)
Theorem caches_only_grow (w : World) (s : UserTTSManager.Fields * Runtime) :
  (∀ text userId options,
     cachesGrow s (snd (UserTTSManager.generateTTS w text userId options s)))
  ∧ (∀ userId service,
       cachesGrow s (snd (UserTTSManager.testUserAPIKey w userId service s))).
Proof.
  split.
  - intros text userId options. apply respects_grow_generateTTS.
  - intros userId service. apply respects_grow_testUserAPIKey.
Qed.

Section Reachable.
Context (w : World).

Lemma keeps_runCall (call : Call) (c : UserTTSManager.Fields) (rt : Runtime) :
  cacheInvariant c rt →
  cacheInvariant (fst (runCall w call (c, rt))) (snd (runCall w call (c, rt))).
Proof.
  intros H. destruct call as [text userId options | userId service | userId];
    cbn [runCall].
  - exact (keeps_generateTTS w text userId options c rt H).
  - exact (keeps_testUserAPIKey w userId service c rt H).
  - exact (keeps_clearUserInstances userId c rt H).
Qed.

Lemma keeps_runCalls (calls : list Call) (s : UserTTSManager.Fields * Runtime) :
  cacheInvariant (fst s) (snd s) →
  cacheInvariant (fst (runCalls w calls s)) (snd (runCalls w calls s)).
Proof.
  revert s. induction calls as [|call calls IH]; intros [c rt] H; [exact H|].
  simpl. apply IH. destruct (runCall w call (c, rt)) as [c' rt'] eqn:E.
  pose proof (keeps_runCall call c rt H) as K. by rewrite E in K.
Qed.

End Reachable.

(** X7.  In every state a later manager can reach from [new
    UserTTSManager()] by calls of its three public methods, in any order
    and against any outside world, the caches are sound: each cached
    client was built by the factory of its cache, holds the API key (and
    flag) it is filed under, and no client object sits under two keys. *)
Theorem cache_invariant_reachable (w : World) (calls : list Call) (rt : Runtime) :
  cacheInvariant (fst (runCalls w calls (UserTTSManager.newManager, rt)))
                 (snd (runCalls w calls (UserTTSManager.newManager, rt))).
Proof. apply keeps_runCalls. simpl. apply cacheInvariant_new. Qed.


Section KeyTestCaching.
Context (w : World).

Import UserTTSManager.



End KeyTestCaching.



(* ===================================================================== *)
(** * The system chain of the earlier manager *)
(* ===================================================================== *)

Section EarlyChain.
Context (w : World).

Import UserTTSManagerEarly.

Lemma logD_then_run {A} (d : Diagnostic) (m : M Fields A) (c : Fields) (rt : Runtime) :
  (logD d;; m) (c, rt) = m (c, logged rt [d]).
Proof. reflexivity. Qed.

Lemma early_useSystemTTS_shape text options (c : Fields) (rt : Runtime) :
  ∃ r rt' (evs : list Event),
    useSystemTTS w text options (c, rt) = (Normal r, (c, rt'))
    ∧ trace rt' = (trace rt ++ evs)%list
    ∧ barkThenTypecast text (characterId options) r evs.
Proof.
  unfold useSystemTTS, barkThenTypecast. unfold_effects. simpl.
  destruct (clientGenerateTTS_run (C := Fields) w Bark None text
              (characterId options) noOptions c
              (logged (logged rt [LogSystemStart]) [LogUsing System Bark false]))
    as [out1 E1].
  unfold logged in E1. simpl in E1. rewrite E1. destruct out1 as [r|e1].
  - eexists _, _, [_]. split; [reflexivity|]. split; [reflexivity|]. by left.
  - simpl.
    match goal with
    | |- context [clientGenerateTTS w Typecast None text ?ch ?o (?cc, ?rr)] =>
        destruct (clientGenerateTTS_run (C := Fields) w Typecast None text ch o cc rr)
          as [out2 E2]
    end.
    rewrite E2. destruct out2 as [r|e2].
    + eexists _, _, [_; _]. split; [reflexivity|]. simpl. rewrite <- app_assoc.
      split; [reflexivity|]. right. left. by exists e1.
    + eexists _, _, [_; _]. split; [reflexivity|]. simpl. rewrite <- app_assoc.
      split; [reflexivity|]. right. right. by exists e1, e2.
Qed.

Lemma early_generateTTS_reaches_out text userId options user (c : Fields) (rt : Runtime) :
  getUser w userId = Some user →
  ∃ evs : list Event,
    trace (snd (snd (generateTTS w text userId options (c, rt)))) = (trace rt ++ evs)%list
    ∧ (1 <= List.length evs)%nat.
Proof.
  intros Hu. unfold generateTTS. rewrite Hu.
  set (pref := default "system" (truthyKey (preferredTtsService user))).
  destruct (safeBlock_orElse _ _
              (early_safeBlock_preferredOpenAI w user pref text options)
              (early_safeBlock_preferredGroq w user pref text options)
              c (logged rt [LogGenerating userId (characterId options);
                            LogPrefers userId pref]))
    as (o & c1 & rt1 & E & P).
  rewrite logD_then_run. unfold tryCatch. rewrite logD_then_run.
  unfold orFinally. unfold bind at 1. rewrite logged_logged. cbn [app]. rewrite E.
  destruct o as [r|].
  - simpl. destruct P as (evs & v & inst & t & ch & o & T & _). simpl in T.
    eexists. split; [exact T|]. rewrite length_app. simpl. lia.
  - destruct P as (evs1 & T1 & _). simpl in T1.
    rewrite logD_then_run.
    match goal with
    | |- context [useSystemTTS w text options (?cc, ?rr)] =>
        destruct (early_useSystemTTS_shape text options cc rr)
          as (r & rt2 & evs2 & E2 & T2 & Sh)
    end.
    rewrite E2. simpl in T2 |- *. exists (evs1 ++ evs2)%list.
    rewrite T2, T1, <- app_assoc. split; [reflexivity|]. rewrite length_app.
    destruct Sh as [-> | [[e ->] | (e & e' & -> & _)]]; simpl; lia.
Qed.

End EarlyChain.

(** X9.  The system chain of the earlier manager needs no key: it always
    calls Bark first, calls Typecast only if Bark threw, and returns the
    first answer; it returns the empty audio for the text only after both
    threw.  Both receive the text and the character without any options,
    and the caches are left alone. *)
Theorem early_useSystemTTS_bark_then_typecast (w : World) (text : string)
    (options : TTSGenerationOptions) (c : UserTTSManagerEarly.Fields) (rt : Runtime) :
  ∃ r rt' (evs : list Event),
    UserTTSManagerEarly.useSystemTTS w text options (c, rt) = (Normal r, (c, rt'))
    ∧ trace rt' = (trace rt ++ evs)%list
    ∧ barkThenTypecast text (characterId options) r evs.
Proof. apply early_useSystemTTS_shape. Qed.

(** X5.  For a stored user the earlier manager makes at least one vendor
    call and at most three (one preference branch, Bark, Typecast). *)
Theorem early_generateTTS_call_count (w : World) (text userId : string)
    (options : TTSGenerationOptions) (user : User)
    (c : UserTTSManagerEarly.Fields) (rt : Runtime) :
  getUser w userId = Some user →
  ∃ evs : list Event,
    trace (snd (snd (UserTTSManagerEarly.generateTTS w text userId options (c, rt))))
    = (trace rt ++ evs)%list
    ∧ (1 <= List.length evs <= 3)%nat.
Proof.
  intros Hu.
  destruct (early_generateTTS_reaches_out w text userId options user c rt Hu)
    as (evs & T & L).
  destruct (early_budget_generateTTS w text userId options (c, rt)) as (evs' & T' & U).
  simpl in T'. rewrite T in T'. apply app_inv_head in T'. subst evs'.
  exists evs. split; [exact T | lia].
Qed.

Lemma early_generateTTS_call_count_witness :
  ∃ evs : list Event,
    trace (snd (snd (UserTTSManagerEarly.generateTTS worldOwnerDown "yo" "u1"
                       (plainOptions "razor")
                       (UserTTSManagerEarly.newManager, initialRuntime))))
    = (trace initialRuntime ++ evs)%list
    ∧ (1 <= List.length evs <= 3)%nat.
Proof.
  apply (early_generateTTS_call_count worldOwnerDown "yo" "u1" (plainOptions "razor")
           openaiOwner UserTTSManagerEarly.newManager initialRuntime).
  reflexivity.
Defined.

(* ===================================================================== *)
(** * The text the Groq client sends *)
(* ===================================================================== *)

Section CleanedText.

Lemma string_app_cons (x : ascii) (a b : string) :
  (String x a ++ b = String x (a ++ b))%string.
Proof. reflexivity. Qed.

Lemma string_app_nil_l (b : string) : ("" ++ b = b)%string.
Proof. reflexivity. Qed.

Lemma string_app_assoc (a b c : string) : ((a ++ b) ++ c = a ++ (b ++ c))%string.
Proof.
  induction a as [|x a IH]; [reflexivity|]. by rewrite !string_app_cons, IH.
Qed.

Lemma string_app_nil_r (a : string) : (a ++ "" = a)%string.
Proof. induction a as [|x a IH]; [reflexivity|]. by rewrite string_app_cons, IH. Qed.

Lemma string_length_app (a b : string) :
  String.length (a ++ b) = (String.length a + String.length b)%nat.
Proof.
  induction a as [|x a IH]; [reflexivity|]. rewrite string_app_cons. simpl. by rewrite IH.
Qed.

(** ** White space after cleaning *)

Lemma spacedFrom_collapse (b : bool) (s : string) :
  spacedFrom b (collapseWhiteSpaceFrom b s) = true.
Proof.
  revert b. induction s as [|x s IH]; intros b; simpl; [reflexivity|].
  destruct (isWhiteSpace x) eqn:Wx.
  - destruct b; [apply IH|]. simpl. apply IH.
  - simpl. rewrite Wx. apply IH.
Qed.

Lemma spacedFrom_trimStart (b : bool) (s : string) :
  spacedFrom b s = true → spacedFrom true (trimStart s) = true.
Proof.
  revert b. induction s as [|x s IH]; intros b; simpl; [done|].
  destruct (isWhiteSpace x) eqn:Wx.
  - intros H. apply andb_prop in H as [_ H]. by apply (IH true).
  - simpl. by rewrite Wx.
Qed.

Lemma spacedFrom_trimEnd (b : bool) (s : string) :
  spacedFrom b s = true → spacedFrom b (trimEnd s) = true.
Proof.
  revert b. induction s as [|x s IH]; intros b; simpl; [done|].
  destruct (isWhiteSpace x) eqn:Wx.
  - intros H. apply andb_prop in H as [H1 H2]. specialize (IH true H2).
    destruct (trimEnd s) as [|y r]; [reflexivity|].
    simpl in IH |- *. by rewrite Wx, H1, IH.
  - intros H. specialize (IH false H).
    destruct (trimEnd s) as [|y r]; simpl; rewrite Wx; [reflexivity | exact IH].
Qed.

Lemma endsWell_trimEnd (s : string) : endsWell (trimEnd s) = true.
Proof.
  induction s as [|x s IH]; simpl; [reflexivity|].
  destruct (trimEnd s) as [|y r].
  - destruct (isWhiteSpace x) eqn:Wx; simpl; [reflexivity | by rewrite Wx].
  - exact IH.
Qed.

Lemma isWord_single (x : ascii) : isWhiteSpace x = false → isWord (String x "").
Proof. intros Wx. split; [discriminate | by repeat constructor]. Qed.

Lemma isWord_cons (x : ascii) (w : string) :
  isWhiteSpace x = false → isWord w → isWord (String x w).
Proof. intros Wx [_ F]. split; [discriminate | by constructor]. Qed.

(** A string whose white space is single spaces between other characters
    is a list of words joined by single spaces. *)
Lemma spaced_words (s : string) (b : bool) :
  spacedFrom b s = true → endsWell s = true → s ≠ "" →
  ∃ w ws,
    Forall isWord (w :: ws)
    ∧ match s with
      | String x _ =>
          if isWhiteSpace x then s = (" " ++ String.concat " " (w :: ws))%string
          else s = String.concat " " (w :: ws)
      | EmptyString => False
      end.
Proof.
  revert b. induction s as [|x s IH]; intros b Hs He Hn; [done|].
  destruct s as [|y s'].
  - simpl in He. apply negb_true_iff in He. rewrite He.
    exists (String x ""), []. split; [|reflexivity].
    constructor; [by apply isWord_single | constructor].
  - assert (endsWell (String y s') = true) as He' by exact He.
    destruct (isWhiteSpace x) eqn:Wx.
    + simpl in Hs. rewrite Wx in Hs.
      apply andb_prop in Hs as [Hx Hs]. apply andb_prop in Hx as [Hx _].
      apply Ascii.eqb_eq in Hx as ->.
      destruct (IH true Hs He') as (w & ws & F & Sh); [discriminate|].
      assert (isWhiteSpace y = false) as Wy.
      { simpl in Hs. destruct (isWhiteSpace y); [|reflexivity].
        rewrite andb_false_r in Hs. discriminate. }
      rewrite Wy in Sh. exists w, ws. split; [exact F|]. by rewrite Sh.
    + simpl in Hs. rewrite Wx in Hs. fold (spacedFrom false (String y s')) in Hs.
      destruct (IH false Hs He') as (w & ws & F & Sh); [discriminate|].
      destruct (isWhiteSpace y) eqn:Wy.
      * exists (String x ""), (w :: ws). split.
        -- constructor; [by apply isWord_single | exact F].
        -- rewrite Sh. reflexivity.
      * exists (String x w), ws. split.
        -- inversion F; subst. constructor; [by apply isWord_cons | assumption].
        -- rewrite Sh. destruct ws; reflexivity.
Qed.

Lemma trimStart_head (s : string) :
  match trimStart s with
  | String x _ => isWhiteSpace x = false
  | EmptyString => True
  end.
Proof.
  induction s as [|x s IH]; simpl; [done|].
  destruct (isWhiteSpace x) eqn:Wx; [exact IH | exact Wx].
Qed.

Lemma trimEnd_head (s : string) :
  match s with
  | String x _ =>
      isWhiteSpace x = false →
      match trimEnd s with String y _ => y = x | EmptyString => False end
  | EmptyString => True
  end.
Proof.
  destruct s as [|x s]; [done|]. intros Wx. simpl.
  destruct (trimEnd s); [by rewrite Wx | reflexivity].
Qed.

Lemma trim_collapse_words (s : string) :
  ∃ ws, trim (collapseWhiteSpace s) = String.concat " " ws ∧ Forall isWord ws.
Proof.
  unfold trim, collapseWhiteSpace.
  pose proof (spacedFrom_collapse false s) as H1.
  apply spacedFrom_trimStart, spacedFrom_trimEnd in H1.
  pose proof (endsWell_trimEnd (trimStart (collapseWhiteSpaceFrom false s))) as H2.
  pose proof (trimStart_head (collapseWhiteSpaceFrom false s)) as H3.
  pose proof (trimEnd_head (trimStart (collapseWhiteSpaceFrom false s))) as H4.
  destruct (trimStart (collapseWhiteSpaceFrom false s)) as [|x t] eqn:Et.
  - exists []. split; [reflexivity | constructor].
  - specialize (H4 H3).
    destruct (trimEnd (String x t)) as [|y r] eqn:Er; [done|]. subst y.
    destruct (spaced_words (String x r) true H1 H2) as (w & ws & F & Sh); [discriminate|].
    rewrite H3 in Sh. exists (w :: ws). split; [exact Sh | exact F].
Qed.

(** ** Lengths *)

Lemma length_removeDelimitedFrom (o c : ascii) (pending : option string) (s : string) :
  (String.length (removeDelimitedFrom o c pending s)
   <= String.length (default "" pending) + String.length s)%nat.
Proof.
  revert pending. induction s as [|x s IH]; intros pending; simpl.
  - destruct pending; simpl; lia.
  - destruct pending as [p|]; simpl.
    + destruct (Ascii.eqb x c); [specialize (IH None); simpl in IH; lia|].
      destruct (isLineTerminator x).
      * specialize (IH None). rewrite !string_length_app. simpl in *. lia.
      * specialize (IH (Some (p ++ String x "")%string)). simpl in IH.
        rewrite string_length_app in IH. simpl in IH. lia.
    + destruct (Ascii.eqb x o).
      * specialize (IH (Some (String x ""))). simpl in IH. lia.
      * specialize (IH None). simpl in *. lia.
Qed.

Lemma length_collapseWhiteSpaceFrom (b : bool) (s : string) :
  (String.length (collapseWhiteSpaceFrom b s) <= String.length s)%nat.
Proof.
  revert b. induction s as [|x s IH]; intros b; simpl; [lia|].
  destruct (isWhiteSpace x); [destruct b|]; simpl;
    try (specialize (IH true); lia); specialize (IH false); lia.
Qed.

Lemma length_trimStart (s : string) : (String.length (trimStart s) <= String.length s)%nat.
Proof.
  induction s as [|x s IH]; simpl; [lia|]. destruct (isWhiteSpace x); simpl; lia.
Qed.

Lemma length_trimEnd (s : string) : (String.length (trimEnd s) <= String.length s)%nat.
Proof.
  induction s as [|x s IH]; simpl; [lia|].
  destruct (trimEnd s); [destruct (isWhiteSpace x)|]; simpl in *; lia.
Qed.

Lemma length_cleaned (s : string) :
  (String.length (trim (collapseWhiteSpace s)) <= String.length s)%nat.
Proof.
  unfold trim, collapseWhiteSpace.
  pose proof (length_trimEnd (trimStart (collapseWhiteSpaceFrom false s))).
  pose proof (length_trimStart (collapseWhiteSpaceFrom false s)).
  pose proof (length_collapseWhiteSpaceFrom false s). lia.
Qed.

Lemma length_cleanText (text cid : string) :
  String.eqb cid "cypher" = false →
  (String.length (GroqTTSService.cleanText text cid) <= String.length text)%nat.
Proof.
  intros N. unfold GroqTTSService.cleanText, GroqTTSService.applyRobotVoiceEffects.
  rewrite N. unfold removeDelimited.
  pose proof (length_cleaned (removeDelimitedFrom "*" "*" None
                                (removeDelimitedFrom "[" "]" None text))).
  pose proof (length_removeDelimitedFrom "*" "*" None
                (removeDelimitedFrom "[" "]" None text)).
  pose proof (length_removeDelimitedFrom "[" "]" None text).
  simpl in *. lia.
Qed.

End CleanedText.

(** X10.  Whatever the text and the character, the input the Groq client
    sends is a list of words joined by single spaces: it has no leading or
    trailing white space, no tab or line break, and no two spaces in a
    row (it is empty when no word is left). *)
Theorem cleanText_single_spaced (text characterId : string) :
  ∃ words : list string,
    GroqTTSService.cleanText text characterId = String.concat " " words
    ∧ Forall isWord words.
Proof.
  unfold GroqTTSService.cleanText.
  destruct (String.eqb characterId "cypher"); apply trim_collapse_words.
Qed.

(** X11.  For a character other than cypher the Groq client only removes
    from the text: the input it sends is no longer than the text, so the
    duration of a successful synthesis is at least 0 and at most the
    estimate [floor(text.length / 15)] the manager uses for missing audio. *)
Theorem groq_duration_bounded {C : Type} (w : World) (this : Instance)
    (text characterId : string) (options : SynthesisOptions)
    (s s' : C * Runtime) (r : GenerationResult) :
  String.eqb characterId "cypher" = false →
  GroqTTSService.generateTTS w this text characterId options s = (Normal r, s') →
  (String.length (GroqTTSService.cleanText text characterId) <= String.length text)%nat
  ∧ (0 ≤ duration r ≤ estimateDuration text)%Z.
Proof.
  intros N E. pose proof (length_cleanText text characterId N) as L.
  split; [exact L|].
  rewrite groq_generateTTS_run in E. unfold groqOutcome in E.
  destruct (groqSpeechCreate w _ this _); [|discriminate].
  injection E as <- _. simpl. unfold estimateDuration.
  split; [apply Z.div_pos; lia | apply Z.div_le_mono; lia].
Qed.

Lemma groq_duration_bounded_witness :
  (String.length (GroqTTSService.cleanText "yo *loud* fam [beat drops] let us go" "razor")
   <= String.length "yo *loud* fam [beat drops] let us go")%nat
  ∧ (0 ≤ duration {| audioUrl := "data:audio/wav;base64,UklGRg=="; duration := 1 |}
     ≤ estimateDuration "yo *loud* fam [beat drops] let us go")%Z.
Proof.
  apply (groq_duration_bounded (C := unit) worldWithSystemGroq sampleGroqClient
           "yo *loud* fam [beat drops] let us go" "razor" noOptions
           (tt, initialRuntime) (tt, initialRuntime)).
  - reflexivity.
  - reflexivity.
Defined.

Section RobotFrame.

Ltac string_simpl := repeat (rewrite string_app_cons || rewrite string_app_nil_l).

Lemma removeDelimitedFrom_open_suffix (o c : ascii) (p suf : string) :
  freeOf (fun x => Ascii.eqb x c || isLineTerminator x) suf →
  removeDelimitedFrom o c (Some p) suf = (p ++ suf)%string.
Proof.
  revert p. induction suf as [|x suf IH]; intros p F; simpl.
  - by rewrite string_app_nil_r.
  - inversion F as [|? ? Hx F']; subst. apply orb_false_elim in Hx as [-> ->].
    rewrite (IH _ F'), string_app_assoc. reflexivity.
Qed.

Lemma removeDelimitedFrom_closed_suffix (o c : ascii) (suf : string) :
  freeOf (fun x => Ascii.eqb x o) suf →
  removeDelimitedFrom o c None suf = suf.
Proof.
  induction suf as [|x suf IH]; intros F; simpl; [reflexivity|].
  inversion F as [|? ? Hx F']; subst. rewrite Hx. by rewrite (IH F').
Qed.

(** A tail that holds neither delimiter and no line break comes through
    the removal as it is. *)
Lemma removeDelimitedFrom_suffix (o c : ascii) (pending : option string) (s suf : string) :
  freeOf (fun x => Ascii.eqb x o) suf →
  freeOf (fun x => Ascii.eqb x c || isLineTerminator x) suf →
  removeDelimitedFrom o c pending (s ++ suf)
  = (removeDelimitedFrom o c pending s ++ suf)%string.
Proof.
  intros Fo Fc. revert pending. induction s as [|x s IH]; intros pending.
  - rewrite string_app_nil_l. destruct pending as [p|]; simpl.
    + by apply removeDelimitedFrom_open_suffix.
    + by apply removeDelimitedFrom_closed_suffix.
  - rewrite string_app_cons. simpl. destruct pending as [p|].
    + destruct (Ascii.eqb x c); [apply IH|].
      destruct (isLineTerminator x); [|apply IH].
      rewrite IH. symmetry. apply string_app_assoc.
    + destruct (Ascii.eqb x o); [apply IH|]. by rewrite IH.
Qed.

Lemma collapseWhiteSpaceFrom_suffix (b : bool) (s : string) :
  ∃ v, collapseWhiteSpaceFrom b (s ++ " [systems_online]")
       = (v ++ "[systems_online]")%string.
Proof.
  revert b. induction s as [|x s IH]; intros b.
  - rewrite string_app_nil_l. destruct b; [by exists "" | by exists " "].
  - rewrite string_app_cons. simpl. destruct (isWhiteSpace x); [destruct b|].
    + apply IH.
    + destruct (IH true) as [v ->]. by exists (String " " v).
    + destruct (IH false) as [v ->]. by exists (String x v).
Qed.

Lemma trimEnd_app (a b : string) :
  trimEnd b ≠ "" → trimEnd (a ++ b) = (a ++ trimEnd b)%string.
Proof.
  intros N. induction a as [|x a IH]; [reflexivity|].
  rewrite !string_app_cons. simpl. rewrite IH.
  destruct (a ++ trimEnd b)%string eqn:E; [|reflexivity].
  destruct a; [by rewrite string_app_nil_l in E | by rewrite string_app_cons in E].
Qed.

Lemma cleanText_cypher_shape (text : string) :
  ∃ body,
    GroqTTSService.cleanText text "cypher"
    = ("[processing] " ++ body ++ "[systems_online]")%string.
Proof.
  unfold GroqTTSService.cleanText, GroqTTSService.applyRobotVoiceEffects.
  simpl String.eqb. cbv beta iota zeta.
  set (robotText := replaceChar "?" _ _).
  unfold removeDelimited.
  change ("[processing] " ++ robotText ++ " [systems_online]")%string
    with (String "[" (String "p" (String "r" (String "o" (String "c" (String "e"
           (String "s" (String "s" (String "i" (String "n" (String "g" (String "]"
           (String " " (robotText ++ " [systems_online]")))))))))))))%string).
  cbn [removeDelimitedFrom Ascii.eqb Bool.eqb].
  rewrite removeDelimitedFrom_suffix; [| by repeat constructor | by repeat constructor].
  unfold collapseWhiteSpace. simpl collapseWhiteSpaceFrom.
  destruct (collapseWhiteSpaceFrom_suffix true (removeDelimitedFrom "*" "*" None robotText))
    as [v ->].
  exists v. unfold trim. simpl trimStart.
  change (String "[" (String "p" (String "r" (String "o" (String "c" (String "e"
           (String "s" (String "s" (String "i" (String "n" (String "g" (String "]"
           (String " " (v ++ "[systems_online]"))))))))))))))%string
    with (("[processing] " ++ v) ++ "[systems_online]")%string.
  rewrite trimEnd_app; [|discriminate]. simpl trimEnd. apply string_app_assoc.
Qed.

(** ** Characters *)

Lemma occursIn_app (x : ascii) (a b : string) :
  occursIn x (a ++ b) ↔ occursIn x a ∨ occursIn x b.
Proof. unfold occursIn. rewrite list_ascii_of_string_app. apply in_app_iff. Qed.

Lemma occursIn_cons (x y : ascii) (s : string) :
  occursIn x (String y s) ↔ y = x ∨ occursIn x s.
Proof. reflexivity. Qed.

Lemma occursIn_replaceChar (x c : ascii) (by_ s : string) :
  occursIn x (replaceChar c by_ s) → occursIn x by_ ∨ (occursIn x s ∧ x ≠ c).
Proof.
  induction s as [|y s IH]; simpl; [intros []|].
  destruct (Ascii.eqb_spec y c) as [->|N].
  - rewrite occursIn_app. intros [H|H]; [by left|].
    destruct (IH H) as [?|[? ?]]; [by left | right; split; [by right | done]].
  - rewrite occursIn_cons. intros [<-|H].
    + right. split; [by left | done].
    + destruct (IH H) as [?|[? ?]]; [by left | right; split; [by right | done]].
Qed.

Lemma occursIn_removeDelimitedFrom (x o c : ascii) (pending : option string) (s : string) :
  occursIn x (removeDelimitedFrom o c pending s) →
  occursIn x (default "" pending) ∨ occursIn x s.
Proof.
  revert pending. induction s as [|y s IH]; intros pending; simpl.
  - destruct pending; simpl; [by left | intros []].
  - destruct pending as [p|]; simpl.
    + destruct (Ascii.eqb y c).
      * intros H. destruct (IH None H) as [[]|?]. right. by right.
      * destruct (isLineTerminator y).
        -- rewrite !occursIn_app, occursIn_cons. intros [[?|[?|[]]]|H]; auto.
           ++ right. by left.
           ++ destruct (IH None H) as [[]|?]. right. by right.
        -- intros H. destruct (IH _ H) as [H'|?]; [|right; by right].
           simpl in H'. apply occursIn_app in H' as [?|[?|[]]]; [by left | right; by left].
    + destruct (Ascii.eqb_spec y o) as [->|N].
      * intros H. destruct (IH _ H) as [[?|[]]|?]; right; [by left | by right].
      * rewrite occursIn_cons. intros [?|H]; [right; by left|].
        destruct (IH None H) as [[]|?]. right. by right.
Qed.

Lemma occursIn_collapseWhiteSpaceFrom (x : ascii) (b : bool) (s : string) :
  occursIn x (collapseWhiteSpaceFrom b s) → x = " "%char ∨ occursIn x s.
Proof.
  revert b. induction s as [|y s IH]; intros b; simpl; [intros []|].
  destruct (isWhiteSpace y); [destruct b|].
  - intros H. destruct (IH _ H); [by left | right; by right].
  - intros [<-|H]; [by left|]. destruct (IH _ H); [by left | right; by right].
  - intros [<-|H]; [right; by left|]. destruct (IH _ H); [by left | right; by right].
Qed.

Lemma occursIn_trimStart (x : ascii) (s : string) :
  occursIn x (trimStart s) → occursIn x s.
Proof.
  induction s as [|y s IH]; simpl; [done|].
  destruct (isWhiteSpace y); [|done]. intros H. right. by apply IH.
Qed.

Lemma occursIn_trimEnd (x : ascii) (s : string) :
  occursIn x (trimEnd s) → occursIn x s.
Proof.
  induction s as [|y s IH]; simpl; [done|].
  destruct (trimEnd s) as [|z r].
  - destruct (isWhiteSpace y); [intros [] | intros [?|[]]; by left].
  - intros [?|H]; [by left | right; by apply IH].
Qed.

Lemma occursIn_cleaned (x : ascii) (s : string) :
  occursIn x (trim (collapseWhiteSpace (removeDelimited "*" "*" s))) →
  x = " "%char ∨ occursIn x s.
Proof.
  intros H. apply occursIn_trimEnd, occursIn_trimStart in H.
  apply occursIn_collapseWhiteSpaceFrom in H as [?|H]; [by left|].
  apply occursIn_removeDelimitedFrom in H as [[]|?]. by right.
Qed.

Lemma occursIn_literal (P : ascii → Prop) (x : ascii) (lit : string) :
  occursIn x lit → Forall P (list_ascii_of_string lit) → P x.
Proof. intros Hx F. exact (proj1 (List.Forall_forall _ _) F x Hx). Qed.

End RobotFrame.

Ltac marks_literal H :=
  apply (occursIn_literal (fun c => c ≠ "!"%char ∧ c ≠ "?"%char) _ _ H);
  repeat (constructor; [split; discriminate|]); constructor.

(** X12.  For cypher the input the Groq client sends always opens with
    the marker [[processing]] and a space and closes with
    [[systems_online]], whatever the text: cleaning never removes the two
    markers.  The input is therefore at least 29 characters long, and the
    duration of a cypher synthesis is never 0. *)
Theorem cleanText_cypher_frame (text : string) :
  (∃ body,
     GroqTTSService.cleanText text "cypher"
     = ("[processing] " ++ body ++ "[systems_online]")%string)
  ∧ (1 ≤ estimateDuration (GroqTTSService.cleanText text "cypher"))%Z.
Proof.
  destruct (cleanText_cypher_shape text) as [body E]. split; [by exists body|].
  rewrite E. unfold estimateDuration. rewrite !string_length_app.
  change (String.length "[processing] ") with 13%nat.
  change (String.length "[systems_online]") with 16%nat.
  apply Z.div_le_lower_bound; lia.
Qed.

Lemma cleanText_cypher_marks (text : string) (x : ascii) :
  occursIn x (GroqTTSService.cleanText text "cypher") → x ≠ "!"%char ∧ x ≠ "?"%char.
Proof.
  unfold GroqTTSService.cleanText, GroqTTSService.applyRobotVoiceEffects.
  simpl String.eqb. cbv beta iota zeta. intros H.
  apply occursIn_cleaned in H as [->|H]; [split; discriminate|].
  apply occursIn_app in H as [H|H]; [marks_literal H|].
  apply occursIn_app in H as [H|H]; [|marks_literal H].
  apply occursIn_replaceChar in H as [H|[H Nq]]; [marks_literal H|].
  apply occursIn_replaceChar in H as [H|[H Ne]]; [marks_literal H|].
  by split.
Qed.

(** X13.  For cypher no exclamation mark and no question mark reaches the
    vendor, whatever the text: each was replaced by a period and a marker
    before the text is sent. *)
Theorem cleanText_cypher_no_marks (text : string) :
  freeOf (fun x => Ascii.eqb x "!" || Ascii.eqb x "?")
         (GroqTTSService.cleanText text "cypher").
Proof.
  apply List.Forall_forall. intros x Hx.
  destruct (cleanText_cypher_marks text x Hx) as [N1 N2].
  apply Ascii.eqb_neq in N1, N2. by rewrite N1, N2.
Qed.

(** X14.  For every character id that is not the name of a member of
    [Object.prototype], the Groq client picks a voice of its catalogue:
    the fixed voice of the character if the id is one of the four of the
    voice map, whatever the gender and the random draw, and otherwise one
    of the five female voices if the gender is ['female'] and one of the
    five male voices for any other or no gender.  For an id such as
    ['constructor'] the lookup in the voice map finds the inherited member,
    and that, not a voice name, is what is returned. *)
Theorem getVoiceForCharacter_catalogue (draw : nat) (characterId : string)
    (gender : option string) :
  (inheritedName characterId = false →
   ∃ v, GroqTTSService.getVoiceForCharacter draw characterId gender = JsStr v
        ∧ match ownProperty GroqTTSService.voiceMap characterId with
          | Some own => own = JsStr v
          | None =>
              In v (if bool_decide (gender = Some "female")
                    then GroqTTSService.femaleVoices else GroqTTSService.maleVoices)
          end)
  ∧ (inheritedName characterId = true →
     GroqTTSService.getVoiceForCharacter draw characterId gender
     = JsInherited characterId).
Proof.
  unfold GroqTTSService.getVoiceForCharacter, objGet. split.
  - intros N. rewrite N.
    destruct (ownProperty GroqTTSService.voiceMap characterId) as [own|] eqn:E.
    + simpl in E.
      repeat match type of E with
             | (if ?b then _ else _) = _ => destruct b
             end;
        try discriminate; injection E as <-; simpl; eauto.
    + simpl toBoolean. cbv iota. eexists. split; [reflexivity|].
      destruct (bool_decide (gender = Some "female")); apply nth_In;
        change (draw mod 5 < 5)%nat; apply Nat.mod_upper_bound; discriminate.
  - intros I. rewrite I. unfold inheritedName in I. apply bool_decide_eq_true in I.
    unfold objectPrototypeNames in I.
    repeat (apply elem_of_cons in I as [->|I]); try reflexivity.
    by apply elem_of_nil in I.
Qed.

(* ===================================================================== *)
(** * The moderation client *)
(* ===================================================================== *)

Section Moderation.
Context (w : ModerationWorld) (inheritedText : string → string).

Import ContentModerationService.

Lemma moderateContent_run (content : string) (type : option string)
    (log : Log) (rt : Runtime) :
  moderateContent w content type (log, rt)
  = (Normal (moderationFor w (length log) content (default "response" type)),
     (logAfter w log content (default "response" type), rt)).
Proof.
  unfold moderateContent, moderationFor, outputFor, logAfter, apiKey, sendRequest.
  fold (configuredKey w).
  destruct (configuredKey w) as [key|]; [|reflexivity].
  run_effects. cbn [fst snd].
  change {| bearer := key; requestModel := "meta-llama/Llama-Guard-4-12B";
            messageRole := if (default "response" type =? "prompt")%string
                           then "user" else "assistant";
            messageContent := content |}
    with (requestFor key content (default "response" type)).
  destruct (fetch w (length log) (requestFor key content (default "response" type)))
    as [e | ok st json]; [reflexivity|].
  destruct ok; [|reflexivity]. simpl negb. cbv iota.
  destruct json as [result|e]; [|reflexivity]. cbv beta iota.
  destruct (moderationOutputOf result) as [out|e]; [|reflexivity]. cbv beta iota.
  unfold verdictOf, categoryLines.
  destruct (startsWith (toLowerCase out) "safe"); [reflexivity|].
  destruct (startsWith (toLowerCase out) "unsafe"); reflexivity.
Qed.

Lemma filterContent_run (content : string) (safetyLevel type : option string)
    (log : Log) (rt : Runtime) :
  filterContent w inheritedText content safetyLevel type (log, rt)
  = (Normal (filterOutcome inheritedText content (default "moderate" safetyLevel)
               (moderationFor w (length log) content (default "response" type))),
     (logAfter w log content (default "response" type), rt)).
Proof.
  unfold filterContent, filterOutcome, orFinally.
  destruct (String.eqb (default "moderate" safetyLevel) "strict").
  - unfold mbind, M_bind. unfold bind at 1 2. rewrite moderateContent_run.
    change (default "response" (Some (default "response" type)))
      with (default "response" type).
    destruct (isSafe (moderationFor w (length log) content (default "response" type)));
      reflexivity.
  - unfold mbind, M_bind. unfold bind at 1 2. rewrite moderateContent_run.
    change (default "response" (Some (default "response" type)))
      with (default "response" type).
    destruct (isSafe (moderationFor w (length log) content (default "response" type)));
      [reflexivity|]. simpl negb. cbv iota.
    destruct (categories (moderationFor w (length log) content (default "response" type)))
      as [cats|]; [|reflexivity].
    cbv zeta.
    destruct (List.filter _ cats); reflexivity.
Qed.

Lemma verdictOf_unsafe (out : string) :
  isSafe (verdictOf out) = false →
  startsWith (toLowerCase out) "unsafe" = true
  ∧ verdictOf out = {| isSafe := false; categories := Some (categoryLines out);
                       confidence := Some (Number.lit 9 10) |}.
Proof.
  unfold verdictOf. destruct (startsWith (toLowerCase out) "safe"); [discriminate|].
  destruct (startsWith (toLowerCase out) "unsafe"); [auto | discriminate].
Qed.

Lemma moderationFor_unsafe (n : nat) (content type : string) :
  isSafe (moderationFor w n content type) = false →
  ∃ out, outputFor w n content type = Some out
         ∧ startsWith (toLowerCase out) "unsafe" = true
         ∧ moderationFor w n content type
           = {| isSafe := false; categories := Some (categoryLines out);
                confidence := Some (Number.lit 9 10) |}.
Proof.
  unfold moderationFor. destruct (outputFor w n content type) as [out|]; [|discriminate].
  intros H. destruct (verdictOf_unsafe out H) as [U E]. by exists out.
Qed.

Lemma moderationFor_without_key (n : nat) (content type : string) :
  configuredKey w = None → moderationFor w n content type = safe.
Proof. intros K. unfold moderationFor, outputFor. by rewrite K. Qed.

Lemma outputFor_Some (n : nat) (content type out : string) :
  outputFor w n content type = Some out →
  ∃ key statusText result,
    configuredKey w = Some key
    ∧ fetch w n (requestFor key content type) = FetchResolves true statusText (Normal result)
    ∧ moderationOutputOf result = Normal out.
Proof.
  unfold outputFor. destruct (configuredKey w) as [key|]; [|discriminate].
  destruct (fetch w n (requestFor key content type)) as [e|[] st [result|e]] eqn:F;
    try discriminate.
  destruct (moderationOutputOf result) as [o|e] eqn:E; [|discriminate].
  intros [= ->]. by exists key, st, result.
Qed.

Lemma unsafe_not_safe (s : string) :
  startsWith s "unsafe" = true → startsWith s "safe" = false.
Proof.
  destruct s as [|c s]; [discriminate|]. cbn [startsWith].
  destruct (Ascii.eqb_spec c "u") as [->|]; [reflexivity | discriminate].
Qed.

Lemma verdictOf_unsafe_iff (out : string) :
  isSafe (verdictOf out) = false ↔ startsWith (toLowerCase out) "unsafe" = true.
Proof.
  split; [apply verdictOf_unsafe|]. intros U. unfold verdictOf.
  by rewrite (unsafe_not_safe _ U), U.
Qed.

Lemma configuredKey_none :
  truthyKey (processEnv w !! "GROQ_API_KEY") = None →
  truthyKey (processEnv w !! "GROQ_API_KEY_ENV_VAR") = None →
  configuredKey w = None.
Proof.
  intros A B. unfold configuredKey.
  apply truthyKey_orStr_none; [by apply truthyKey_orStr_none | reflexivity].
Qed.

Lemma serious_explained (cats : list string) :
  Forall (fun cat => cat ∈ seriousCategories) cats →
  Forall (fun name => In name seriousNames)
         (map (fun cat => printed inheritedText (jsOr (objGet categoryMap cat) (JsStr cat)))
              cats).
Proof.
  induction 1 as [|cat cats Hc _ IH]; [constructor|]. simpl map. constructor; [|exact IH].
  unfold seriousCategories in Hc.
  repeat (apply elem_of_cons in Hc as [->|Hc]); [simpl; auto 10 ..|].
  by apply elem_of_nil in Hc.
Qed.

End Moderation.

(** X15.  [moderateContent] fails open.  It never throws and sends at
    most one request, which carries the content unchanged.  It reports
    unsafe only if a key is configured, the endpoint answered with an
    [ok] response whose JSON holds a text output, and that output,
    trimmed, starts with [unsafe] in any letter case; the categories are
    then the lines after the first that start with [S] once trimmed, and
    the confidence is 0.9.  In every other case (no key, a network error,
    a response that is not [ok], a body that is not JSON or has another
    shape, any other output) the content counts as safe. *)
Theorem moderateContent_fails_open (w : ModerationWorld) (content : string)
    (type : option string) (log : ContentModerationService.Log) (rt : Runtime) :
  ∃ r log',
    ContentModerationService.moderateContent w content type (log, rt)
    = (Normal r, (log', rt))
    ∧ (log' = log
       ∨ ∃ key, log' = (log ++ [requestFor key content (default "response" type)])%list)
    ∧ (isSafe r = true → r = ContentModerationService.safe)
    ∧ (isSafe r = false →
       ∃ key statusText result out,
         configuredKey w = Some key
         ∧ fetch w (length log) (requestFor key content (default "response" type))
           = FetchResolves true statusText (Normal result)
         ∧ moderationOutputOf result = Normal out
         ∧ startsWith (toLowerCase out) "unsafe" = true
         ∧ r = {| isSafe := false; categories := Some (categoryLines out);
                  confidence := Some (Number.lit 9 10) |}).
Proof.
  rewrite moderateContent_run. eexists _, _. split; [reflexivity|]. split; [|split].
  - unfold logAfter. destruct (configuredKey w) as [key|]; [right; by exists key | by left].
  - unfold moderationFor. destruct (outputFor w _ _ _) as [out|]; [|reflexivity].
    unfold verdictOf. destruct (startsWith (toLowerCase out) "safe"); [reflexivity|].
    destruct (startsWith (toLowerCase out) "unsafe"); [discriminate | reflexivity].
  - intros H. destruct (moderationFor_unsafe w _ _ _ H) as (out & O & U & E).
    destruct (outputFor_Some w _ _ _ _ O) as (key & st & result & K & F & Mo).
    by exists key, st, result, out.
Qed.

(** X16.  Without an API key ([GROQ_API_KEY] and [GROQ_API_KEY_ENV_VAR]
    both unset or empty) moderation is off: [moderateContent] calls every
    content safe and [filterContent] hands every content back unflagged
    and unchanged, at either safety level, and no request is sent. *)
Theorem moderation_off_without_key (w : ModerationWorld) (inheritedText : string → string)
    (content : string) (safetyLevel type : option string)
    (log : ContentModerationService.Log) (rt : Runtime) :
  truthyKey (processEnv w !! "GROQ_API_KEY") = None →
  truthyKey (processEnv w !! "GROQ_API_KEY_ENV_VAR") = None →
  ContentModerationService.moderateContent w content type (log, rt)
  = (Normal ContentModerationService.safe, (log, rt))
  ∧ ContentModerationService.filterContent w inheritedText content safetyLevel type (log, rt)
    = (Normal (unflagged content), (log, rt)).
Proof.
  intros A B. pose proof (configuredKey_none w A B) as K.
  rewrite moderateContent_run, filterContent_run. unfold logAfter.
  rewrite !moderationFor_without_key, K by exact K. split; [reflexivity|].
  unfold filterOutcome. simpl. by destruct (String.eqb _ "strict").
Qed.

Lemma moderation_off_without_key_witness :
  ContentModerationService.moderateContent moderationOff "some bars" None ([], initialRuntime)
  = (Normal ContentModerationService.safe, ([], initialRuntime))
  ∧ ContentModerationService.filterContent moderationOff v8Text "some bars" (Some "strict")
      None ([], initialRuntime)
    = (Normal (unflagged "some bars"), ([], initialRuntime)).
Proof.
  apply (moderation_off_without_key moderationOff v8Text "some bars" (Some "strict") None
           [] initialRuntime); reflexivity.
Defined.

(** X17.  [filterContent] never throws and either hands the content back
    unchanged, unflagged and without a reason, or flags it and replaces
    it by a fixed text that does not depend on the content (the
    family-friendly verse at level [strict], the battle verse at any other
    level), with a reason; it flags only what [moderateContent] called
    unsafe. *)
Theorem filterContent_flagged_or_unchanged (w : ModerationWorld)
    (inheritedText : string → string) (original : string) (safetyLevel type : option string)
    (log : ContentModerationService.Log) (rt : Runtime) :
  ∃ r log',
    ContentModerationService.filterContent w inheritedText original safetyLevel type (log, rt)
    = (Normal r, (log', rt))
    ∧ fst (snd (ContentModerationService.moderateContent w original
                  (Some (default "response" type)) (log, rt))) = log'
    ∧ if wasFlagged r then
        ContentModerationService.moderateContent w original
          (Some (default "response" type)) (log, rt)
        ≠ (Normal ContentModerationService.safe, (log', rt))
        ∧ is_Some (reason r)
        ∧ content r
          = (if String.eqb (default "moderate" safetyLevel) "strict"
             then ContentModerationService.generateFamilyFriendlyAlternative ""
             else ContentModerationService.generateModerateAlternative "")
      else r = unflagged original.
Proof.
  rewrite filterContent_run, moderateContent_run. eexists _, _.
  split; [reflexivity|]. split; [reflexivity|].
  change (default "response" (Some (default "response" type)))
    with (default "response" type).
  unfold filterOutcome.
  destruct (moderationFor w (length log) original (default "response" type))
    as [[] cats conf] eqn:E; simpl.
  - by destruct (String.eqb _ "strict").
  - destruct (String.eqb _ "strict"); simpl.
    + split; [intros [= ? ?]; discriminate | split; [eauto | reflexivity]].
    + destruct cats as [cats|]; [|reflexivity].
      destruct (List.filter _ cats); simpl; [reflexivity|].
      split; [intros [= ? ?]; discriminate | split; [eauto | reflexivity]].
Qed.

Section Filtering.
Context (w : ModerationWorld) (inheritedText : string → string).

Import ContentModerationService.

Lemma flagged_unsafe (original level : string) (moderation : ModerationResult) :
  wasFlagged (filterOutcome inheritedText original level moderation) = true →
  isSafe moderation = false.
Proof.
  unfold filterOutcome. destruct (isSafe moderation); [|reflexivity].
  by destruct (String.eqb level "strict").
Qed.

Lemma strict_flags_unsafe (original : string) (moderation : ModerationResult) :
  isSafe moderation = false →
  wasFlagged (filterOutcome inheritedText original "strict" moderation) = true.
Proof. unfold filterOutcome. simpl. by intros ->. Qed.

End Filtering.

(** X18.  The strict level flags whatever any other level flags: if
    [filterContent] flags a content at some safety level, it flags the
    same content, sent in the same state, at level [strict]. *)
Theorem filterContent_strict_covers_moderate (w : ModerationWorld)
    (inheritedText : string → string) (original : string) (safetyLevel type : option string)
    (s s' : ContentModerationService.Log * Runtime) (r : FilterResult) :
  ContentModerationService.filterContent w inheritedText original safetyLevel type s
  = (Normal r, s') →
  wasFlagged r = true →
  ∃ r',
    ContentModerationService.filterContent w inheritedText original (Some "strict") type s
    = (Normal r', s')
    ∧ wasFlagged r' = true.
Proof.
  destruct s as [log rt]. rewrite !filterContent_run. intros [= <- <-] F.
  eexists. split; [reflexivity|].
  apply strict_flags_unsafe. by apply flagged_unsafe in F.
Qed.

Lemma filterContent_strict_covers_moderate_witness :
  ∃ r',
    ContentModerationService.filterContent moderationStrictWorld v8Text "some bars"
      (Some "strict") None ([], initialRuntime)
    = (Normal r', ([requestFor "gsk-system" "some bars" "response"], initialRuntime))
    ∧ wasFlagged r' = true.
Proof.
  apply (filterContent_strict_covers_moderate moderationStrictWorld v8Text "some bars"
           None None ([], initialRuntime)
           ([requestFor "gsk-system" "some bars" "response"], initialRuntime)
           {| content := ContentModerationService.generateModerateAlternative "some bars";
              wasFlagged := true; reason := Some "Violent Crimes" |}).
  - vm_compute. reflexivity.
  - reflexivity.
Defined.

(** X19.  At every level other than [strict], [filterContent] flags a
    content exactly when the model's output starts with [unsafe] and one
    of its category lines is, character for character, one of [S1], [S3],
    [S4], [S10], [S11]; the reason then names only categories among these
    five.  Any other category, and a line that lists several categories
    or carries white space, passes. *)
Theorem filterContent_moderate_serious_only (w : ModerationWorld)
    (inheritedText : string → string) (original : string) (safetyLevel type : option string)
    (log : ContentModerationService.Log) (rt : Runtime) :
  String.eqb (default "moderate" safetyLevel) "strict" = false →
  ∃ r log',
    ContentModerationService.filterContent w inheritedText original safetyLevel type (log, rt)
    = (Normal r, (log', rt))
    ∧ (wasFlagged r = true ↔
       ∃ out cat,
         outputFor w (length log) original (default "response" type) = Some out
         ∧ startsWith (toLowerCase out) "unsafe" = true
         ∧ In cat (categoryLines out)
         ∧ In cat ContentModerationService.seriousCategories)
    ∧ (wasFlagged r = true →
       ∃ names,
         reason r = Some (String.concat ", " names)
         ∧ names ≠ [] ∧ Forall (fun name => In name seriousNames) names).
Proof.
  intros L. rewrite filterContent_run. eexists _, _. split; [reflexivity|].
  unfold filterOutcome. rewrite L.
  set (n := length log). set (ty := default "response" type).
  assert (∀ cats : list string,
            List.filter (fun cat => bool_decide (cat ∈ ContentModerationService.seriousCategories))
                        cats ≠ []
            ↔ ∃ cat, In cat cats ∧ In cat ContentModerationService.seriousCategories) as Ser.
  { intros cats. split.
    - destruct (List.filter _ cats) as [|cat rest] eqn:E; [done|]. intros _.
      assert (In cat (List.filter
                (fun cat => bool_decide (cat ∈ ContentModerationService.seriousCategories))
                cats)) as Hin by (rewrite E; by left).
      apply List.filter_In in Hin as [Hin Hb]. exists cat. split; [exact Hin|].
      apply bool_decide_eq_true in Hb. by apply list_elem_of_In.
    - intros (cat & Hin & Hs) E.
      assert (In cat (List.filter
                (fun cat => bool_decide (cat ∈ ContentModerationService.seriousCategories))
                cats)) as Hf.
      { apply List.filter_In. split; [exact Hin|].
        apply bool_decide_eq_true. by apply list_elem_of_In. }
      by rewrite E in Hf. }
  destruct (isSafe (moderationFor w n original ty)) eqn:Safe.
  - split; [|discriminate]. split; [discriminate|].
    intros (out & cat & O & U & _). unfold moderationFor in Safe. rewrite O in Safe.
    apply verdictOf_unsafe_iff in U. congruence.
  - destruct (moderationFor_unsafe w n original ty Safe) as (out & O & U & ->).
    cbn [categories].
    destruct (List.filter _ (categoryLines out)) as [|cat rest] eqn:E.
    + split; [|discriminate]. split; [discriminate|].
      intros (out' & cat & O' & _ & Hin & Hs). rewrite O in O'. injection O' as <-.
      exfalso. apply (proj2 (Ser (categoryLines out))); [by exists cat | exact E].
    + cbn [wasFlagged reason]. split.
      * split; [intros _ | reflexivity].
        destruct (proj1 (Ser (categoryLines out))) as (c & Hin & Hs); [by rewrite E|].
        by exists out, c.
      * intros _. eexists. split; [reflexivity|]. split; [discriminate|].
        apply serious_explained. rewrite <- E.
        apply List.Forall_forall. intros c Hc. apply List.filter_In in Hc as [_ Hb].
        by apply bool_decide_eq_true in Hb.
Qed.

Lemma filterContent_moderate_serious_only_witness :
  ∃ r log',
    ContentModerationService.filterContent moderationStrictWorld v8Text "some bars"
      None None ([], initialRuntime)
    = (Normal r, (log', initialRuntime))
    ∧ (wasFlagged r = true ↔
       ∃ out cat,
         outputFor moderationStrictWorld (length (@nil ModerationRequest)) "some bars"
           (default "response" None) = Some out
         ∧ startsWith (toLowerCase out) "unsafe" = true
         ∧ In cat (categoryLines out)
         ∧ In cat ContentModerationService.seriousCategories)
    ∧ (wasFlagged r = true →
       ∃ names,
         reason r = Some (String.concat ", " names)
         ∧ names ≠ [] ∧ Forall (fun name => In name seriousNames) names).
Proof.
  apply (filterContent_moderate_serious_only moderationStrictWorld v8Text "some bars"
           None None [] initialRuntime).
  reflexivity.
Defined.

(** X20.  At level [strict], [filterContent] flags a content exactly when
    the model's output starts with [unsafe]; the reason is then the
    explanation of the category lines of that output, so the branch of
    the source that gives ['Content policy violation'] is never taken:
    with no category line the reason is the empty string. *)
Theorem filterContent_strict_reason (w : ModerationWorld)
    (inheritedText : string → string) (original : string) (type : option string)
    (log : ContentModerationService.Log) (rt : Runtime) :
  ∃ r log',
    ContentModerationService.filterContent w inheritedText original (Some "strict") type
      (log, rt)
    = (Normal r, (log', rt))
    ∧ (wasFlagged r = true ↔
       ∃ out,
         outputFor w (length log) original (default "response" type) = Some out
         ∧ startsWith (toLowerCase out) "unsafe" = true)
    ∧ (∀ out,
         outputFor w (length log) original (default "response" type) = Some out →
         startsWith (toLowerCase out) "unsafe" = true →
         reason r
         = Some (ContentModerationService.getCategoryExplanation inheritedText
                   (categoryLines out))
         ∧ (categoryLines out = [] → reason r = Some "")).
Proof.
  rewrite filterContent_run. eexists _, _. split; [reflexivity|].
  unfold filterOutcome. cbn [default]. simpl String.eqb. cbv iota.
  set (n := length log). set (ty := default "response" type).
  destruct (isSafe (moderationFor w n original ty)) eqn:Safe.
  - assert (∀ out, outputFor w n original ty = Some out →
              startsWith (toLowerCase out) "unsafe" = true → False) as No.
    { intros out O U. unfold moderationFor in Safe. rewrite O in Safe.
      apply verdictOf_unsafe_iff in U. congruence. }
    split; [split; [discriminate | intros (out & O & U); by destruct (No out)]|].
    intros out O U. by destruct (No out).
  - destruct (moderationFor_unsafe w n original ty Safe) as (out & O & U & ->).
    cbn [wasFlagged reason categories]. split; [split; [by exists out | reflexivity]|].
    intros out' O' _. rewrite O in O'. injection O' as <-.
    split; [reflexivity|]. by intros ->.
Qed.

(* ===================================================================== *)
(** * The rhyme architect *)
(* ===================================================================== *)

Section Joining.

Lemma concat_empty_cons (a : string) (l : list string) :
  String.concat "" (a :: l) = (a ++ String.concat "" l)%string.
Proof.
  destruct l as [|b l]; simpl; [by rewrite string_app_nil_r | reflexivity].
Qed.

Lemma concat_empty_app (l1 l2 : list string) :
  String.concat "" (l1 ++ l2) = (String.concat "" l1 ++ String.concat "" l2)%string.
Proof.
  induction l1 as [|a l1 IH]; [reflexivity|].
  change ((a :: l1) ++ l2)%list with (a :: (l1 ++ l2))%list.
  by rewrite !concat_empty_cons, IH, string_app_assoc.
Qed.

Lemma split_cons (c : ascii) (s : string) : ∃ piece pieces, split c s = piece :: pieces.
Proof.
  destruct s as [|x s]; simpl; [by eexists _, _|].
  destruct (Ascii.eqb x c); [by eexists _, _|].
  destruct (split c s); by eexists _, _.
Qed.

(** Joining what was split gives the string back. *)
Lemma concat_split (c : ascii) (s : string) :
  String.concat (String c "") (split c s) = s.
Proof.
  induction s as [|x s IH]; [reflexivity|]. simpl split.
  destruct (split_cons c s) as (piece & pieces & E). rewrite E in IH |- *.
  destruct (Ascii.eqb_spec x c) as [->|N].
  - change (String.concat (String c "") ("" :: piece :: pieces))
      with (String c (String.concat (String c "") (piece :: pieces))).
    by rewrite IH.
  - destruct pieces as [|q pieces]; simpl in IH |- *; by rewrite <- IH.
Qed.

Lemma deleteChar_app (c : ascii) (a b : string) :
  deleteChar c (a ++ b) = (deleteChar c a ++ deleteChar c b)%string.
Proof.
  unfold deleteChar. induction a as [|x a IH]; [reflexivity|].
  rewrite string_app_cons. simpl. destruct (Ascii.eqb x c).
  - by rewrite !string_app_nil_l.
  - by rewrite string_app_cons, IH.
Qed.

Lemma deleteChar_absent (c : ascii) (s : string) :
  ¬ occursIn c s → deleteChar c s = s.
Proof.
  unfold deleteChar. induction s as [|x s IH]; [reflexivity|]. intros N. simpl.
  destruct (Ascii.eqb_spec x c) as [->|_]; [exfalso; apply N; by left|].
  rewrite IH; [reflexivity|]. intros H. apply N. by right.
Qed.

(** The pieces of a split, glued, are the string without the separator. *)
Lemma concat_empty_split (c : ascii) (s : string) :
  String.concat "" (split c s) = deleteChar c s.
Proof.
  unfold deleteChar. induction s as [|x s IH]; [reflexivity|]. simpl.
  destruct (split_cons c s) as (piece & pieces & E). rewrite E in IH |- *.
  destruct (Ascii.eqb x c).
  - by rewrite concat_empty_cons, !string_app_nil_l.
  - rewrite concat_empty_cons in IH |- *. by rewrite string_app_cons, IH.
Qed.

Lemma split_pieces_free (c : ascii) (s : string) :
  Forall (fun piece => ¬ occursIn c piece) (split c s).
Proof.
  induction s as [|x s IH]; simpl; [constructor; [intros [] | constructor]|].
  destruct (Ascii.eqb_spec x c) as [->|N]; [constructor; [intros [] | exact IH]|].
  destruct (split c s) as [|piece pieces];
    [constructor; [by intros [?|[]] | constructor]|].
  inversion IH as [|? ? Hp Hps]; subst. constructor; [|exact Hps].
  intros [?|?]; [congruence | contradiction].
Qed.

End Joining.

Section Syllables.

Import RhymeArchitectService.

Lemma sliceInit_snoc (s : string) (c : ascii) : sliceInit (s ++ String c "") = s.
Proof.
  induction s as [|x s IH]; [reflexivity|]. rewrite string_app_cons. simpl.
  rewrite IH. destruct (s ++ String c "")%string eqn:E; [|reflexivity].
  destruct s; discriminate.
Qed.

Lemma snoc_nonempty (s : string) (c : ascii) : (s ++ String c "")%string ≠ "".
Proof. destruct s; discriminate. Qed.

(** The loop only moves characters from the word into syllables. *)
Lemma syllableLoop_spec (rest : string) (syllables : list string) (current : string)
    (vowelCount : nat) :
  (0 < vowelCount → current ≠ "") →
  Forall (fun s => s ≠ "") syllables →
  let out := syllableLoop rest syllables current vowelCount in
  (String.concat "" (fst out) ++ snd out)%string
  = (String.concat "" syllables ++ current ++ rest)%string
  ∧ Forall (fun s => s ≠ "") (fst out)
  ∧ (current ++ rest ≠ "" → snd out ≠ "")%string.
Proof.
  revert syllables current vowelCount.
  induction rest as [|char rest IH]; intros syllables current vowelCount Hv Hs; simpl.
  - rewrite string_app_nil_r. auto.
  - destruct (isVowel char).
    + destruct ((1 <? S vowelCount)%nat && negb (String.eqb rest "")) eqn:B.
      * apply andb_prop in B as [B _]. apply Nat.ltb_lt in B.
        rewrite sliceInit_snoc.
        destruct (IH (syllables ++ [current])%list (String char "") 1%nat) as (E & F & N).
        { intros _. discriminate. }
        { apply Forall_app. split; [exact Hs|]. constructor; [apply Hv; lia | constructor]. }
        split; [|split; [exact F | intros _; apply N; discriminate]].
        rewrite E, concat_empty_app, concat_empty_cons. simpl String.concat.
        rewrite string_app_nil_r, !string_app_assoc. reflexivity.
      * destruct (IH syllables (current ++ String char "")%string (S vowelCount))
          as (E & F & N); [intros _; apply snoc_nonempty | exact Hs |].
        split; [|split; [exact F | intros _; apply N; rewrite string_app_assoc;
                                    intros H; by apply (snoc_nonempty current char);
                                    destruct current]].
        rewrite E, !string_app_assoc. reflexivity.
    + destruct (IH syllables (current ++ String char "")%string vowelCount)
        as (E & F & N); [intros _; apply snoc_nonempty | exact Hs |].
      split; [|split; [exact F | intros _; apply N; rewrite string_app_assoc;
                                  intros H; by apply (snoc_nonempty current char);
                                  destruct current]].
      rewrite E, !string_app_assoc. reflexivity.
Qed.

Lemma getSyllables_spec (word : string) :
  String.concat "" (getSyllables word) = word
  ∧ getSyllables word ≠ []
  ∧ (word ≠ "" → Forall (fun s => s ≠ "") (getSyllables word)).
Proof.
  unfold getSyllables.
  destruct (countMatches isVowel word =? 0)%nat;
    [split; [reflexivity | split; [discriminate | by repeat constructor]]|].
  destruct (countMatches isVowel word =? 1)%nat;
    [split; [reflexivity | split; [discriminate | by repeat constructor]]|].
  pose proof (syllableLoop_spec word [] "" 0 ltac:(lia) ltac:(constructor)) as (E & F & N).
  destruct (syllableLoop word [] "" 0) as [syllables current]. simpl in E, F, N.
  rewrite string_app_nil_l in E, N.
  destruct (String.eqb_spec current "") as [->|Nc]; simpl negb; cbv iota.
  - rewrite string_app_nil_r in E.
    destruct syllables as [|s syllables]; simpl Nat.ltb; cbv iota.
    + split; [reflexivity | split; [discriminate | by repeat constructor]].
    + split; [exact E | split; [discriminate | by intros _]].
  - assert ((0 <? length (syllables ++ [current]))%nat = true) as ->.
    { apply Nat.ltb_lt. rewrite length_app. simpl. lia. }
    split; [|split].
    + rewrite concat_empty_app, concat_empty_cons. simpl String.concat.
      by rewrite string_app_nil_r.
    + by destruct syllables.
    + intros _. apply Forall_app. split; [exact F | by repeat constructor].
Qed.

End Syllables.

(** X21.  [getSyllables] only cuts a word: the syllables it returns,
    glued together in order, are the word again, character for
    character; there is always at least one, and none of them is empty
    unless the word is. *)
Theorem getSyllables_round_trip (word : string) :
  String.concat "" (RhymeArchitectService.getSyllables word) = word
  ∧ RhymeArchitectService.getSyllables word ≠ []
  ∧ (word ≠ "" → Forall (fun s => s ≠ "") (RhymeArchitectService.getSyllables word)).
Proof. apply getSyllables_spec. Qed.

Section Architect.
Context (builtinMember : string → string → JsValue).

Import RhymeArchitectService.

(** No word of the library rhymes, so the end word stays. *)
Lemma selectDevastatingEndRhyme_same (originalWord targetImpact audienceType : string) :
  selectDevastatingEndRhyme originalWord targetImpact audienceType = originalWord.
Proof. reflexivity. Qed.

Lemma optimizeEndRhyme_run (words : list string) (targetImpact audienceType : string) :
  words ≠ [] →
  optimizeEndRhyme words targetImpact audienceType
  = (words,
     Number64.geb (assessWordImpact (List.last words ""))
                  (getTargetImpactScore "devastating"),
     getSyllables (List.last words "")).
Proof.
  intros N. unfold optimizeEndRhyme.
  destruct words as [|w ws]; [done|]. simpl Nat.eqb. cbv iota zeta.
  rewrite selectDevastatingEndRhyme_same, String.eqb_refl. simpl negb. cbv iota.
  by destruct (Number.ltb _ _).
Qed.

Lemma internalLoop_same (done rest : list string) (impactPositions : list Z)
    (syllablePos : Z) (hasExplosion : bool) :
  internalLoop done rest impactPositions syllablePos hasExplosion
  = ((done ++ rest)%list, hasExplosion).
Proof.
  revert done syllablePos. induction rest as [|word rest IH]; intros done syllablePos.
  - simpl. by rewrite app_nil_r.
  - simpl. unfold enhanceForInternalImpact. rewrite String.eqb_refl. simpl negb.
    assert (∀ b : bool, (if b then (word, hasExplosion) else (word, hasExplosion))
                        = (word, hasExplosion)) as -> by (by intros []).
    rewrite IH, <- app_assoc. reflexivity.
Qed.

Lemma optimizeInternalRhymes_same (words : list string) (impactPositions : list Z)
    (lineNumber : nat) :
  optimizeInternalRhymes words impactPositions lineNumber = (words, false).
Proof. unfold optimizeInternalRhymes. by rewrite internalLoop_same. Qed.

Lemma positionsFrom_cons (p : Z) (n : nat) :
  positionsFrom p (S n) = p :: positionsFrom (p + 1) n.
Proof.
  unfold positionsFrom. simpl. rewrite Z.add_0_r. f_equal.
  rewrite <- seq_shift, map_map. apply map_ext. intros k. lia.
Qed.

Lemma positionsFrom_app (p : Z) (n m : nat) :
  positionsFrom p (n + m) = (positionsFrom p n ++ positionsFrom (p + Z.of_nat n) m)%list.
Proof.
  revert p. induction n as [|n IH]; intros p.
  - simpl. by rewrite Z.add_0_r.
  - change (S n + m)%nat with (S (n + m)). rewrite !positionsFrom_cons, IH. simpl.
    do 3 f_equal. lia.
Qed.

(** The placements of one word: its syllables, at consecutive positions. *)
Lemma placementsOfWord_spec (impactPositions : list Z) (audienceType : string)
    (p : Z) (word : string) :
  ∃ placements,
    placementsOfWord impactPositions audienceType p word
    = (placements, (p + Z.of_nat (length (getSyllables word)))%Z)
    ∧ map RhymePlacement.syllable placements = getSyllables word
    ∧ map RhymePlacement.position placements
      = positionsFrom p (length (getSyllables word))
    ∧ Forall (fun placement =>
                RhymePlacement.impact placement
                = calculateSyllableImpact (RhymePlacement.syllable placement)
                    (RhymePlacement.position placement) impactPositions)
             placements.
Proof.
  unfold placementsOfWord. pose (total := length (getSyllables word)).
  pose (mk := fun (syllablePosition : Z) (syllable : string) =>
          {| RhymePlacement.position := syllablePosition;
             RhymePlacement.syllable := syllable;
             RhymePlacement.impact :=
               calculateSyllableImpact syllable syllablePosition impactPositions;
             RhymePlacement.timing := calculateOptimalTiming syllablePosition total;
             RhymePlacement.audienceReaction :=
               predictAudienceReaction
                 (calculateSyllableImpact syllable syllablePosition impactPositions)
                 (calculateOptimalTiming syllablePosition total) audienceType |}).
  assert (∀ (l : list string) acc q,
            ∃ more,
              fold_left
                (fun '(placements, syllablePosition) syllable =>
                   ((placements ++ [mk syllablePosition syllable])%list,
                    (syllablePosition + 1)%Z))
                l (acc, q)
              = ((acc ++ more)%list, (q + Z.of_nat (length l))%Z)
              ∧ map RhymePlacement.syllable more = l
              ∧ map RhymePlacement.position more = positionsFrom q (length l)
              ∧ Forall (fun placement =>
                          RhymePlacement.impact placement
                          = calculateSyllableImpact (RhymePlacement.syllable placement)
                              (RhymePlacement.position placement) impactPositions)
                       more) as Loop.
  { induction l as [|s l IH]; intros acc q.
    - exists []. simpl. rewrite app_nil_r, Z.add_0_r. auto.
    - simpl fold_left.
      destruct (IH (acc ++ [mk q s])%list (q + 1)%Z) as (more & E & Hs & Hp & Hi).
      exists (mk q s :: more). rewrite E. split; [|split; [|split]].
      + rewrite <- app_assoc. simpl. f_equal. lia.
      + simpl. by rewrite Hs.
      + simpl length. rewrite positionsFrom_cons. simpl. by rewrite Hp.
      + by constructor. }
  destruct (Loop (getSyllables word) [] p) as (more & E & Hs & Hp & Hi).
  exists more. split; [exact E | auto].
Qed.

(** The placements of a list of words. *)
Lemma placements_spec (impactPositions : list Z) (audienceType : string)
    (words : list string) (acc : list RhymePlacement.t) (p : Z) :
  ∃ more,
    fold_left
      (fun '(placements, syllablePosition) word =>
         let '(more, syllablePosition') :=
           placementsOfWord impactPositions audienceType syllablePosition word in
         ((placements ++ more)%list, syllablePosition'))
      words (acc, p)
    = ((acc ++ more)%list, (p + Z.of_nat (length more))%Z)
    ∧ map RhymePlacement.syllable more = List.concat (map getSyllables words)
    ∧ map RhymePlacement.position more = positionsFrom p (length more)
    ∧ Forall (fun placement =>
                RhymePlacement.impact placement
                = calculateSyllableImpact (RhymePlacement.syllable placement)
                    (RhymePlacement.position placement) impactPositions)
             more.
Proof.
  revert acc p. induction words as [|word words IH]; intros acc p.
  - exists []. simpl. rewrite app_nil_r, Z.add_0_r. auto.
  - simpl fold_left.
    destruct (placementsOfWord_spec impactPositions audienceType p word)
      as (first & E & Hs & Hp & Hi).
    rewrite E.
    destruct (IH (acc ++ first)%list (p + Z.of_nat (length (getSyllables word)))%Z)
      as (more & E' & Hs' & Hp' & Hi').
    exists (first ++ more)%list. rewrite E'.
    assert (length first = length (getSyllables word)) as L
      by (rewrite <- Hs; by rewrite length_map).
    split; [|split; [|split]].
    + rewrite <- app_assoc, length_app, L. f_equal. lia.
    + simpl. by rewrite map_app, Hs, Hs'.
    + rewrite map_app, Hp, Hp', length_app, positionsFrom_app, L. reflexivity.
    + by apply Forall_app.
Qed.

Lemma split_nonempty (c : ascii) (s : string) : split c s ≠ [].
Proof. destruct (split_cons c s) as (piece & pieces & ->). discriminate. Qed.

Lemma concat_syllables (words : list string) :
  String.concat "" (List.concat (map getSyllables words)) = String.concat "" words.
Proof.
  induction words as [|word words IH]; [reflexivity|]. cbn [map List.concat].
  rewrite concat_empty_app, concat_empty_cons, IH.
  by rewrite (proj1 (getSyllables_spec word)).
Qed.

Lemma syllables_exist (words : list string) :
  words ≠ [] → (1 <= length (List.concat (map getSyllables words)))%nat.
Proof.
  destruct words as [|word words]; [done|]. intros _. simpl.
  destruct (getSyllables_spec word) as (_ & N & _).
  rewrite length_app. destruct (getSyllables word); [done | simpl; lia].
Qed.

Lemma analyzeSyllableStructure_total (words : list string) :
  fst (analyzeSyllableStructure words) = length (List.concat (map getSyllables words)).
Proof.
  unfold analyzeSyllableStructure.
  assert (∀ total structure,
            fst (fold_left
                   (fun '(totalSyllables, syllableStructure) word =>
                      ((totalSyllables + length (getSyllables word))%nat,
                       (syllableStructure ++ [getSyllables word])%list))
                   words (total, structure))
            = (total + length (List.concat (map getSyllables words)))%nat) as H.
  { induction words as [|word words IH]; intros total structure.
    - simpl. lia.
    - simpl fold_left. rewrite IH. cbn [map List.concat]. rewrite length_app. lia. }
  exact (H 0%nat []).
Qed.

(** One line, as the source comes to treat it. *)
Lemma optimizeLineForImpact_run (line : string) (lineNumber : nat)
    (targetImpact audienceType : string) (allLines : list string) :
  ∃ placements,
    optimizeLineForImpact builtinMember line lineNumber targetImpact audienceType allLines
    = (trim line, placements,
       if devastatingFinish line then
         Some {| ImpactMoment.line := lineNumber;
                 ImpactMoment.position := (Z.of_nat (length placements) - 1)%Z;
                 ImpactMoment.syllables :=
                   getSyllables (List.last (split " " (trim line)) "");
                 ImpactMoment.impactType := ImpactMoment.punchline;
                 ImpactMoment.audienceEffect :=
                   generateAudienceEffect builtinMember targetImpact audienceType |}
       else None)
    ∧ map RhymePlacement.syllable placements
      = List.concat (map getSyllables (split " " (trim line)))
    ∧ map RhymePlacement.position placements = positionsFrom 0 (length placements)
    ∧ Forall (fun placement =>
                RhymePlacement.impact placement
                = calculateSyllableImpact (RhymePlacement.syllable placement)
                    (RhymePlacement.position placement)
                    (calculateImpactPositions
                       (length (List.concat (map getSyllables (split " " (trim line)))))
                       targetImpact))
             placements.
Proof.
  unfold optimizeLineForImpact. rewrite analyzeSyllableStructure_total.
  rewrite (optimizeEndRhyme_run _ _ _ (split_nonempty " " (trim line))).
  cbv beta iota zeta. rewrite optimizeInternalRhymes_same. cbv beta iota zeta.
  set (ps := calculateImpactPositions _ targetImpact).
  destruct (placements_spec ps audienceType (split " " (trim line)) [] 0)
    as (placements & E & Hs & Hp & Hi).
  rewrite E. cbv beta iota zeta. exists placements. split; [|auto].
  rewrite concat_split, orb_false_r. simpl app. unfold devastatingFinish.
  destruct (Number64.geb _ _); [|reflexivity].
  by rewrite Z.add_0_l.
Qed.

Lemma optimizeCrossLineImpact_same (lines : list string)
    (impactMoments : list ImpactMoment.t) :
  optimizeCrossLineImpact lines impactMoments = (lines, impactMoments).
Proof.
  unfold optimizeCrossLineImpact. generalize (seq 0 (length lines - 1)).
  generalize lines at 1 3 4. intros acc indices.
  induction indices as [|i indices IH]; [reflexivity | exact IH].
Qed.

(** The loop of [optimizeRhymePlacement] over the lines. *)
Lemma lines_spec (targetImpact audienceType : string) (allLines lines : list string)
    (optimizedLines : list string) (placementMap : list RhymePlacement.t)
    (impactMoments : list ImpactMoment.t) (i : nat) :
  ∃ placements moments,
    fold_left
      (fun '(optimizedLines, placementMap, impactMoments, i) line =>
         let '(optimizedLine, placements, impactMoment) :=
           optimizeLineForImpact builtinMember line i targetImpact audienceType allLines in
         ((optimizedLines ++ [optimizedLine])%list,
          (placementMap ++ placements)%list,
          match impactMoment with
          | Some moment => (impactMoments ++ [moment])%list
          | None => impactMoments
          end,
          S i))
      lines (optimizedLines, placementMap, impactMoments, i)
    = ((optimizedLines ++ map trim lines)%list, (placementMap ++ placements)%list,
       (impactMoments ++ moments)%list, (i + length lines)%nat)
    ∧ String.concat "" (map RhymePlacement.syllable placements)
      = String.concat "" (map (fun line => deleteChar " " (trim line)) lines)
    ∧ map ImpactMoment.line moments = devastatingLines i lines
    ∧ Forall (fun moment =>
                ImpactMoment.impactType moment = ImpactMoment.punchline
                ∧ ImpactMoment.audienceEffect moment
                  = generateAudienceEffect builtinMember targetImpact audienceType)
             moments.
Proof.
  revert optimizedLines placementMap impactMoments i.
  induction lines as [|line lines IH]; intros optimizedLines placementMap impactMoments i.
  - exists [], []. simpl. rewrite !app_nil_r, Nat.add_0_r. auto.
  - simpl fold_left.
    destruct (optimizeLineForImpact_run line i targetImpact audienceType allLines)
      as (first & E & Hs & _ & _).
    rewrite E. cbv beta iota zeta.
    destruct (devastatingFinish line) eqn:D.
    + match goal with
      | |- context [fold_left _ lines (_, _, (impactMoments ++ [?m])%list, _)] =>
          destruct (IH (optimizedLines ++ [trim line])%list (placementMap ++ first)%list
                      (impactMoments ++ [m])%list (S i))
            as (placements & moments & E' & Hc & Hl & Hf);
          exists (first ++ placements)%list, (m :: moments)
      end.
      rewrite E', <- !app_assoc. simpl length. rewrite Nat.add_succ_r.
      split; [reflexivity|]. split; [|split].
      * rewrite map_app, concat_empty_app, Hs, concat_syllables, concat_empty_split, Hc.
        cbn [map]. by rewrite concat_empty_cons.
      * simpl. by rewrite D, Hl.
      * constructor; [split; reflexivity | exact Hf].
    + destruct (IH (optimizedLines ++ [trim line])%list (placementMap ++ first)%list
                  impactMoments (S i))
        as (placements & moments & E' & Hc & Hl & Hf).
      exists (first ++ placements)%list, moments.
      rewrite E', <- !app_assoc. simpl length. rewrite Nat.add_succ_r.
      split; [reflexivity|]. split; [|split].
      * rewrite map_app, concat_empty_app, Hs, concat_syllables, concat_empty_split, Hc.
        cbn [map]. by rewrite concat_empty_cons.
      * simpl. by rewrite D, Hl.
      * exact Hf.
Qed.

(** [optimizeRhymePlacement], as the source comes to treat the lyrics. *)
Lemma optimizeRhymePlacement_run (lyrics : string) (targetImpact audienceType : option string) :
  let lines := List.filter nonBlank (split LF lyrics) in
  ∃ placementMap impactMoments,
    optimizeRhymePlacement builtinMember lyrics targetImpact audienceType
    = (String.concat (String LF "") (map trim lines), placementMap, impactMoments)
    ∧ String.concat "" (map RhymePlacement.syllable placementMap)
      = String.concat "" (map (fun line => deleteChar " " (trim line)) lines)
    ∧ map ImpactMoment.line impactMoments = devastatingLines 0 lines
    ∧ Forall (fun moment =>
                ImpactMoment.impactType moment = ImpactMoment.punchline
                ∧ ImpactMoment.audienceEffect moment
                  = generateAudienceEffect builtinMember (default "maximum" targetImpact)
                      (default "battle-crowd" audienceType))
             impactMoments.
Proof.
  intros lines. unfold optimizeRhymePlacement. fold lines. cbv zeta.
  destruct (lines_spec (default "maximum" targetImpact) (default "battle-crowd" audienceType)
              lines lines [] [] [] 0)
    as (placements & moments & E & Hc & Hl & Hf).
  rewrite E. cbv beta iota. rewrite optimizeCrossLineImpact_same. cbv beta iota.
  exists placements, moments. simpl app. auto.
Qed.

Lemma deleteChar_concat (c : ascii) (pieces : list string) :
  deleteChar c (String.concat "" pieces) = String.concat "" (map (deleteChar c) pieces).
Proof.
  induction pieces as [|piece pieces IH]; [reflexivity|]. cbn [map].
  by rewrite !concat_empty_cons, deleteChar_app, IH.
Qed.

Lemma deleteChar_joined (c : ascii) (pieces : list string) :
  Forall (fun piece => ¬ occursIn c piece) pieces →
  deleteChar c (String.concat (String c "") pieces) = String.concat "" pieces.
Proof.
  induction 1 as [|piece pieces Hp _ IH]; [reflexivity|].
  rewrite concat_empty_cons. destruct pieces as [|next pieces].
  - simpl String.concat. rewrite string_app_nil_r. by apply deleteChar_absent.
  - change (String.concat (String c "") (piece :: next :: pieces))
      with (piece ++ String c "" ++ String.concat (String c "") (next :: pieces))%string.
    rewrite !deleteChar_app, IH, (deleteChar_absent c piece Hp).
    unfold deleteChar at 1. simpl. by rewrite Ascii.eqb_refl, string_app_nil_l.
Qed.

Lemma trimmed_lines_free (lyrics : string) :
  Forall (fun piece => ¬ occursIn LF piece)
         (map trim (List.filter nonBlank (split LF lyrics))).
Proof.
  apply List.Forall_forall. intros piece Hin.
  apply in_map_iff in Hin as (line & <- & Hin). apply List.filter_In in Hin as [Hin _].
  pose proof (split_pieces_free LF lyrics) as F.
  pose proof (proj1 (List.Forall_forall _ _) F line Hin) as Free.
  intros H. apply Free. unfold trim in H. by apply occursIn_trimEnd, occursIn_trimStart in H.
Qed.

End Architect.

(** X22.  [optimizeRhymePlacement] never changes a word.  Whatever the
    target impact and the audience, the optimized lyrics are the lines of
    the input that are not blank, each trimmed, in their order, joined
    by line feeds: the end-rhyme, internal-rhyme and cross-line
    optimizations replace nothing. *)
Theorem optimizeRhymePlacement_keeps_lyrics (builtinMember : string → string → JsValue)
    (lyrics : string) (targetImpact audienceType : option string) :
  fst (fst (RhymeArchitectService.optimizeRhymePlacement builtinMember lyrics
              targetImpact audienceType))
  = String.concat (String LF "") (map trim (List.filter nonBlank (split LF lyrics))).
Proof.
  destruct (optimizeRhymePlacement_run builtinMember lyrics targetImpact audienceType)
    as (pm & ms & -> & _). reflexivity.
Qed.

(** X23.  The placement map spells the lyrics: its syllables, glued
    together in order, are the optimized lyrics with every space and
    every line feed deleted.  No syllable is lost, added or reordered. *)
Theorem placementMap_spells_lyrics (builtinMember : string → string → JsValue)
    (lyrics : string) (targetImpact audienceType : option string) :
  let result :=
    RhymeArchitectService.optimizeRhymePlacement builtinMember lyrics
      targetImpact audienceType in
  String.concat "" (map RhymePlacement.syllable (snd (fst result)))
  = deleteChar " " (deleteChar LF (fst (fst result))).
Proof.
  destruct (optimizeRhymePlacement_run builtinMember lyrics targetImpact audienceType)
    as (pm & ms & E & Hs & _).
  cbv zeta. rewrite E. cbn [fst snd]. rewrite Hs.
  rewrite (deleteChar_joined LF _ (trimmed_lines_free lyrics)), deleteChar_concat, map_map.
  reflexivity.
Qed.

(** X24.  Within a line the placements are numbered 0, 1, 2, ... without
    a gap, there is at least one, and the optimized line is the line
    trimmed.  If the line gets an impact moment, it sits on the last
    syllable of the line, carries the line's number and is a punchline. *)
Theorem optimizeLineForImpact_positions (builtinMember : string → string → JsValue)
    (line : string) (lineNumber : nat) (targetImpact audienceType : string)
    (allLines : list string) :
  let '(optimizedLine, placements, impactMoment) :=
    RhymeArchitectService.optimizeLineForImpact builtinMember line lineNumber
      targetImpact audienceType allLines in
  optimizedLine = trim line
  ∧ map RhymePlacement.position placements = positionsFrom 0 (length placements)
  ∧ (1 <= length placements)%nat
  ∧ ∀ moment, impactMoment = Some moment →
      ImpactMoment.position moment = (Z.of_nat (length placements) - 1)%Z
      ∧ ImpactMoment.line moment = lineNumber
      ∧ ImpactMoment.impactType moment = ImpactMoment.punchline.
Proof.
  destruct (optimizeLineForImpact_run builtinMember line lineNumber targetImpact
              audienceType allLines) as (placements & -> & Hs & Hp & _).
  split; [reflexivity|]. split; [exact Hp|]. split.
  - rewrite <- (length_map RhymePlacement.syllable), Hs.
    apply syllables_exist, split_nonempty.
  - intros moment. destruct (devastatingFinish line); [|discriminate].
    intros [= <-]. auto.
Qed.

(** X25.  The impact moments are one per line that ends in a word of
    impact 0.6 or more, in line order, and all of them are punchlines:
    the target impact and the audience choose the audience effect text
    but not the lines, and no other type of impact moment is ever
    produced. *)
Theorem impactMoments_are_punchlines (builtinMember : string → string → JsValue)
    (lyrics : string) (targetImpact audienceType : option string) :
  let impactMoments :=
    snd (RhymeArchitectService.optimizeRhymePlacement builtinMember lyrics
           targetImpact audienceType) in
  map ImpactMoment.line impactMoments
  = devastatingLines 0 (List.filter nonBlank (split LF lyrics))
  ∧ Forall (fun moment =>
              ImpactMoment.impactType moment = ImpactMoment.punchline
              ∧ ImpactMoment.audienceEffect moment
                = RhymeArchitectService.generateAudienceEffect builtinMember
                    (default "maximum" targetImpact)
                    (default "battle-crowd" audienceType))
           impactMoments.
Proof.
  destruct (optimizeRhymePlacement_run builtinMember lyrics targetImpact audienceType)
    as (pm & ms & E & _ & Hl & Hf).
  cbv zeta. rewrite E. auto.
Qed.

Section ImpactSyllables.
Context (builtinMember : string → string → JsValue).

Import RhymeArchitectService.

Lemma last_is_impact_position (total : nat) (targetImpact : string) :
  (1 <= total)%nat →
  In (Z.of_nat total - 1)%Z (calculateImpactPositions total targetImpact).
Proof.
  intros L. unfold calculateImpactPositions. apply List.filter_In. split.
  - destruct (String.eqb targetImpact "maximum"); [simpl; auto|].
    destruct (String.eqb targetImpact "devastating"); simpl; auto.
  - apply andb_true_intro. split; [apply Z.leb_le | apply Z.ltb_lt]; lia.
Qed.

Lemma only_last_when_controlled (total : nat) (targetImpact : string) (pos : Z) :
  String.eqb targetImpact "maximum" = false →
  String.eqb targetImpact "devastating" = false →
  In pos (calculateImpactPositions total targetImpact) → pos = (Z.of_nat total - 1)%Z.
Proof.
  intros M D. unfold calculateImpactPositions. rewrite M, D.
  intros H. apply List.filter_In in H as [[<-|[]] _]. reflexivity.
Qed.

Lemma impact_on_position (syllable : string) (position : Z) (impactPositions : list Z) :
  In position impactPositions →
  calculateSyllableImpact syllable position impactPositions ≠ RhymePlacement.moderate.
Proof.
  intros Hin. unfold calculateSyllableImpact.
  assert (existsb (Z.eqb position) impactPositions = true) as ->.
  { apply existsb_exists. exists position. split; [exact Hin | apply Z.eqb_refl]. }
  destruct (Number64.geb _ _); [discriminate|]. by destruct (Number64.geb _ _).
Qed.

Lemma moderate_off_position (syllable : string) (position : Z) (impactPositions : list Z) :
  ¬ In position impactPositions →
  calculateSyllableImpact syllable position impactPositions = RhymePlacement.moderate.
Proof.
  intros Hout. unfold calculateSyllableImpact.
  destruct (existsb (Z.eqb position) impactPositions) eqn:E; [|reflexivity].
  apply existsb_exists in E as (x & Hin & Hx). apply Z.eqb_eq in Hx as <-. contradiction.
Qed.

Lemma positionsFrom_snoc (n : nat) :
  positionsFrom 0 (S n) = (positionsFrom 0 n ++ [Z.of_nat n])%list.
Proof.
  replace (S n) with (n + 1)%nat by lia. rewrite positionsFrom_app.
  unfold positionsFrom at 2. simpl. by rewrite Z.add_0_r.
Qed.

Lemma positionsFrom_bound (n : nat) (x : Z) :
  In x (positionsFrom 0 n) → (0 ≤ x < Z.of_nat n)%Z.
Proof.
  unfold positionsFrom. intros H. apply in_map_iff in H as (k & <- & Hk).
  apply in_seq in Hk. lia.
Qed.

Lemma line_impacts (line : string) (lineNumber : nat) (targetImpact audienceType : string)
    (allLines : list string) :
  ∃ front final,
    snd (fst (optimizeLineForImpact builtinMember line lineNumber targetImpact
                audienceType allLines))
    = (front ++ [final])%list
    ∧ RhymePlacement.impact final ≠ RhymePlacement.moderate
    ∧ (String.eqb targetImpact "maximum" = false →
       String.eqb targetImpact "devastating" = false →
       Forall (fun placement => RhymePlacement.impact placement = RhymePlacement.moderate)
              front).
Proof.
  destruct (optimizeLineForImpact_run builtinMember line lineNumber targetImpact
              audienceType allLines) as (placements & -> & Hs & Hp & Hi).
  cbn [fst snd].
  pose proof (syllables_exist _ (split_nonempty " " (trim line))) as L.
  assert (length placements
          = length (List.concat (map getSyllables (split " " (trim line))))) as Len
    by (by rewrite <- Hs, length_map).
  rewrite <- Len in Hi, L. clear Hs Len.
  destruct (exists_last (l := placements)) as (front & final & ->);
    [intros ->; simpl in L; lia|].
  exists front, final. split; [reflexivity|].
  rewrite length_app in *. simpl length in *.
  replace (length front + 1)%nat with (S (length front)) in * by lia.
  rewrite map_app, positionsFrom_snoc in Hp. simpl map in Hp.
  apply app_inj_tail in Hp as [Hfront Hfinal].
  apply Forall_app in Hi as [Hi_front Hi_final].
  inversion Hi_final as [|? ? Hf _]; subst. split.
  - rewrite Hf, Hfinal. apply impact_on_position.
    replace (Z.of_nat (length front)) with (Z.of_nat (S (length front)) - 1)%Z by lia.
    apply last_is_impact_position. lia.
  - intros M D. apply List.Forall_forall. intros placement Hin.
    rewrite (proj1 (List.Forall_forall _ _) Hi_front placement Hin).
    apply moderate_off_position. intros Hpos.
    apply (only_last_when_controlled _ _ _ M D) in Hpos.
    assert (In (RhymePlacement.position placement) (positionsFrom 0 (length front))) as Hb
      by (rewrite <- Hfront; by apply in_map).
    apply positionsFrom_bound in Hb. lia.
Qed.

End ImpactSyllables.

(** X26.  In every line the last syllable is an impact syllable: its
    placement is rated knockout, devastating or powerful, never moderate,
    whatever the target impact.  For a target other than ['maximum'] and
    ['devastating'] it is the only one: every other placement of the
    line is rated moderate. *)
Theorem last_syllable_is_never_moderate (builtinMember : string → string → JsValue)
    (line : string) (lineNumber : nat) (targetImpact audienceType : string)
    (allLines : list string) :
  ∃ front final,
    snd (fst (RhymeArchitectService.optimizeLineForImpact builtinMember line lineNumber
                targetImpact audienceType allLines))
    = (front ++ [final])%list
    ∧ RhymePlacement.impact final ≠ RhymePlacement.moderate
    ∧ (String.eqb targetImpact "maximum" = false →
       String.eqb targetImpact "devastating" = false →
       Forall (fun placement => RhymePlacement.impact placement = RhymePlacement.moderate)
              front).
Proof. apply line_impacts. Qed.

(* ===================================================================== *)
(** * The preference branches of the earlier manager *)
(* ===================================================================== *)

Section EarlyPreference.
Context (w : World).

Import UserTTSManagerEarly.

(** The earlier [generateTTS] runs its preference branches between the
    line that logs the preference and the system chain. *)
Lemma early_generateTTS_phases text userId options user :
  getUser w userId = Some user →
  generateTTS w text userId options
  = (logD (LogGenerating userId (characterId options));;
     tryCatch
       (logD (LogPrefers userId (default "system" (truthyKey (preferredTtsService user))));;
        earlyPreferencePhase w user (default "system" (truthyKey (preferredTtsService user)))
          text options
        <||> (logD LogFallingBack;; useSystemTTS w text options))
       (fun error => logD (LogAllFailed userId error);; ret (emptyAudio text))).
Proof. intros H. unfold generateTTS. rewrite H. reflexivity. Qed.


Lemma staysWellKeyed_refl (s : Fields * Runtime) : staysWellKeyed s s.
Proof. intros H. exact H. Qed.

Lemma staysWellKeyed_trans (s1 s2 s3 : Fields * Runtime) :
  staysWellKeyed s1 s2 → staysWellKeyed s2 s3 → staysWellKeyed s1 s3.
Proof. intros H1 H2 H. by apply H2, H1. Qed.

Lemma staysWellKeyed_same (s s' : Fields * Runtime) :
  fst s' = fst s → staysWellKeyed s s'.
Proof. intros E H. by rewrite E. Qed.

Lemma respects_keyed_logD (d : Diagnostic) :
  respects staysWellKeyed (logD (C := Fields) d).
Proof. intros s. by apply staysWellKeyed_same. Qed.

Lemma respects_keyed_synthesis v inst text cid opts :
  respects staysWellKeyed (clientGenerateTTS (C := Fields) w v inst text cid opts).
Proof. intros [c rt]. rewrite clientGenerateTTS_eq. by apply staysWellKeyed_same. Qed.

Lemma respects_keyed_connection v inst :
  respects staysWellKeyed (clientTestConnection (C := Fields) w v inst).
Proof. intros [c rt]. rewrite clientTestConnection_eq. by apply staysWellKeyed_same. Qed.

Lemma respects_keyed_getOpenAIInstance (k : string) :
  respects staysWellKeyed (getOpenAIInstance k).
Proof.
  intros [c rt]. rewrite early_getOpenAIInstance_run.
  destruct (openaiInstances c !! k) as [i|] eqn:E; [apply staysWellKeyed_refl|].
  intros [Ho Hg]. split; simpl; [|exact Hg].
  intros k' i. destruct (decide (k = k')) as [<-|N].
  - rewrite lookup_insert_eq. intros [= <-]. split; reflexivity.
  - rewrite lookup_insert_ne by done. apply Ho.
Qed.

Lemma respects_keyed_getGroqInstance (k : string) :
  respects staysWellKeyed (getGroqInstance k).
Proof.
  intros [c rt]. rewrite early_getGroqInstance_run.
  destruct (groqInstances c !! k) as [i|] eqn:E; [apply staysWellKeyed_refl|].
  intros [Ho Hg]. split; simpl; [exact Ho|].
  intros k' i. destruct (decide (k = k')) as [<-|N].
  - rewrite lookup_insert_eq. intros [= <-]. split; reflexivity.
  - rewrite lookup_insert_ne by done. apply Hg.
Qed.

Ltac keyed_base :=
  idtac;
  lazymatch goal with
  | |- respects _ (logD _) => apply respects_keyed_logD
  | |- respects _ (getOpenAIInstance ?k) => apply respects_keyed_getOpenAIInstance
  | |- respects _ (getGroqInstance ?k) => apply respects_keyed_getGroqInstance
  | |- respects _ (clientGenerateTTS _ _ _ _ _ _) => apply respects_keyed_synthesis
  | |- respects _ (clientTestConnection _ _ _) => apply respects_keyed_connection
  end.

(** The public methods of the earlier manager keep its caches well
    keyed. *)
Lemma respects_keyed_generateTTS text userId options :
  respects staysWellKeyed (generateTTS w text userId options).
Proof.
  unfold generateTTS, useSystemTTS, preferredOpenAI, preferredGroq.
  respects_all staysWellKeyed_refl staysWellKeyed_trans keyed_base.
Qed.

Lemma respects_keyed_testUserAPIKey userId service :
  respects staysWellKeyed (testUserAPIKey w userId service).
Proof.
  unfold testUserAPIKey.
  respects_all staysWellKeyed_refl staysWellKeyed_trans keyed_base.
Qed.

Lemma respects_keyed_clearUserInstances userId :
  respects staysWellKeyed (clearUserInstances userId).
Proof.
  intros [c rt] _. split; intros k i H; simpl in H; by rewrite lookup_empty in H.
Qed.








End EarlyPreference.


